(** * UTM order analysis: attribution extraction and order retrieval

    A shallow embedding of the order pipeline of [server.js] and of the
    later revisions of the same file kept beside it.  Four revisions of
    the server are present in the sources:

    - [Rev1]: src/server.js, lines 1-164 (REST only, [mapOrderToRow]);
    - [Rev2]: src/server.js, lines 165-520 (bulk operations, REST fallback);
    - [Rev3]: src/README.md, lines 32-455 (IST dates, [created_at_raw]);
    - [Rev4]: src/README.md, lines 456-863 (global auth middleware).

    JavaScript values are modelled by [JSValue], exceptions by
    [completion].  Strings are sequences of bytes (ASCII text is modelled
    exactly); numbers that reach the code from JSON are integers.  What
    the host platform provides (the URL parser, [JSON.parse],
    [Date.parse], the upstream HTTP service, the process environment) is
    a variable of the section [Host]. *)

From Stdlib Require Import ZArith List String Ascii Bool Lia Arith.
From Stdlib Require Import Sorted Permutation.
From Stdlib Require DecimalString.
Import ListNotations.

Local Open Scope list_scope.
Local Open Scope string_scope.

(** The four revisions of the server. *)
Inductive Revision : Type := Rev1 | Rev2 | Rev3 | Rev4.

(* ================================================================== *)
(** ** Strings *)

Definition dquote : ascii := ascii_of_nat 34.
Definition newline : ascii := ascii_of_nat 10.
Definition backslash : ascii := ascii_of_nat 92.

(** [s.startsWith(p)] *)
Definition startsWith (s p : string) : bool := String.prefix p s.

(** [s.includes(sub)] *)
Fixpoint includes (s sub : string) : bool :=
  String.prefix sub s ||
  match s with
  | EmptyString => false
  | String _ s' => includes s' sub
  end.

Definition lower_ascii (c : ascii) : ascii :=
  let n := nat_of_ascii c in
  if (65 <=? n)%nat && (n <=? 90)%nat then ascii_of_nat (n + 32) else c.

(** [s.toLowerCase()] on ASCII text *)
Fixpoint toLowerCase (s : string) : string :=
  match s with
  | EmptyString => EmptyString
  | String c s' => String (lower_ascii c) (toLowerCase s')
  end.

Definition is_space (c : ascii) : bool :=
  let n := nat_of_ascii c in
  ((9 <=? n)%nat && (n <=? 13)%nat) || (n =? 32)%nat.

(** [!s.trim()]: the string holds white space only *)
Fixpoint blank (s : string) : bool :=
  match s with
  | EmptyString => true
  | String c s' => is_space c && blank s'
  end.

Definition string_of_Z (n : Z) : string :=
  DecimalString.NilZero.string_of_int (Z.to_int n).

(** [s.trimStart()], [s.trimEnd()] and [s.trim()] on ASCII text *)
Fixpoint trimStart (s : string) : string :=
  match s with
  | EmptyString => EmptyString
  | String c s' => if is_space c then trimStart s' else s
  end.

Fixpoint trimEnd (s : string) : string :=
  match s with
  | EmptyString => EmptyString
  | String c s' =>
      let t := trimEnd s' in
      if is_space c && (t =? "") then EmptyString else String c t
  end.

Definition trim (s : string) : string := trimEnd (trimStart s).

(** [String(n).padStart(w, '0')], given [String(n)] *)
Definition padStart (w : nat) (s : string) : string :=
  string_of_list_ascii (repeat "0"%char (w - String.length s)) ++ s.

(* ================================================================== *)
(** ** JavaScript values, as [JSON.parse] and the code build them *)

#[warnings="-register-all"]
Inductive JSValue : Type :=
| JUndefined
| JNull
| JBool (b : bool)
| JNum (n : Z)
| JStr (s : string)
| JArr (elems : list JSValue)
| JObj (fields : list (string * JSValue)).

(** An object: its own properties in insertion order. *)
Definition Obj : Type := list (string * JSValue).

(** ToBoolean *)
Definition truthy (v : JSValue) : bool :=
  match v with
  | JUndefined | JNull => false
  | JBool b => b
  | JNum n => negb (n =? 0)%Z
  | JStr s => negb (s =? "")
  | JArr _ | JObj _ => true
  end.

(** [a || b] *)
Definition js_or (a b : JSValue) : JSValue := if truthy a then a else b.

(** [String(v)], which is also [v + ''] on these values.  An array joins
    its elements with commas, [null] and [undefined] elements printing
    as nothing. *)
Fixpoint toString (v : JSValue) : string :=
  match v with
  | JUndefined => "undefined"
  | JNull => "null"
  | JBool true => "true"
  | JBool false => "false"
  | JNum n => string_of_Z n
  | JStr s => s
  | JArr l =>
      String.concat ","
        (map (fun x => match x with
                       | JUndefined | JNull => EmptyString
                       | _ => toString x
                       end) l)
  | JObj _ => "[object Object]"
  end.

(** [o[k]] on an object's own properties *)
Fixpoint obj_get (o : Obj) (k : string) : JSValue :=
  match o with
  | [] => JUndefined
  | (k', v) :: o' => if (k' =? k) then v else obj_get o' k
  end.

(** [o[k] = v]: an existing key keeps its place, a new key goes last *)
Fixpoint obj_set (o : Obj) (k : string) (v : JSValue) : Obj :=
  match o with
  | [] => [(k, v)]
  | (k', v') :: o' =>
      if (k' =? k) then (k', v) :: o' else (k', v') :: obj_set o' k v
  end.

(** [Object.assign(target, source)], also the spread of [source] into an
    object literal that already holds [target] *)
Definition obj_assign (target source : Obj) : Obj :=
  fold_left (fun o kv => obj_set o (fst kv) (snd kv)) source target.

(** An object literal [{k1: v1, ..., kn: vn}] *)
Definition obj_literal (props : Obj) : Obj := obj_assign [] props.

(* ================================================================== *)
(** ** Exceptions *)

Inductive Exn : Type :=
| TypeError
| SyntaxError
| NetworkError
| Error (msg : string).

Inductive completion (A : Type) : Type :=
| Normal (a : A)
| Throw (e : Exn).
Arguments Normal {A} a.
Arguments Throw {A} e.

Definition bind {A B} (m : completion A) (k : A -> completion B) : completion B :=
  match m with
  | Normal a => k a
  | Throw e => Throw e
  end.

Notation "x <- m ;; k" := (bind m (fun x => k))
  (at level 61, m at next level, right associativity).

(** [try { body } catch (e) { handler }] *)
Definition try_catch {A} (body : completion A) (handler : Exn -> completion A) : completion A :=
  match body with
  | Normal a => Normal a
  | Throw e => handler e
  end.

(** [v.k] for the property names the program reads (none of them is
    [length] or an index): an own property of an object, [undefined] on
    any other value, a [TypeError] on [null] and [undefined]. *)
Definition get (v : JSValue) (k : string) : completion JSValue :=
  match v with
  | JUndefined | JNull => Throw TypeError
  | JObj o => Normal (obj_get o k)
  | _ => Normal JUndefined
  end.

(** [for (const x of v)]: arrays give their elements, strings their
    characters; nothing else that JSON builds is iterable. *)
Definition iterate (v : JSValue) : completion (list JSValue) :=
  match v with
  | JArr l => Normal l
  | JStr s => Normal (map (fun c => JStr (String c EmptyString)) (list_ascii_of_string s))
  | _ => Throw TypeError
  end.

(** The five canonical attribution fields, in the order of the source. *)
Definition utm_fields : list string :=
  ["utm_source"; "utm_medium"; "utm_campaign"; "utm_term"; "utm_content"].

(** [{ utm_source:'', utm_medium:'', utm_campaign:'', utm_term:'', utm_content:'' }] *)
Definition utm_empty : Obj :=
  [("utm_source", JStr ""); ("utm_medium", JStr ""); ("utm_campaign", JStr "");
   ("utm_term", JStr ""); ("utm_content", JStr "")].

(** What the code reads of a response: [resp.ok], [resp.status], the
    body (read by [resp.text()], parsed by [resp.json()]) and
    [resp.headers.get('link')]. *)
Record Response : Type := {
  ok : bool;
  status : Z;
  body : string;
  link : option string
}.

(** A number that [parseInt] returned: [None] is [NaN]. *)
Definition Number : Type := option Z.

(* ================================================================== *)
(** ** A reference host

    Small, executable stand-ins for the platform functions, on which the
    model is run in the examples at the end.  The theorems of section
    [Host] hold for every host; these definitions only show that their
    hypotheses can be met. *)

(** The prefix of [s] before the first character satisfying [stop], and
    the rest (which starts with that character). *)
Fixpoint break_at (stop : ascii -> bool) (s : string) : string * string :=
  match s with
  | EmptyString => (EmptyString, EmptyString)
  | String c s' =>
      if stop c then (EmptyString, s)
      else let '(a, b) := break_at stop s' in (String c a, b)
  end.

(** [s] cut at every [sep]. *)
Fixpoint split_on (sep : ascii) (s : string) : list string :=
  match s with
  | EmptyString => [EmptyString]
  | String c s' =>
      if Ascii.eqb c sep then EmptyString :: split_on sep s'
      else match split_on sep s' with
           | [] => [String c EmptyString]
           | x :: xs => String c x :: xs
           end
  end.

Definition drop (n : nat) (s : string) : string := substring n (String.length s - n) s.

Definition plus_to_space (s : string) : string :=
  string_of_list_ascii
    (map (fun c => if Ascii.eqb c "+" then " "%char else c) (list_ascii_of_string s)).

(** The parameters of an absolute [http] or [https] URL whose host has no
    blank and whose query has no percent-encoded byte; any other text is
    rejected. *)
Definition ref_searchParams (base : string) : option (list (string * string)) :=
  let after :=
    if String.prefix "https://" base then Some (drop 8 base)
    else if String.prefix "http://" base then Some (drop 7 base)
    else None in
  match after with
  | None => None
  | Some rest =>
      let '(host, tail) :=
        break_at (fun c => Ascii.eqb c "/" || Ascii.eqb c "?" || Ascii.eqb c "#") rest in
      if (host =? "") || existsb is_space (list_ascii_of_string host) then None
      else
        let '(_, from_query) := break_at (fun c => Ascii.eqb c "?" || Ascii.eqb c "#") tail in
        match from_query with
        | String "?" q =>
            let '(query, _) := break_at (fun c => Ascii.eqb c "#") q in
            Some (map (fun kv => let '(k, v) := break_at (fun c => Ascii.eqb c "=") kv in
                                 (plus_to_space k, plus_to_space (drop 1 v)))
                      (filter (fun kv => negb (kv =? "")) (split_on "&" query)))
        | _ => Some []
        end
  end.

Definition digit_value (c : ascii) : option Z :=
  let n := nat_of_ascii c in
  if (48 <=? n)%nat && (n <=? 57)%nat then Some (Z.of_nat (n - 48)) else None.

(** The number written by a string of decimal digits. *)
Definition digits (s : string) : option Z :=
  if (s =? "") then None
  else fold_left (fun acc c => match acc, digit_value c with
                               | Some a, Some d => Some (10 * a + d)%Z
                               | _, _ => None
                               end)
                 (list_ascii_of_string s) (Some 0%Z).

(** The day number of a date of the proleptic Gregorian calendar. *)
Definition days_from_civil (y m d : Z) : Z :=
  let y' := (if m <=? 2 then y - 1 else y)%Z in
  let era := (y' / 400)%Z in
  let yoe := (y' - era * 400)%Z in
  let doy := ((153 * (if 2 <? m then m - 3 else m + 9) + 2) / 5 + d - 1)%Z in
  let doe := (yoe * 365 + yoe / 4 - yoe / 100 + doy)%Z in
  (era * 146097 + doe - 719468)%Z.

(** [Date.parse] on the format [YYYY-MM-DDTHH:MM:SSZ]; any other text is
    rejected. *)
Definition ref_Date_parse (s : string) : option Z :=
  if negb ((String.length s =? 20)%nat
           && (substring 4 1 s =? "-") && (substring 7 1 s =? "-")
           && (substring 10 1 s =? "T") && (substring 13 1 s =? ":")
           && (substring 16 1 s =? ":") && (substring 19 1 s =? "Z"))
  then None
  else
    match digits (substring 0 4 s), digits (substring 5 2 s), digits (substring 8 2 s),
          digits (substring 11 2 s), digits (substring 14 2 s), digits (substring 17 2 s) with
    | Some y, Some mo, Some d, Some h, Some mi, Some sec =>
        if ((1 <=? mo) && (mo <=? 12) && (1 <=? d) && (d <=? 31)
            && (h <=? 23) && (mi <=? 59) && (sec <=? 59))%Z
        then Some (days_from_civil y mo d * 86400000 + h * 3600000 + mi * 60000 + sec * 1000)%Z
        else None
    | _, _, _, _, _, _ => None
    end.

(** The JSON text of a value whose strings need no escape. *)
Fixpoint json_text (v : JSValue) : string :=
  match v with
  | JUndefined | JNull => "null"
  | JBool true => "true"
  | JBool false => "false"
  | JNum n => string_of_Z n
  | JStr s => String dquote (s ++ String dquote EmptyString)
  | JArr l => "[" ++ String.concat "," (map json_text l) ++ "]"
  | JObj o =>
      "{" ++ String.concat ","
               (map (fun kv => String dquote (fst kv ++ String dquote EmptyString)
                                 ++ ":" ++ json_text (snd kv)) o)
          ++ "}"
  end.

(** [JSON.parse] restricted to the texts of the values [known]. *)
Definition ref_JSON_parse (known : list JSValue) (s : string) : option JSValue :=
  find (fun v => json_text v =? s) known.

(** An upstream that serves the listed URLs and nothing else. *)
Definition ref_fetch (served : list (string * Response)) (url : string) : option Response :=
  option_map snd (find (fun p => fst p =? url) served).

(* ================================================================== *)
(** ** The lines of a bulk export *)

(** What a line of a bulk export holds: text that is not JSON, a wrapped
    collection of order edges, a single wrapped node, or a bare object
    shaped like an order. *)
Inductive Line : Type :=
| Malformed
| Edges (nodes : list JSValue)
| Node (node : JSValue)
| Bare (fields : Obj).

(** [{ orders: { edges: [ { node: n1 }, ... ] } }] *)
Definition wrapped (nodes : list JSValue) : JSValue :=
  JObj [("orders", JObj [("edges", JArr (map (fun n => JObj [("node", n)]) nodes))])].

Definition parsed_of (l : Line) : option JSValue :=
  match l with
  | Malformed => None
  | Edges nodes => Some (wrapped nodes)
  | Node node => Some (JObj [("node", node)])
  | Bare fields => Some (JObj fields)
  end.


(* ================================================================== *)
(** ** Example data: a store, three REST orders on two pages, and a bulk
       export of six lines *)

Definition demo_shop : option string := Some "demo.myshopify.com".
Definition demo_token : option string := Some "shpat_demo".
Definition demo_min : string := "2024-03-01T00:00:00.000Z".
Definition demo_max : string := "2024-03-31T23:59:59.000Z".

(** [{name: n, value: v}] with a string value *)
Definition note_attr (n v : string) : JSValue := JObj [("name", JStr n); ("value", JStr v)].

Definition demo_order_1 : JSValue :=
  JObj [("id", JNum 1); ("name", JStr "#1001");
        ("created_at", JStr "2024-03-01T10:00:00Z");
        ("landing_site", JStr "/?utm_source=land&utm_medium=cpc");
        ("referring_site", JStr "https://ref.example/?utm_source=ref&utm_term=shoes");
        ("note_attributes", JArr [note_attr "utm_source" "note"])].

Definition demo_order_2 : JSValue :=
  JObj [("id", JNum 2); ("name", JStr "#1002");
        ("created_at", JStr "2024-03-03T08:30:00Z");
        ("landing_site", JStr "/?utm_campaign=spring");
        ("referring_site", JNull);
        ("note_attributes", JArr [])].

Definition demo_order_3 : JSValue :=
  JObj [("id", JNum 3); ("name", JStr "#1003");
        ("created_at", JStr "2024-03-02T23:45:10Z");
        ("landing_site", JNull);
        ("referring_site", JNull);
        ("note_attributes", JArr [note_attr "UTM_Source" "a"; note_attr "utm_source_x" "b"])].

Definition demo_page_1 : JSValue := JObj [("orders", JArr [demo_order_1; demo_order_2])].
Definition demo_page_2 : JSValue := JObj [("orders", JArr [demo_order_3])].

Definition demo_url_1 : string :=
  "https://demo.myshopify.com/admin/api/2025-07/orders.json?status=any&limit=250&created_at_min=2024-03-01T00%3A00%3A00.000Z&created_at_max=2024-03-31T23%3A59%3A59.000Z".
Definition demo_url_2 : string :=
  "https://demo.myshopify.com/admin/api/2025-07/orders.json?limit=250&page_info=abc".
Definition demo_count_url : string :=
  "https://demo.myshopify.com/admin/api/2025-07/orders/count.json?status=any&created_at_min=2024-03-01T00%3A00%3A00.000Z&created_at_max=2024-03-31T23%3A59%3A59.000Z".

(** The header [<demo_url_2>; rel=next], with the quotes of the protocol. *)
Definition demo_link : string :=
  "<" ++ demo_url_2 ++ ">; rel=" ++ String dquote ("next" ++ String dquote EmptyString).

Definition demo_responses : list (string * Response) :=
  [(demo_url_1, {| ok := true; status := 200; body := json_text demo_page_1;
                   link := Some demo_link |});
   (demo_url_2, {| ok := true; status := 200; body := json_text demo_page_2;
                   link := None |})].

(** A count response without a count, and one with a count. *)
Definition demo_no_count : list (string * Response) :=
  [(demo_count_url, {| ok := true; status := 200; body := json_text (JObj []);
                       link := None |})].
Definition demo_count_3 : list (string * Response) :=
  [(demo_count_url, {| ok := true; status := 200;
                       body := json_text (JObj [("count", JNum 3)]); link := None |})].

(** Order nodes as a bulk export holds them. *)
Definition demo_node (id name created landing : string) (notes : list JSValue) : JSValue :=
  JObj [("id", JStr id); ("name", JStr name); ("createdAt", JStr created);
        ("landingSite", JStr landing); ("referringSite", JNull);
        ("noteAttributes", JArr notes)].

Definition demo_node_1 : JSValue :=
  JObj [("id", JStr "gid://shopify/Order/1"); ("name", JStr "#1001");
        ("createdAt", JStr "2024-03-01T10:00:00Z");
        ("landingSite", JStr "/?utm_source=land&utm_medium=cpc");
        ("referringSite", JStr "https://ref.example/?utm_source=ref&utm_term=shoes");
        ("noteAttributes", JArr [note_attr "utm_source" "note"; note_attr "utm_content" "banner"])].
Definition demo_node_2 : JSValue :=
  demo_node "gid://shopify/Order/2" "#1002" "2024-03-03T08:30:00Z" "/?utm_campaign=spring" [].
Definition demo_node_3 : JSValue :=
  demo_node "gid://shopify/Order/3" "#1003" "2024-03-02T23:45:10Z" "/"
    [note_attr "UTM_Source" "a"; note_attr "utm_source_x" "b"].
Definition demo_node_4 : JSValue :=
  demo_node "gid://shopify/Order/4" "#1004" "2024-03-04T12:00:00Z" "/?utm_source=mail" [].
Definition demo_node_5 : JSValue :=
  demo_node "gid://shopify/Order/5" "#1005" "2024-03-05T12:00:00Z" "/collections/all" [].
Definition demo_node_6 : JSValue :=
  demo_node "gid://shopify/Order/6" "#1006" "2024-03-06T12:00:00Z" "/?utm_medium=social" [].

Definition as_fields (v : JSValue) : Obj :=
  match v with
  | JObj o => o
  | _ => []
  end.

(** The export: a line of two wrapped edges, a line that is not JSON, a
    single wrapped node, and three bare orders. *)
Definition demo_export_kinds : list Line :=
  [Edges [demo_node_1; demo_node_2]; Malformed; Node demo_node_3;
   Bare (as_fields demo_node_4); Bare (as_fields demo_node_5); Bare (as_fields demo_node_6)].

Definition demo_line (l : Line) : string :=
  match parsed_of l with
  | Some v => json_text v
  | None => "{oops"
  end.

Definition demo_export : list (string * Line) :=
  map (fun l => (demo_line l, l)) demo_export_kinds.

(** Rows as the revisions build them: without and with [created_at_raw]. *)
Definition demo_row (id : JSValue) (number created : string)
    (source medium campaign term content : string) : JSValue :=
  JObj [("id", id); ("order_number", JStr number); ("created_at", JStr created);
        ("utm_source", JStr source); ("utm_medium", JStr medium);
        ("utm_campaign", JStr campaign); ("utm_term", JStr term);
        ("utm_content", JStr content)].

Definition demo_row_ist (id : JSValue) (number created raw : string)
    (source medium campaign term content : string) : JSValue :=
  JObj [("id", id); ("order_number", JStr number); ("created_at", JStr created);
        ("created_at_raw", JStr raw);
        ("utm_source", JStr source); ("utm_medium", JStr medium);
        ("utm_campaign", JStr campaign); ("utm_term", JStr term);
        ("utm_content", JStr content)].

(** The rows of the two REST pages in [Rev2], page by page. *)
Definition demo_rest_rows : list (list JSValue) :=
  [[demo_row (JNum 1) "#1001" "2024-03-01T10:00:00Z" "note" "" "" "" "";
    demo_row (JNum 2) "#1002" "2024-03-03T08:30:00Z" "" "" "" "" ""];
   [demo_row (JNum 3) "#1003" "2024-03-02T23:45:10Z" "a" "" "" "" ""]].


(** The rows of the export in [Rev3], line by line. *)
Definition demo_bulk_rows : list (list JSValue) :=
  [[demo_row_ist (JStr "gid://shopify/Order/1") "#1001" "2024-03-01 15:30:00"
      "2024-03-01T10:00:00Z" "land" "cpc" "" "shoes" "banner";
    demo_row_ist (JStr "gid://shopify/Order/2") "#1002" "2024-03-03 14:00:00"
      "2024-03-03T08:30:00Z" "" "" "spring" "" ""];
   [];
   [demo_row_ist (JStr "gid://shopify/Order/3") "#1003" "2024-03-03 05:15:10"
      "2024-03-02T23:45:10Z" "a" "" "" "" ""];
   [demo_row_ist (JStr "gid://shopify/Order/4") "#1004" "2024-03-04 17:30:00"
      "2024-03-04T12:00:00Z" "mail" "" "" "" ""];
   [demo_row_ist (JStr "gid://shopify/Order/5") "#1005" "2024-03-05 17:30:00"
      "2024-03-05T12:00:00Z" "" "" "" "" ""];
   [demo_row_ist (JStr "gid://shopify/Order/6") "#1006" "2024-03-06 17:30:00"
      "2024-03-06T12:00:00Z" "" "social" "" "" ""]].

(** The values whose JSON text the examples parse. *)
Definition demo_known : list JSValue :=
  [demo_page_1; demo_page_2; JObj []; JObj [("count", JNum 3)];
   wrapped [demo_node_1; demo_node_2]; JObj [("node", demo_node_3)];
   demo_node_4; demo_node_5; demo_node_6].

(* ================================================================== *)
(** ** The host platform *)

Section Host.

#[local] Set Default Proof Using "Type".

(** [process.env.SHOPIFY_STORE] and [process.env.SHOPIFY_ACCESS_TOKEN];
    [None] when the variable is not set. *)
Variable SHOP : option string.
Variable TOKEN : option string.

(** [new URL(base).searchParams.entries()]: the decoded query parameters
    in the order of the query string, [None] when the constructor throws
    on [base]. *)
Variable URL_searchParams : string -> option (list (string * string)).

(** [env || fallback] on an environment variable *)
Definition env_or (e : option string) (fallback : string) : string :=
  match e with
  | Some s => if (s =? "") then fallback else s
  | None => fallback
  end.

(** [!SHOP]: unset or empty *)
Definition env_missing (e : option string) : bool :=
  match e with
  | Some s => (s =? "")
  | None => true
  end.

(* ------------------------------------------------------------------ *)
(** *** [extractUtmFromUrl] (the same in the four revisions) *)

(** [urlString.startsWith('http')]: only a string has the method. *)
Definition call_startsWith (v : JSValue) (p : string) : completion bool :=
  match v with
  | JStr s => Normal (startsWith s p)
  | _ => Throw TypeError
  end.

(** [new URL(base)] followed by the loop over its parameters:
    [if (k.startsWith('utm_')) out[k] = v]. *)
Definition collect_utm (out : Obj) (entries : list (string * string)) : Obj :=
  fold_left
    (fun out kv => if startsWith (fst kv) "utm_" then obj_set out (fst kv) (JStr (snd kv)) else out)
    entries out.

Definition url_base (urlString : JSValue) : completion string :=
  http <- call_startsWith urlString "http" ;;
  Normal (if http then toString urlString
          else "https://" ++ env_or SHOP "example.com" ++ toString urlString).

(** The body of the [try] block.  The constructor is the only statement
    that throws once [base] is known, and it runs before [out] is
    written, so a caught exception leaves [out] as it was. *)
Definition extractUtmFromUrl_try (out : Obj) (urlString : JSValue) : completion Obj :=
  base <- url_base urlString ;;
  match URL_searchParams base with
  | None => Throw TypeError
  | Some entries => Normal (collect_utm out entries)
  end.

Definition extractUtmFromUrl (urlString : JSValue) : completion Obj :=
  let out := utm_empty in
  if negb (truthy urlString) then Normal out
  else try_catch (extractUtmFromUrl_try out urlString) (fun _ => Normal out).

(* ------------------------------------------------------------------ *)
(** *** [extractUtmFromAttributes] *)

(** [x.toLowerCase()]: only a string has the method. *)
Definition call_toLowerCase (v : JSValue) : completion string :=
  match v with
  | JStr s => Normal (toLowerCase s)
  | _ => Throw TypeError
  end.

(** [if (n.includes(f)) out[f] = out[f] || v] *)
Definition fill (n v : string) (f : string) (out : Obj) : Obj :=
  if includes n f then obj_set out f (js_or (obj_get out f) (JStr v)) else out.

(** The five [if] statements at the end of each loop body. *)
Definition fill_all (n v : string) (out : Obj) : Obj :=
  fill n v "utm_content"
    (fill n v "utm_term"
       (fill n v "utm_campaign"
          (fill n v "utm_medium"
             (fill n v "utm_source" out)))).

(** The value of an array entry.  [Rev1]:
    [(a.value || a.value === 0) ? String(a.value) : '']; later revisions:
    [a.value ? String(a.value) : '']. *)
Definition entry_value (rev : Revision) (value : JSValue) : string :=
  match rev with
  | Rev1 =>
      if truthy value || (match value with JNum 0 => true | _ => false end)
      then toString value else ""
  | _ => if truthy value then toString value else ""
  end.

(** One turn of [for (const a of attrs)]. *)
Definition attr_step (rev : Revision) (out : Obj) (a : JSValue) : completion Obj :=
  name <- get a "name" ;;
  key <- (if truthy name then Normal name else get a "key") ;;
  n <- call_toLowerCase (js_or (js_or name key) (JStr "")) ;;
  value <- get a "value" ;;
  let v := entry_value rev value in
  if (v =? "") then Normal out else Normal (fill_all n v out).

Fixpoint attr_loop (rev : Revision) (out : Obj) (attrs : list JSValue) : completion Obj :=
  match attrs with
  | [] => Normal out
  | a :: rest => out' <- attr_step rev out a ;; attr_loop rev out' rest
  end.

(** One turn of [for (const k of Object.keys(attrs))]:
    [n = k.toLowerCase(); v = String(attrs[k] || '')].  The keys are
    taken in the order of the object's properties; the keys that
    JavaScript moves to the front, those that are array indices, match
    no field name. *)
Definition key_step (attrs : Obj) (out : Obj) (k : string) : Obj :=
  let n := toLowerCase k in
  let v := toString (js_or (obj_get attrs k) (JStr "")) in
  if (v =? "") then out else fill_all n v out.

Definition extractUtmFromAttributes (rev : Revision) (attrs : JSValue) : completion Obj :=
  let out := utm_empty in
  if negb (truthy attrs) then Normal out
  else match attrs with
       | JArr l => attr_loop rev out l
       | JObj o => Normal (fold_left (key_step o) (map fst o) out)
       | _ => Normal out
       end.

(* ------------------------------------------------------------------ *)
(** *** Dates: [new Date(x)] and [formatDateToIST] ([Rev3]) *)

(** [Date.parse]: milliseconds since the epoch, [None] for [NaN]. *)
Variable Date_parse : string -> option Z.

(** A time value is a whole number of milliseconds within 8.64e15 of
    the epoch; anything else is an invalid date. *)
Definition time_clip (t : Z) : option Z :=
  if (Z.abs t <=? 8640000000000000)%Z then Some t else None.

(** The time value of [new Date(v)]; [None] is the invalid date. *)
Definition new_Date (v : JSValue) : option Z :=
  match v with
  | JUndefined => None
  | JNull => Some 0%Z
  | JBool b => Some (if b then 1 else 0)%Z
  | JNum n => time_clip n
  | JStr s => match Date_parse s with Some t => time_clip t | None => None end
  | JArr _ | JObj _ =>
      match Date_parse (toString v) with Some t => time_clip t | None => None end
  end.

(** Year, month (1-12) and day of the month of a day number counted from
    1970-01-01, in the proleptic Gregorian calendar. *)
Definition civil_from_days (days : Z) : Z * Z * Z :=
  let z := (days + 719468)%Z in
  let era := (z / 146097)%Z in
  let doe := (z - era * 146097)%Z in
  let yoe := ((doe - doe / 1460 + doe / 36524 - doe / 146096) / 365)%Z in
  let doy := (doe - (365 * yoe + yoe / 4 - yoe / 100))%Z in
  let mp := ((5 * doy + 2) / 153)%Z in
  let d := (doy - (153 * mp + 2) / 5 + 1)%Z in
  let m := (if mp <? 10 then mp + 3 else mp - 9)%Z in
  let y := (yoe + era * 400 + (if m <=? 2 then 1 else 0))%Z in
  (y, m, d).

(** [String(n).padStart(2, '0')] *)
Definition pad (n : Z) : string :=
  let s := string_of_Z n in
  if (String.length s <? 2)%nat then "0" ++ s else s.

Definition formatDateToIST (isoString : JSValue) : string :=
  if negb (truthy isoString) then ""
  else match new_Date isoString with
       | None => ""
       | Some t =>
           match time_clip (t + 330 * 60 * 1000) with
           | None => "NaN-NaN-NaN NaN:NaN:NaN"
           | Some ist =>
               let '(YYYY, MM, DD) := civil_from_days (ist / 86400000) in
               let ms := (ist mod 86400000)%Z in
               let hh := (ms / 3600000)%Z in
               let mm := ((ms / 60000) mod 60)%Z in
               let ss := ((ms / 1000) mod 60)%Z in
               string_of_Z YYYY ++ "-" ++ pad MM ++ "-" ++ pad DD ++ " "
                 ++ pad hh ++ ":" ++ pad mm ++ ":" ++ pad ss
           end
       end.

(* ------------------------------------------------------------------ *)
(** *** Normalisation of one order *)

(** [node.k1 || node.k2 || ... || node.kn] *)
Fixpoint alias (node : JSValue) (keys : list string) : completion JSValue :=
  match keys with
  | [] => Normal JUndefined
  | [k] => get node k
  | k :: ks => v <- get node k ;; if truthy v then Normal v else alias node ks
  end.

(** [node.k1 || ... || node.kn || ''] *)
Definition alias_or_empty (node : JSValue) (keys : list string) : completion JSValue :=
  v <- alias node keys ;; Normal (js_or v (JStr "")).

(** [landing.f || referring.f || note.f || ''] *)
Definition pick (landing referring note : Obj) (f : string) : JSValue :=
  js_or (js_or (js_or (obj_get landing f) (obj_get referring f)) (obj_get note f)) (JStr "").

(** The object literal [utm] of [mapOrderToRow] and [mapOrderNodeToRow]. *)
Definition utm_merge (landing referring note : Obj) : Obj :=
  obj_literal
    [("utm_source", pick landing referring note "utm_source");
     ("utm_medium", pick landing referring note "utm_medium");
     ("utm_campaign", pick landing referring note "utm_campaign");
     ("utm_term", pick landing referring note "utm_term");
     ("utm_content", pick landing referring note "utm_content")].

(** [mapOrderToRow] ([Rev1], src/server.js 88-105) *)
Definition mapOrderToRow (o : JSValue) : completion JSValue :=
  landing_site <- get o "landing_site" ;;
  landingUtm <- extractUtmFromUrl landing_site ;;
  referring_site <- get o "referring_site" ;;
  referringUtm <- extractUtmFromUrl referring_site ;;
  attrs <- alias o ["note_attributes"; "attributes"] ;;
  noteUtm <- extractUtmFromAttributes Rev1 attrs ;;
  let utm := utm_merge landingUtm referringUtm noteUtm in
  id <- get o "id" ;;
  order_number <- alias_or_empty o ["order_number"; "name"] ;;
  created_at <- get o "created_at" ;;
  Normal (JObj (obj_assign
                  (obj_literal [("id", id); ("order_number", order_number);
                                ("created_at", created_at)])
                  utm)).

(** [mapOrderNodeToRow] ([Rev2]: src/server.js 342-362; [Rev3]:
    src/README.md 153-176; [Rev4]: src/README.md 562-581).  [Rev3] does
    not read [landingSiteUrl], prefers [name] for the order number and
    keeps the raw timestamp beside the formatted one. *)
Definition mapOrderNodeToRow (rev : Revision) (node : JSValue) : completion JSValue :=
  landing <- alias_or_empty node
               (match rev with
                | Rev3 => ["landingSite"; "landing_site"]
                | _ => ["landingSite"; "landing_site"; "landingSiteUrl"]
                end) ;;
  referring <- alias_or_empty node ["referringSite"; "referring_site"] ;;
  landingU <- extractUtmFromUrl landing ;;
  referringU <- extractUtmFromUrl referring ;;
  attrs <- alias node ["noteAttributes"; "note_attributes"; "attributes"; "attrs"] ;;
  noteU <- extractUtmFromAttributes rev attrs ;;
  let utm := utm_merge landingU referringU noteU in
  id <- alias_or_empty node ["id"] ;;
  match rev with
  | Rev3 =>
      name <- alias_or_empty node ["name"; "order_number"; "orderNumber"] ;;
      let rawName := toString name in
      createdAtRaw <- alias_or_empty node ["createdAt"; "created_at"] ;;
      Normal (JObj (obj_assign
                      (obj_literal [("id", id); ("order_number", JStr rawName);
                                    ("created_at", JStr (formatDateToIST createdAtRaw));
                                    ("created_at_raw", createdAtRaw)])
                      utm))
  | _ =>
      order_number <- alias_or_empty node ["order_number"; "orderNumber"; "name"] ;;
      created_at <- alias_or_empty node ["createdAt"; "created_at"] ;;
      Normal (JObj (obj_assign
                      (obj_literal [("id", id); ("order_number", order_number);
                                    ("created_at", created_at)])
                      utm))
  end.

(** The row built for the order [o] of a REST page.  [Rev1] maps the
    fetched orders with [mapOrderToRow] (src/server.js 124).  The later
    revisions build the row in the loop of [fetchAllOrdersREST] ([Rev2]:
    src/server.js 476-481; [Rev3]: src/README.md 194-202; [Rev4]:
    src/README.md 597-602), its attribution fields being
    [...Object.assign({}, extractUtmFromUrl(o.landing_site),
                          extractUtmFromAttributes(o.note_attributes || o.attributes))]. *)
Definition rest_row (rev : Revision) (o : JSValue) : completion JSValue :=
  match rev with
  | Rev1 => mapOrderToRow o
  | Rev3 =>
      name <- alias_or_empty o ["name"; "order_number"] ;;
      let rawName := toString name in
      createdAtRaw <- alias_or_empty o ["created_at"] ;;
      id <- get o "id" ;;
      landing_site <- get o "landing_site" ;;
      landingU <- extractUtmFromUrl landing_site ;;
      attrs <- alias o ["note_attributes"; "attributes"] ;;
      noteU <- extractUtmFromAttributes rev attrs ;;
      Normal (JObj (obj_assign
                      (obj_literal [("id", id); ("order_number", JStr rawName);
                                    ("created_at", JStr (formatDateToIST createdAtRaw));
                                    ("created_at_raw", createdAtRaw)])
                      (obj_assign (obj_assign [] landingU) noteU)))
  | _ =>
      id <- get o "id" ;;
      order_number <- alias_or_empty o ["order_number"; "name"] ;;
      created_at <- get o "created_at" ;;
      landing_site <- get o "landing_site" ;;
      landingU <- extractUtmFromUrl landing_site ;;
      attrs <- alias o ["note_attributes"; "attributes"] ;;
      noteU <- extractUtmFromAttributes rev attrs ;;
      Normal (JObj (obj_assign
                      (obj_literal [("id", id); ("order_number", order_number);
                                    ("created_at", created_at)])
                      (obj_assign (obj_assign [] landingU) noteU)))
  end.

(* ------------------------------------------------------------------ *)
(** *** The upstream service *)

(** [fetch(url)]: the response of the upstream to a GET of [url];
    [None] when the request itself fails. *)
Variable fetch : string -> option Response.

(** [JSON.parse]; [None] when it throws. *)
Variable JSON_parse : string -> option JSValue.

(** The text [rel=], then [next] between double quotes. *)
Definition rel_next : string := "rel=" ++ String dquote ("next" ++ String dquote EmptyString).

(** The longest prefix without [>], and what follows it. *)
Fixpoint span_not_gt (s : string) : string * string :=
  match s with
  | EmptyString => (EmptyString, EmptyString)
  | String c s' =>
      if Ascii.eqb c ">" then (EmptyString, s)
      else let '(run, rest) := span_not_gt s' in (String c run, rest)
  end.

(** The pattern [<([^>]+)>; ] followed by [rel_next], tried at the
    start of [s]. *)
Definition match_here (s : string) : option string :=
  match s with
  | String c s' =>
      if Ascii.eqb c "<" then
        let '(run, rest) := span_not_gt s' in
        if negb (run =? "") && startsWith rest (">; " ++ rel_next) then Some run else None
      else None
  | EmptyString => None
  end.

(** [link.match(...)] with that pattern: the group of the leftmost match. *)
Fixpoint link_match (s : string) : option string :=
  match match_here s with
  | Some url => Some url
  | None => match s with
            | EmptyString => None
            | String _ s' => link_match s'
            end
  end.

(** The value of [url] after the statement
    [if (link && link.includes(rel_next)) ... else url = null];
    [None] is [null]. *)
Definition next_url (link : option string) : option string :=
  match link with
  | Some l => if negb (l =? "") && includes l rel_next then link_match l else None
  | None => None
  end.

Definition hex_digit (n : nat) : ascii :=
  if (n <? 10)%nat then ascii_of_nat (48 + n) else ascii_of_nat (55 + n).

Definition uri_unreserved (c : ascii) : bool :=
  let n := nat_of_ascii c in
  ((65 <=? n) && (n <=? 90) || (97 <=? n) && (n <=? 122) || (48 <=? n) && (n <=? 57))%nat
  || existsb (Ascii.eqb c) (list_ascii_of_string "-_.!~*'()").

(** [encodeURIComponent] on the bytes of the string *)
Fixpoint encodeURIComponent (s : string) : string :=
  match s with
  | EmptyString => EmptyString
  | String c s' =>
      if uri_unreserved c then String c (encodeURIComponent s')
      else let n := nat_of_ascii c in
           String "%" (String (hex_digit (n / 16)) (String (hex_digit (n mod 16))
                                                      (encodeURIComponent s')))
  end.

(** [mapped.length >= maxResults] *)
Definition cap_reached (mapped : list JSValue) (maxResults : Number) : bool :=
  match maxResults with
  | Some m => (m <=? Z.of_nat (List.length mapped))%Z
  | None => false
  end.

(** The loop [for (const o of data.orders)] of [fetchAllOrdersREST]:
    push the row, then [if (mapped.length >= maxResults) break]. *)
Fixpoint push_orders (rev : Revision) (maxResults : Number)
    (orders mapped : list JSValue) : completion (list JSValue) :=
  match orders with
  | [] => Normal mapped
  | o :: rest =>
      row <- rest_row rev o ;;
      let mapped' := (mapped ++ [row])%list in
      if cap_reached mapped' maxResults then Normal mapped'
      else push_orders rev maxResults rest mapped'
  end.

(** [if (data && data.orders) { for ... }] *)
Definition page_orders (rev : Revision) (maxResults : Number)
    (data : JSValue) (mapped : list JSValue) : completion (list JSValue) :=
  if truthy data then
    orders <- get data "orders" ;;
    if truthy orders then
      l <- iterate orders ;; push_orders rev maxResults l mapped
    else Normal mapped
  else Normal mapped.

Definition orders_url (shop created_at_min created_at_max : string) : string :=
  "https://" ++ shop ++ "/admin/api/2025-07/orders.json?status=any&limit=250&created_at_min="
    ++ encodeURIComponent created_at_min ++ "&created_at_max="
    ++ encodeURIComponent created_at_max.

(** The result of an operation that talks to the upstream: the URLs it
    requested, in order, and how it completed. *)
Definition Run (A : Type) : Type := list string * completion A.

(** The loop [while (url) { ... }] of [fetchAllOrdersREST]; each turn
    uses one unit of [fuel], and [None] means that the fuel ran out. *)
Fixpoint rest_loop (rev : Revision) (maxResults : Number) (fuel : nat)
    (url : string) (mapped : list JSValue) (log : list string)
  : option (Run (list JSValue)) :=
  match fuel with
  | O => None
  | S fuel' =>
      let log' := (log ++ [url])%list in
      match fetch url with
      | None => Some (log', Throw NetworkError)
      | Some resp =>
          if negb (ok resp) then
            Some (log', Throw (Error ("Shopify API error: " ++ string_of_Z (status resp)
                                        ++ " - " ++ body resp)))
          else
            match JSON_parse (body resp) with
            | None => Some (log', Throw SyntaxError)
            | Some data =>
                match page_orders rev maxResults data mapped with
                | Throw e => Some (log', Throw e)
                | Normal mapped' =>
                    if cap_reached mapped' maxResults then Some (log', Normal mapped')
                    else match next_url (link resp) with
                         | None => Some (log', Normal mapped')
                         | Some u => rest_loop rev maxResults fuel' u mapped' log'
                         end
                end
            end
      end
  end.

(** [fetchAllOrdersREST(created_at_min, created_at_max, maxResults)]
    ([Rev2]: src/server.js 463-495; [Rev3]: src/README.md 181-216;
    [Rev4]: src/README.md 584-616).  [maxResults] is the number the
    callers pass.  [Rev1] has [fetchAllOrders] (src/server.js 63-86)
    instead, which has no cap and whose orders are mapped once all the
    pages are read: for [Rev1] the definition describes it only when
    [maxResults] is [None]. *)
Definition fetchAllOrdersREST (rev : Revision) (fuel : nat)
    (created_at_min created_at_max : string) (maxResults : Number)
  : option (Run (list JSValue)) :=
  if env_missing SHOP || env_missing TOKEN then
    Some ([], Throw (Error "Missing SHOP or TOKEN env vars"))
  else
    rest_loop rev maxResults fuel
      (orders_url (env_or SHOP "") created_at_min created_at_max) [] [].

Definition count_url (shop created_at_min created_at_max : string) : string :=
  "https://" ++ shop ++ "/admin/api/2025-07/orders/count.json?status=any&created_at_min="
    ++ encodeURIComponent created_at_min ++ "&created_at_max="
    ++ encodeURIComponent created_at_max.

(** [fetchOrdersCount(created_at_min, created_at_max)] ([Rev3]:
    src/README.md 219-229; [Rev4]: src/README.md 619-629) *)
Definition fetchOrdersCount (created_at_min created_at_max : string) : Run JSValue :=
  if env_missing SHOP || env_missing TOKEN then
    ([], Throw (Error "Missing SHOP or TOKEN env vars"))
  else
    let countUrl := count_url (env_or SHOP "") created_at_min created_at_max in
    match fetch countUrl with
    | None => ([countUrl], Throw NetworkError)
    | Some r =>
        if negb (ok r) then
          ([countUrl], Throw (Error ("Shopify count error: " ++ string_of_Z (status r)
                                       ++ " - " ++ body r)))
        else
          match JSON_parse (body r) with
          | None => ([countUrl], Throw SyntaxError)
          | Some j => ([countUrl], count <- get j "count" ;; Normal (js_or count (JNum 0)))
          end
    end.

(* ------------------------------------------------------------------ *)
(** *** CSV rendering *)

(** [v.replace(/Q/g, 'QQ')], where Q is the double quote character *)
Fixpoint double_quotes (v : string) : string :=
  match v with
  | EmptyString => EmptyString
  | String c v' =>
      if Ascii.eqb c dquote then String dquote (String dquote (double_quotes v'))
      else String c (double_quotes v')
  end.

(** [r[k] === null || r[k] === undefined ? '' : String(r[k])] *)
Definition cell_text (x : JSValue) : string :=
  match x with
  | JNull | JUndefined => ""
  | _ => toString x
  end.

(** The cell: a double quote, [v] with its double quotes doubled, a
    double quote. *)
Definition csv_cell (x : JSValue) : string :=
  String dquote (double_quotes (cell_text x) ++ String dquote EmptyString).

Definition columns : list string :=
  ["order_number"; "created_at"; "utm_source"; "utm_medium"; "utm_campaign";
   "utm_term"; "utm_content"].

(** [r[k]] on a row; the rows are objects that the code built. *)
Definition row_get (r : JSValue) (k : string) : JSValue :=
  match r with
  | JObj o => obj_get o k
  | _ => JUndefined
  end.

(** [columns.map(k => ...).join(',')] *)
Definition csv_line (r : JSValue) : string :=
  String.concat "," (map (fun k => csv_cell (row_get r k)) columns).

(** What ends each written line.  [Rev2] (src/server.js 408, 444) writes
    ['\\n'], a backslash and the letter n; [Rev3] and [Rev4]
    (src/README.md 332, 356, 736, 760) write ['\n'], a line feed. *)
Definition eol (rev : Revision) : string :=
  match rev with
  | Rev2 => String backslash "n"
  | _ => String newline EmptyString
  end.

(* ------------------------------------------------------------------ *)
(** *** The bulk download ([Rev2]: src/server.js 405-449; [Rev3]:
        src/README.md 331-362; [Rev4]: src/README.md 735-766) *)

(** [preview && count >= preview] *)
Definition preview_reached (preview : Number) (count : nat) : bool :=
  match preview with
  | Some p => negb (p =? 0)%Z && (p <=? Z.of_nat count)%Z
  | None => false
  end.

(** [parsed && parsed.orders && parsed.orders.edges] *)
Definition wrapped_edges (parsed : JSValue) : completion JSValue :=
  if truthy parsed then
    orders <- get parsed "orders" ;;
    if truthy orders then get orders "edges" else Normal orders
  else Normal parsed.

(** [for (const edge of parsed.orders.edges)
       if (edge && edge.node) rows.push(mapOrderNodeToRow(edge.node))] *)
Fixpoint edges_rows (rev : Revision) (edges : list JSValue) : completion (list JSValue) :=
  match edges with
  | [] => Normal []
  | edge :: rest =>
      r <- (if truthy edge then
              node <- get edge "node" ;;
              if truthy node then row <- mapOrderNodeToRow rev node ;; Normal [row]
              else Normal []
            else Normal []) ;;
      rs <- edges_rows rev rest ;;
      Normal (r ++ rs)%list
  end.

(** The array [rows] built from one parsed line. *)
Definition line_rows (rev : Revision) (parsed : JSValue) : completion (list JSValue) :=
  edges <- wrapped_edges parsed ;;
  if truthy edges then
    l <- iterate edges ;; edges_rows rev l
  else
    node <- (if truthy parsed then get parsed "node" else Normal parsed) ;;
    if truthy node then row <- mapOrderNodeToRow rev node ;; Normal [row]
    else row <- mapOrderNodeToRow rev parsed ;; Normal [row].

(** The state of the response while the file is read: the chunks written
    so far, and [count]. *)
Definition Written : Type := list string * nat.

(** [for (const r of rows) { res.write(...); count++;
                             if (preview && count >= preview) break; }] *)
Fixpoint write_rows (rev : Revision) (preview : Number) (rows : list JSValue)
    (w : Written) : Written :=
  match rows with
  | [] => w
  | r :: rest =>
      let chunk := csv_line r ++ eol rev in
      let w' := ((fst w ++ [chunk])%list, S (snd w)) in
      if preview_reached preview (snd w') then w'
      else write_rows rev preview rest w'
  end.

(** How the handler ends: the chunks written to the response, the number
    of lines that were taken from the file, and whether the loop ended
    or an exception left it. *)
Record Download : Type := {
  written : list string;
  consumed : nat;
  outcome : completion unit
}.

(** [for await (const line of rl) { ... }] *)
Fixpoint download_loop (rev : Revision) (preview : Number) (lines : list string)
    (w : Written) (taken : nat) : Download :=
  match lines with
  | [] => {| written := fst w; consumed := taken; outcome := Normal tt |}
  | line :: rest =>
      let taken' := S taken in
      if (line =? "") || blank line then download_loop rev preview rest w taken'
      else
        match JSON_parse line with
        | None => download_loop rev preview rest w taken'
        | Some parsed =>
            match line_rows rev parsed with
            | Throw e => {| written := fst w; consumed := taken'; outcome := Throw e |}
            | Normal rows =>
                let w' := write_rows rev preview rows w in
                if preview_reached preview (snd w')
                then {| written := fst w'; consumed := taken'; outcome := Normal tt |}
                else download_loop rev preview rest w' taken'
            end
        end
  end.

(** The part of the handler of [/api/bulk/download] that follows the
    download of the file: the header, then the lines of the file.
    [preview] is [parseInt(req.query.preview, 10)], or 0 without the
    parameter; [lines] are the lines of the decompressed file. *)
Definition bulk_download (rev : Revision) (preview : Number) (lines : list string) : Download :=
  download_loop rev preview lines ([String.concat "," columns ++ eol rev], O) O.

(* ------------------------------------------------------------------ *)
(** *** [/api/orders]: sorting and paging *)

(** The operand of [new Date(...)] in the comparator.  [Rev3]
    (src/README.md 389): [r.created_at_raw || r.created_at]; the other
    revisions (src/server.js 126, 505; src/README.md 795): [r.created_at]. *)
Definition sort_key (rev : Revision) (r : JSValue) : JSValue :=
  match rev with
  | Rev3 => js_or (row_get r "created_at_raw") (row_get r "created_at")
  | _ => row_get r "created_at"
  end.

(** [(a, b) => new Date(key b) - new Date(key a)]; [None] is [NaN]. *)
Definition compare_rows (rev : Revision) (a b : JSValue) : Number :=
  match new_Date (sort_key rev b), new_Date (sort_key rev a) with
  | Some tb, Some ta => Some (tb - ta)%Z
  | _, _ => None
  end.

(** [Array.prototype.sort(comparefn)].  The language asks for a stable
    sort in which a comparator result [NaN] counts as 0; this is the
    array it prescribes whenever the comparator is consistent. *)
Fixpoint sort_insert {A} (cmp : A -> A -> Number) (x : A) (l : list A) : list A :=
  match l with
  | [] => [x]
  | y :: l' =>
      if (match cmp x y with Some d => d | None => 0 end <=? 0)%Z
      then x :: l
      else y :: sort_insert cmp x l'
  end.

Definition js_sort {A} (cmp : A -> A -> Number) (l : list A) : list A :=
  fold_right (sort_insert cmp) [] l.

(** [l.slice(start, end)] for numbers that are not negative; [NaN]
    counts as 0. *)
Definition slice {A} (l : list A) (start stop : Number) : list A :=
  let s := match start with Some z => Z.to_nat z | None => O end in
  let e := match stop with Some z => Z.to_nat z | None => O end in
  firstn (e - s) (skipn s l).

Definition num_max (a : Z) (b : Number) : Number := option_map (Z.max a) b.
Definition num_min (a : Z) (b : Number) : Number := option_map (Z.min a) b.

(** The rows that [/api/orders] returns for the fetched rows [all]:
    [all.sort(...)], then the page.  [page] and [pageSize] are the
    results of [parseInt]. *)
Definition api_orders (rev : Revision) (all : list JSValue) (page pageSize : Number)
  : list JSValue :=
  let sorted := js_sort (compare_rows rev) all in
  let p := num_max 1 page in
  let ps := num_max 1 (num_min 1000 pageSize) in
  let startIdx := match p, ps with
                  | Some p, Some ps => Some ((p - 1) * ps)%Z
                  | _, _ => None
                  end in
  let stop := match startIdx, ps with
              | Some s, Some ps => Some (s + ps)%Z
              | _, _ => None
              end in
  slice sorted startIdx stop.

(* ------------------------------------------------------------------ *)
(** *** Numbers and dates read from the request *)

(** The value of the longest prefix of decimal digits, after [acc];
    [None] when there is no digit at all. *)
Fixpoint digit_run (s : string) (acc : option Z) : option Z :=
  match s with
  | EmptyString => acc
  | String c s' =>
      match digit_value c with
      | Some d => digit_run s' (Some (10 * match acc with Some a => a | None => 0 end + d)%Z)
      | None => acc
      end
  end.

(** [parseInt(v, 10)]: the text of [v] without its leading white space,
    an optional sign, then digits; [None], that is [NaN], when no digit
    follows.  The number is exact, as it is in JavaScript below 2^53. *)
Definition parseInt (v : JSValue) : Number :=
  match trimStart (toString v) with
  | String "-" s => option_map Z.opp (digit_run s None)
  | String "+" s => digit_run s None
  | s => digit_run s None
  end.

(** A number in a JSON reply, where [NaN] is written [null]. *)
Definition num (n : Number) : JSValue :=
  match n with
  | Some z => JNum z
  | None => JNull
  end.

(** [d.toISOString()] for the valid time value [t] *)
Definition toISOString (t : Z) : string :=
  let '(y, m, d) := civil_from_days (t / 86400000) in
  let ms := (t mod 86400000)%Z in
  (if ((0 <=? y) && (y <=? 9999))%Z then padStart 4 (string_of_Z y)
   else (if (y <? 0)%Z then "-" else "+") ++ padStart 6 (string_of_Z (Z.abs y)))
    ++ "-" ++ pad m ++ "-" ++ pad d ++ "T" ++ pad (ms / 3600000) ++ ":"
    ++ pad ((ms / 60000) mod 60) ++ ":" ++ pad ((ms / 1000) mod 60) ++ "."
    ++ padStart 3 (string_of_Z (ms mod 1000)) ++ "Z".

(** [new Date(text).toISOString()], which raises a [RangeError] on an
    invalid date; the handlers read only the message of what they catch. *)
Definition iso_date (text : string) : completion string :=
  match new_Date (JStr text) with
  | Some t => Normal (toISOString t)
  | None => Throw (Error "Invalid time value")
  end.

(** [new Date(start + 'T00:00:00Z').toISOString()] and
    [new Date(end + 'T23:59:59Z').toISOString()] *)
Definition date_range (start end_ : JSValue) : completion (string * string) :=
  created_at_min <- iso_date (toString start ++ "T00:00:00Z") ;;
  created_at_max <- iso_date (toString end_ ++ "T23:59:59Z") ;;
  Normal (created_at_min, created_at_max).

(* ------------------------------------------------------------------ *)
(** *** Requests and replies *)

(** What the handlers read of a request: [req.get('x-api-key')] ([None]
    when the header is absent), [req.query] and [req.body]. *)
Record Request : Type := {
  req_x_api_key : option string;
  req_query : Obj;
  req_body : JSValue
}.

(** The kinds of the platform functions that take part in the handlers. *)
Definition Poster : Type := string -> string -> option Response.
Definition Stringifier : Type := JSValue -> string.
Definition LineReader : Type := string -> list string.

(** How a handler answers: [res.status(code).json(payload)] (the code is
    200 for [res.json(payload)]); the reply of the [catch] block,
    [res.status(500).json({ error: err.message })]; the chunks written
    before [res.end()], or before an exception left the loop;
    [res.redirect(code, location)]. *)
Inductive Reply : Type :=
| Json (code : Z) (payload : JSValue)
| Failure (e : Exn)
| Csv (chunks : list string) (ended : completion unit)
| Redirect (code : Z) (location : string).

(** What a handler did: the URLs it requested upstream, in order, and
    its reply. *)
Definition Served : Type := list string * Reply.

(** An environment variable in an expression: [undefined] when unset. *)
Definition env_value (e : option string) : JSValue :=
  match e with
  | Some s => JStr s
  | None => JUndefined
  end.

(** An environment variable in a template literal *)
Definition env_text (e : option string) : string := toString (env_value e).

(** [const { k = d } = req.query]: the default replaces [undefined] only *)
Definition query_or (q : Obj) (k d : string) : JSValue :=
  match obj_get q k with
  | JUndefined => JStr d
  | v => v
  end.

(** [v.k] where [v] is known to be neither [null] nor [undefined] *)
Definition prop (v : JSValue) (k : string) : JSValue :=
  match v with
  | JObj o => obj_get o k
  | _ => JUndefined
  end.

(** [v.length] for such a [v] *)
Definition get_length (v : JSValue) : JSValue :=
  match v with
  | JArr l => JNum (Z.of_nat (List.length l))
  | JStr s => JNum (Z.of_nat (String.length s))
  | JObj o => obj_get o "length"
  | _ => JUndefined
  end.

(** [a && a.k] *)
Definition and_prop (a : JSValue) (k : string) : JSValue :=
  if truthy a then prop a k else a.

(** [v !== s] for a string [s] *)
Definition differs (v : JSValue) (s : string) : bool :=
  match v with
  | JStr x => negb (x =? s)
  | _ => true
  end.

(** [{ error: message }] *)
Definition error_payload (message : string) : JSValue := JObj [("error", JStr message)].

(* ------------------------------------------------------------------ *)
(** *** [requireApiKey] ([Rev1]: src/server.js 108-114; [Rev2]:
        src/server.js 189-195; [Rev3]: src/README.md 63-73; [Rev4]:
        src/README.md 480-486) *)

(** [process.env.API_KEY] and [process.env.ENFORCE_API_KEY] *)
Variable API_KEY_env : option string.
Variable ENFORCE_API_KEY : option string.

(** [process.env.API_KEY || 'dev_key'] *)
Definition API_KEY : string := env_or API_KEY_env "dev_key".

(** [String(process.env.ENFORCE_API_KEY || '').trim() === '1'] ([Rev3]) *)
Definition ENFORCE : bool := (trim (env_or ENFORCE_API_KEY "") =? "1").

(** [req.get('x-api-key') || req.query.api_key || ''] *)
Definition presented_key (req : Request) : JSValue :=
  js_or (js_or (env_value (req_x_api_key req)) (obj_get (req_query req) "api_key"))
        (JStr "").

(** [true] when the middleware calls [next()], [false] when it replies
    with the status 401.  [Rev3] lets every request through unless
    [ENFORCE] is set. *)
Definition requireApiKey (rev : Revision) (req : Request) : bool :=
  let key := presented_key req in
  let allowed := negb ((API_KEY =? "") || differs key API_KEY) in
  match rev with
  | Rev3 => if negb ENFORCE then true else allowed
  | _ => allowed
  end.

(* ------------------------------------------------------------------ *)
(** *** [fetchAllOrders] ([Rev1]: src/server.js 63-86) *)

(** [if (data && data.orders) orders.push(...data.orders)] *)
Definition push_page (data : JSValue) (orders : list JSValue) : completion (list JSValue) :=
  if truthy data then
    page <- get data "orders" ;;
    if truthy page then l <- iterate page ;; Normal (orders ++ l)%list
    else Normal orders
  else Normal orders.

(** The loop [while (url) { ... }] of [fetchAllOrders]; [None] means
    that the fuel ran out. *)
Fixpoint orders_loop (fuel : nat) (url : string) (orders : list JSValue) (log : list string)
  : option (Run (list JSValue)) :=
  match fuel with
  | O => None
  | S fuel' =>
      let log' := (log ++ [url])%list in
      match fetch url with
      | None => Some (log', Throw NetworkError)
      | Some res =>
          if negb (ok res) then
            Some (log', Throw (Error ("Shopify API error: " ++ string_of_Z (status res)
                                        ++ " - " ++ body res)))
          else
            match JSON_parse (body res) with
            | None => Some (log', Throw SyntaxError)
            | Some data =>
                match push_page data orders with
                | Throw e => Some (log', Throw e)
                | Normal orders' =>
                    match next_url (link res) with
                    | None => Some (log', Normal orders')
                    | Some u => orders_loop fuel' u orders' log'
                    end
                end
            end
      end
  end.

Definition fetchAllOrders (fuel : nat) (created_at_min created_at_max : string)
  : option (Run (list JSValue)) :=
  if env_missing SHOP || env_missing TOKEN then
    Some ([], Throw (Error "Missing SHOP or TOKEN env vars"))
  else
    orders_loop fuel (orders_url (env_or SHOP "") created_at_min created_at_max) [] [].

(** [rawOrders.map(mapOrderToRow)] *)
Fixpoint map_orders (rawOrders : list JSValue) : completion (list JSValue) :=
  match rawOrders with
  | [] => Normal []
  | o :: rest => row <- mapOrderToRow o ;; rows <- map_orders rest ;; Normal (row :: rows)
  end.

(* ------------------------------------------------------------------ *)
(** *** [shopifyGraphQL] ([Rev2]: src/server.js 204-217; [Rev3]:
        src/README.md 78-92; [Rev4]: src/README.md 506-520) *)

(** The answer of the upstream to the POST, to the URL given first, of
    the JSON text of [{ query, variables: {} }] for the query given
    second; [None] when the request itself fails. *)
Variable fetch_post : Poster.

(** [JSON.stringify] *)
Variable JSON_stringify : Stringifier.

Definition graphql_url : string :=
  "https://" ++ env_text SHOP ++ "/admin/api/2025-07/graphql.json".

(** The response status is not read: only the body decides. *)
Definition shopifyGraphQL (rev : Revision) (query : string) : Run JSValue :=
  if match rev with
     | Rev3 | Rev4 => env_missing SHOP || env_missing TOKEN
     | _ => false
     end
  then ([], Throw (Error "Missing SHOP or TOKEN env vars"))
  else
    match fetch_post graphql_url query with
    | None => ([graphql_url], Throw NetworkError)
    | Some res =>
        match JSON_parse (body res) with
        | None => ([graphql_url], Throw SyntaxError)
        | Some json =>
            ([graphql_url],
             errors <- get json "errors" ;;
             if truthy errors then Throw (Error (JSON_stringify errors)) else Normal json)
        end
    end.

(** The query of [/api/bulk/status], [/api/bulk/download] and
    [/api/export.csv] *)
Definition status_query : string :=
  "{ currentBulkOperation { id status errorCode url objectCount } }".

(** [(await shopifyGraphQL(q)).data.currentBulkOperation] *)
Definition currentBulkOperation (rev : Revision) : Run JSValue :=
  let '(log, c) := shopifyGraphQL rev status_query in
  (log, j <- c ;; data <- get j "data" ;; get data "currentBulkOperation").

(* ------------------------------------------------------------------ *)
(** *** [/api/bulk/start] ([Rev2]: src/server.js 227-280; [Rev3]:
        src/README.md 240-291; [Rev4]: src/README.md 639-690) *)

Definition triple_quote : string := String dquote (String dquote (String dquote EmptyString)).

(** The template literal [bulkQuery], line by line *)
Definition bulkQuery (startISO endISO : string) : string :=
  String.concat (String newline EmptyString)
    ["";
     "      mutation {";
     "        bulkOperationRunQuery(";
     ("          query: " ++ triple_quote);
     "          {";
     ("            orders(query: " ++ String dquote ("created_at:>=" ++ startISO ++ " created_at:<=" ++ endISO
        ++ String dquote ", first: 250) {"));
     "              edges {";
     "                node {";
     "                  id";
     "                  name";
     "                  orderNumber: name";
     "                  order_number: name";
     "                  createdAt";
     "                  landingSite";
     "                  referringSite";
     "                  noteAttributes { name value }";
     "                  attributes { name value }";
     "                }";
     "              }";
     "            }";
     "          }";
     ("          " ++ triple_quote);
     "        ) {";
     "          bulkOperation {";
     "            id";
     "            status";
     "          }";
     "          userErrors { field message }";
     "        }";
     "      }";
     "    "].

(** [(req.body && req.body.k) || req.query.k] *)
Definition posted_or_query (req : Request) (k : string) : JSValue :=
  js_or (and_prop (req_body req) k) (obj_get (req_query req) k).

Definition bulk_start (rev : Revision) (req : Request) : Served :=
  let start := posted_or_query req "start" in
  let end_ := posted_or_query req "end" in
  if negb (truthy start) || negb (truthy end_) then
    ([], Json 400 (error_payload "start and end required (YYYY-MM-DD)"))
  else
    match date_range start end_ with
    | Throw e => ([], Failure e)
    | Normal (startISO, endISO) =>
        let '(log, c) := shopifyGraphQL rev (bulkQuery startISO endISO) in
        match c with
        | Throw e => (log, Failure e)
        | Normal j =>
            let run := and_prop (prop j "data") "bulkOperationRunQuery" in
            let userErrors := and_prop run "userErrors" in
            if truthy (if truthy userErrors then get_length userErrors else userErrors) then
              (log, Json 500 (JObj [("error", userErrors)]))
            else
              match (data <- get j "data" ;;
                     run <- get data "bulkOperationRunQuery" ;;
                     op <- get run "bulkOperation" ;;
                     id <- get op "id" ;;
                     status <- get op "status" ;;
                     Normal (JObj (obj_literal [("started", JBool true); ("id", id);
                                               ("status", status)]))) with
              | Throw e => (log, Failure e)
              | Normal payload => (log, Json 200 payload)
              end
        end
    end.

(* ------------------------------------------------------------------ *)
(** *** [/api/bulk/status] ([Rev2]: src/server.js 287-297; [Rev3]:
        src/README.md 294-304; [Rev4]: src/README.md 695-705) *)

Definition bulk_status (rev : Revision) : Served :=
  let '(log, c) := currentBulkOperation rev in
  match c with
  | Throw e => (log, Failure e)
  | Normal op => (log, Json 200 (js_or op (JObj [("status", JStr "NONE")])))
  end.

(* ------------------------------------------------------------------ *)
(** *** [/api/bulk/download], the whole handler ([Rev2]: src/server.js
        371-457; [Rev3]: src/README.md 307-367; [Rev4]: src/README.md
        710-771) *)

(** The lines that [readline] reads from the body of the downloaded
    file once [zlib] has decompressed it.  The model covers the bodies
    that decompress. *)
Variable gunzip_lines : LineReader.

Definition bulk_download_handler (rev : Revision) (req : Request) : Served :=
  let given := obj_get (req_query req) "preview" in
  let preview := if truthy given then parseInt given else Some 0%Z in
  let '(log, c) := currentBulkOperation rev in
  match c with
  | Throw e => (log, Failure e)
  | Normal op =>
      if negb (truthy op) || negb (truthy (prop op "status")) then
        (log, Json 404 (error_payload "No bulk operation found. Start one first."))
      else if differs (prop op "status") "COMPLETED" then
        (log, Json 400 (error_payload ("Bulk operation not ready. Status: "
                                         ++ toString (prop op "status"))))
      else
        let url := prop op "url" in
        if negb (truthy url) then
          (log, Json 500 (error_payload "Bulk operation completed but no URL returned."))
        else
          let log' := (log ++ [toString url])%list in
          match fetch (toString url) with
          | None => (log', Failure NetworkError)
          | Some fetchRes =>
              if negb (ok fetchRes) then
                (log', Failure (Error ("Failed to download bulk file: "
                                         ++ string_of_Z (status fetchRes))))
              else
                let d := bulk_download rev preview (gunzip_lines (body fetchRes)) in
                (log', Csv (written d) (outcome d))
          end
  end.

(* ------------------------------------------------------------------ *)
(** *** [/api/orders], the whole handler ([Rev1]: src/server.js
        117-136; [Rev2]: src/server.js 497-515; [Rev3]: src/README.md
        370-406; [Rev4]: src/README.md 776-812) *)

(** [process.env.MAX_RESULTS] *)
Variable MAX_RESULTS : option string.

(** The rows that the handler sorts: in [Rev1] the orders of
    [fetchAllOrders] mapped by [mapOrderToRow]; later the rows of
    [fetchAllOrdersREST] under the cap
    [parseInt(max || process.env.MAX_RESULTS || '2000', 10)]. *)
Definition fetched_rows (rev : Revision) (fuel : nat) (q : Obj)
    (created_at_min created_at_max : string) : option (Run (list JSValue)) :=
  match rev with
  | Rev1 =>
      match fetchAllOrders fuel created_at_min created_at_max with
      | None => None
      | Some (log, Throw e) => Some (log, Throw e)
      | Some (log, Normal rawOrders) => Some (log, map_orders rawOrders)
      end
  | _ =>
      fetchAllOrdersREST rev fuel created_at_min created_at_max
        (parseInt (js_or (js_or (obj_get q "max") (env_value MAX_RESULTS)) (JStr "2000")))
  end.

(** [shopifyTotal]: the count, or [null] when [fetchOrdersCount] raises *)
Definition shopify_total (created_at_min created_at_max : string) : list string * JSValue :=
  let '(log, c) := fetchOrdersCount created_at_min created_at_max in
  (log, match c with
        | Normal n => n
        | Throw _ => JNull
        end).

Definition api_orders_handler (rev : Revision) (fuel : nat) (req : Request)
  : option (Served) :=
  let q := req_query req in
  let start := obj_get q "start" in
  let end_ := obj_get q "end" in
  let page := parseInt (query_or q "page" "1") in
  let pageSize := parseInt (query_or q "pageSize" "100") in
  if negb (truthy start) || negb (truthy end_) then
    Some ([], Json 400 (error_payload "start and end required (YYYY-MM-DD)"))
  else
    match date_range start end_ with
    | Throw e => Some ([], Failure e)
    | Normal (created_at_min, created_at_max) =>
        match fetched_rows rev fuel q created_at_min created_at_max with
        | None => None
        | Some (log, Throw e) => Some (log, Failure e)
        | Some (log, Normal all) =>
            let p := num_max 1 page in
            let ps := num_max 1 (num_min 1000 pageSize) in
            let pageRows := api_orders rev all page pageSize in
            match rev with
            | Rev1 | Rev2 =>
                Some (log,
                      Json 200 (JObj (obj_literal
                                        [("total", JNum (Z.of_nat (List.length all)));
                                         ("page", num p); ("pageSize", num ps);
                                         ("orders", JArr pageRows)])))
            | _ =>
                let '(log', shopifyTotal) := shopify_total created_at_min created_at_max in
                Some ((log ++ log')%list,
                      Json 200 (JObj (obj_literal
                                        [("total_fetched", JNum (Z.of_nat (List.length all)));
                                         ("page", num p); ("pageSize", num ps);
                                         ("orders", JArr pageRows);
                                         ("shopify_total", shopifyTotal)])))
            end
        end
    end.

(* ------------------------------------------------------------------ *)
(** *** [/api/export.csv] ([Rev3]: src/README.md 409-448; [Rev4]:
        src/README.md 817-856) *)

Definition export_csv (rev : Revision) (fuel : nat) (req : Request) : option (Served) :=
  let q := req_query req in
  let start := obj_get q "start" in
  let end_ := obj_get q "end" in
  let useBulk := query_or q "useBulk" "0" in
  let preview := query_or q "preview" "0" in
  if negb (truthy start) || negb (truthy end_) then
    Some ([], Json 400 (error_payload "start and end required (YYYY-MM-DD)"))
  else if negb (differs useBulk "1") then
    let '(log, c) := currentBulkOperation rev in
    match c with
    | Throw e => Some (log, Failure e)
    | Normal op =>
        if negb (truthy op) then
          Some (log, Json 400 (error_payload
                                 "No bulk operation found. Start one with /api/bulk/start"))
        else if differs (prop op "status") "COMPLETED" then
          Some (log, Json 400 (error_payload ("Bulk not ready. Status: "
                                                ++ toString (prop op "status"))))
        else
          Some (log, Redirect 303 ("/api/bulk/download?preview="
                                     ++ encodeURIComponent (toString (js_or preview (JStr "0")))))
    end
  else
    match date_range start end_ with
    | Throw e => Some ([], Failure e)
    | Normal (created_at_min, created_at_max) =>
        let MAX := parseInt (js_or (env_value MAX_RESULTS) (JStr "5000")) in
        match fetchAllOrdersREST rev fuel created_at_min created_at_max MAX with
        | None => None
        | Some (log, Throw e) => Some (log, Failure e)
        | Some (log, Normal rows) =>
            let header := String.concat "," columns ++ String newline EmptyString in
            Some (log, Csv (fst (write_rows rev (parseInt preview) rows ([header], O)))
                           (Normal tt))
        end
    end.

(* ================================================================== *)
(** ** Notions used in the statements *)

(** The last value that the query gives to the key [k]. *)
Definition last_value (entries : list (string * string)) (k : string) : option string :=
  option_map snd (find (fun kv => fst kv =? k) (rev entries)).

(** First match wins, in the words of the specification: the value of
    the first entry whose lower-cased key contains the field name and
    whose value is not empty; the empty string when there is none.  An
    entry is a key with its value already coerced to a string. *)
Definition first_match (f : string) (entries : list (string * string)) : string :=
  match find (fun e => includes (toLowerCase (fst e)) f && negb (snd e =? "")) entries with
  | Some e => snd e
  | None => ""
  end.

(** The array entry [{name: n, value: v}]. *)
Definition name_value (p : string * JSValue) : JSValue :=
  JObj [("name", JStr (fst p)); ("value", snd p)].

(** First non-empty value wins, in the words of the specification. *)
Definition first_nonempty (candidates : list JSValue) : JSValue :=
  match find truthy candidates with
  | Some v => v
  | None => JStr ""
  end.

(** Forgets the host, so that propositional automation cannot pick one of
    its functions up as a hypothesis. *)
Ltac forget_host :=
  repeat match goal with
         | f : string -> option _ |- _ => clear f
         | e : option string |- _ => clear e
         end.

(** Splits a hypothesis [x <- m ;; k = Normal r] into [m = Normal x] and
    [k x = Normal r]. *)
Ltac bind_inv H :=
  match type of H with
  | bind ?m _ = Normal _ =>
      let x := fresh "x" in
      let E := fresh "E" in
      destruct m as [x|] eqn:E; simpl in H; [|discriminate H]
  end.

Ltac utm_field_cases Hf :=
  unfold utm_fields in Hf; simpl in Hf;
  destruct Hf as [<-|[<-|[<-|[<-|[<-|[]]]]]].

(** The rows of all the orders of a page, when nothing caps them. *)
Definition page_rows (rev : Revision) (data : JSValue) : completion (list JSValue) :=
  page_orders rev None data [].

(** A sequence of upstream pages, each with its URL: every page is
    served with a success status, and its [link] header names the URL of
    the page that follows; the last page names no next page. *)
Fixpoint linked (pages : list (string * Response)) : Prop :=
  match pages with
  | [] => True
  | (u, r) :: rest =>
      fetch u = Some r /\ ok r = true
      /\ next_url (link r) = option_map fst (hd_error rest)
      /\ linked rest
  end.

(** The body of the page is JSON, and its orders normalise to [rows]. *)
Definition page_has_rows (rev : Revision) (p : string * Response) (rows : list JSValue) : Prop :=
  exists data, JSON_parse (body (snd p)) = Some data /\ page_rows rev data = Normal rows.




(** The chunk written for a row, and the header chunk. *)
Definition row_chunk (rev : Revision) (r : JSValue) : string := csv_line r ++ eol rev.
Definition header_chunk (rev : Revision) : string := String.concat "," columns ++ eol rev.

(** The number of leading lists of [rows] to read, in order, to gather
    [cap] elements: the shortest prefix that holds [cap] of them, and
    all the lists when they hold fewer. *)
Fixpoint prefix_needed {A} (cap : nat) (rows : list (list A)) : nat :=
  match rows with
  | [] => O
  | r :: rest =>
      if (cap <=? List.length r)%nat then 1%nat
      else S (prefix_needed (cap - List.length r) rest)
  end.

(** The rows of a list of orders, one after the other. *)
Fixpoint rows_of (rev : Revision) (orders : list JSValue) : completion (list JSValue) :=
  match orders with
  | [] => Normal []
  | o :: rest =>
      row <- rest_row rev o ;; rs <- rows_of rev rest ;; Normal (row :: rs)
  end.

(** A reader of CSV text as RFC 4180 describes it, with the line feed as
    the end of a record: fields are separated by commas; a field that
    starts with a double quote runs to the next double quote that is not
    doubled, and a doubled double quote inside it stands for one; a
    double quote elsewhere is an error.  The reader is a state machine
    over the characters: [field] is the text of the current field,
    [record] the fields of the current record, [records] the records
    that are complete. *)
Inductive CsvState : Type := FieldStart | InUnquoted | InQuoted | QuoteSeen.

Fixpoint csv_read_from (st : CsvState) (field : string) (record : list string)
    (records : list (list string)) (s : string) : option (list (list string)) :=
  match s with
  | EmptyString =>
      match st, record, field with
      | InQuoted, _, _ => None
      | FieldStart, [], EmptyString => Some records
      | _, _, _ => Some (records ++ [record ++ [field]])%list
      end
  | String c s' =>
      match st with
      | InQuoted =>
          if Ascii.eqb c dquote then csv_read_from QuoteSeen field record records s'
          else csv_read_from InQuoted (field ++ String c EmptyString) record records s'
      | QuoteSeen =>
          if Ascii.eqb c dquote then
            csv_read_from InQuoted (field ++ String dquote EmptyString) record records s'
          else if Ascii.eqb c "," then
            csv_read_from FieldStart EmptyString (record ++ [field])%list records s'
          else if Ascii.eqb c newline then
            csv_read_from FieldStart EmptyString [] (records ++ [record ++ [field]])%list s'
          else None
      | FieldStart | InUnquoted =>
          if Ascii.eqb c dquote then
            match st with
            | FieldStart => csv_read_from InQuoted field record records s'
            | _ => None
            end
          else if Ascii.eqb c "," then
            csv_read_from FieldStart EmptyString (record ++ [field])%list records s'
          else if Ascii.eqb c newline then
            csv_read_from FieldStart EmptyString [] (records ++ [record ++ [field]])%list s'
          else csv_read_from InUnquoted (field ++ String c EmptyString) record records s'
      end
  end.

Definition csv_read (s : string) : option (list (list string)) :=
  csv_read_from FieldStart EmptyString [] [] s.

(** The texts of the cells of a row, column by column. *)
Definition row_cells (r : JSValue) : list string :=
  map (fun k => cell_text (row_get r k)) columns.



(** The instant of a timestamp, in milliseconds. *)
Definition instant (v : JSValue) : Z :=
  match new_Date v with
  | Some t => t
  | None => 0%Z
  end.


(** The body of the response: the chunks, one after the other. *)
Definition response_text (chunks : list string) : string :=
  fold_right String.append EmptyString chunks.




(** The character [c] occurs in [s]. *)
Fixpoint mentions (c : ascii) (s : string) : bool :=
  match s with
  | EmptyString => false
  | String x s' => Ascii.eqb x c || mentions c s'
  end.

(** An attribute entry that the loop of [extractUtmFromAttributes] can
    read: not [null], and named by a string or by nothing. *)
Definition attr_entry_ok (a : JSValue) : bool :=
  match get a "name", get a "key" with
  | Normal name, Normal key =>
      match js_or (js_or name key) (JStr "") with
      | JStr _ => true
      | _ => false
      end
  | _, _ => false
  end.

Definition attrs_ok (attrs : JSValue) : bool :=
  match attrs with
  | JArr l => forallb attr_entry_ok l
  | _ => true
  end.



(** The upstream answers the request of [u] with a success status and a
    body that is JSON. *)
Definition served_ok (u : string) : Prop :=
  exists r data, fetch u = Some r /\ ok r = true /\ JSON_parse (body r) = Some data.

(** Each URL of the list but the first is the one that the [link]
    header of the response to the URL before it names as next. *)
Fixpoint chained (log : list string) : Prop :=
  match log with
  | u :: (v :: _) as rest =>
      (exists r, fetch u = Some r /\ next_url (link r) = Some v) /\ chained rest
  | _ => True
  end.

(** The rows that a preview shows: all of them when the preview is 0 or
    not a number, the first [preview] rows when it is positive, and the
    first row alone when it is negative. *)
Definition rows_shown (preview : Number) (rows : list JSValue) : list JSValue :=
  match preview with
  | None => rows
  | Some p => if (p =? 0)%Z then rows else firstn (Z.to_nat (Z.max 1 p)) rows
  end.

(** The link value [<u>; rel=], then [rel] between double quotes. *)
Definition link_to (u rel : string) : string :=
  "<" ++ u ++ ">; rel=" ++ String dquote (rel ++ String dquote EmptyString).

(** Every value of the record is a string. *)
Definition all_strings (o : Obj) : Prop :=
  Forall (fun kv => exists s, snd kv = JStr s) o.

(** The keys of a row that [mapOrderToRow] or [mapOrderNodeToRow]
    builds, in order. *)
Definition row_keys (rev : Revision) : list string :=
  match rev with
  | Rev3 => ["id"; "order_number"; "created_at"; "created_at_raw"] ++ utm_fields
  | _ => ["id"; "order_number"; "created_at"] ++ utm_fields
  end%list.

(** As [bind_inv], leaving the rest of the hypothesis as it is. *)
Ltac bind_split H :=
  match type of H with
  | bind ?m _ = Normal _ =>
      let x := fresh "x" in
      let E := fresh "E" in
      destruct m as [x|] eqn:E; cbn [bind] in H; [|discriminate H]
  end.

(** The characters of an ISO timestamp: digits and the marks [-+:.TZ]. *)
Definition iso_char (c : ascii) : bool :=
  match digit_value c with
  | Some _ => true
  | None => existsb (Ascii.eqb c) (list_ascii_of_string "-+:.TZ")
  end.

Fixpoint iso_text (s : string) : bool :=
  match s with
  | EmptyString => true
  | String c s' => iso_char c && iso_text s'
  end.

(* ================================================================== *)
(** ** Properties *)

(* ------------------------------------------------------------------ *)
(** *** Objects *)

Lemma obj_get_set_same (o : Obj) (k : string) (v : JSValue) :
  obj_get (obj_set o k v) k = v.
Proof.
  induction o as [|[k' v'] o IH]; simpl.
  - now rewrite String.eqb_refl.
  - destruct (k' =? k) eqn:E; simpl; rewrite E; auto.
Qed.

Lemma obj_get_set_other (o : Obj) (k k' : string) (v : JSValue) :
  k <> k' -> obj_get (obj_set o k v) k' = obj_get o k'.
Proof.
  intros Hne. induction o as [|[k0 v0] o IH]; simpl.
  - apply String.eqb_neq in Hne. now rewrite Hne.
  - destruct (k0 =? k) eqn:E; simpl.
    + apply String.eqb_eq in E. subst k0.
      apply String.eqb_neq in Hne. now rewrite Hne.
    + destruct (k0 =? k'); auto.
Qed.

Lemma obj_set_keys (o : Obj) (k : string) (v : JSValue) (k' : string) :
  In k' (map fst (obj_set o k v)) <-> k' = k \/ In k' (map fst o).
Proof.
  forget_host. induction o as [|[k0 v0] o IH]; simpl.
  - intuition.
  - destruct (k0 =? k) eqn:E; simpl.
    + apply String.eqb_eq in E. subst k0. intuition.
    + rewrite IH. intuition.
Qed.

(* ------------------------------------------------------------------ *)
(** *** [extractUtmFromUrl] *)

Lemma collect_utm_app (out : Obj) (l1 l2 : list (string * string)) :
  collect_utm out (l1 ++ l2) = collect_utm (collect_utm out l1) l2.
Proof. unfold collect_utm. apply fold_left_app. Qed.

Lemma collect_utm_get (entries : list (string * string)) (out : Obj) (k : string) :
  startsWith k "utm_" = true ->
  obj_get (collect_utm out entries) k =
    match last_value entries k with
    | Some v => JStr v
    | None => obj_get out k
    end.
Proof.
  intros Hk. induction entries as [|[k0 v0] l IH] using rev_ind.
  - reflexivity.
  - rewrite collect_utm_app. unfold last_value in *.
    rewrite rev_app_distr. simpl.
    destruct (k0 =? k) eqn:E.
    + apply String.eqb_eq in E. subst k0. rewrite Hk. simpl.
      apply obj_get_set_same.
    + destruct (startsWith k0 "utm_").
      * rewrite obj_get_set_other by (now apply String.eqb_neq). exact IH.
      * exact IH.
Qed.

Lemma collect_utm_get_other (entries : list (string * string)) (out : Obj) (k : string) :
  startsWith k "utm_" = false ->
  obj_get (collect_utm out entries) k = obj_get out k.
Proof.
  intros Hk. revert out. induction entries as [|[k0 v0] l IH]; intros out.
  - reflexivity.
  - unfold collect_utm in *. simpl. rewrite IH.
    destruct (startsWith k0 "utm_") eqn:E; auto.
    apply obj_get_set_other. intros ->. congruence.
Qed.

Lemma collect_utm_keys (entries : list (string * string)) (out : Obj) (k : string) :
  In k (map fst (collect_utm out entries)) <->
  In k (map fst out) \/ (startsWith k "utm_" = true /\ In k (map fst entries)).
Proof.
  revert out. induction entries as [|[k0 v0] l IH]; intros out.
  - simpl. forget_host. intuition.
  - unfold collect_utm in *. simpl. rewrite IH. clear IH.
    destruct (startsWith k0 "utm_") eqn:E.
    + rewrite obj_set_keys. split.
      * intros [[->|H]|[H1 H2]]; auto.
      * intros [H|[H1 [<-|H2]]]; auto.
    + split.
      * intros [H|[H1 H2]]; auto.
      * intros [H|[H1 [<-|H2]]]; auto. congruence.
Qed.

(** The extraction from a URL always completes normally. *)
Lemma extractUtmFromUrl_normal (v : JSValue) :
  exists out, extractUtmFromUrl v = Normal out.
Proof.
  unfold extractUtmFromUrl.
  destruct (negb (truthy v)); [now eexists|].
  destruct (extractUtmFromUrl_try utm_empty v); simpl; now eexists.
Qed.

(** Whatever the host rejects comes back as the empty record. *)
Lemma extractUtmFromUrl_rejected (s base : string) :
  url_base (JStr s) = Normal base ->
  URL_searchParams base = None ->
  extractUtmFromUrl (JStr s) = Normal utm_empty.
Proof.
  intros Hb Hp. unfold extractUtmFromUrl.
  destruct (negb (truthy (JStr s))); [reflexivity|].
  unfold extractUtmFromUrl_try. rewrite Hb. simpl. now rewrite Hp.
Qed.

(** What the extraction returns on a URL that the host parses. *)
Lemma extractUtmFromUrl_parsed (s base : string) (entries : list (string * string)) :
  s <> "" ->
  url_base (JStr s) = Normal base ->
  URL_searchParams base = Some entries ->
  extractUtmFromUrl (JStr s) = Normal (collect_utm utm_empty entries).
Proof.
  intros Hs Hb Hp. unfold extractUtmFromUrl. simpl.
  apply String.eqb_neq in Hs. rewrite Hs. simpl.
  unfold extractUtmFromUrl_try. rewrite Hb. simpl. now rewrite Hp.
Qed.

(** C4: [extractUtmFromUrl] is total: on every input string it completes
    normally, never with an exception, and on a string whose URL the
    host's parser rejects (a malformed URL) it returns the record whose
    five utm fields are all the empty string. *)
Theorem extractUtmFromUrl_total (urlString : string) :
  (exists out, extractUtmFromUrl (JStr urlString) = Normal out) /\
  (forall base,
      url_base (JStr urlString) = Normal base ->
      URL_searchParams base = None ->
      extractUtmFromUrl (JStr urlString) = Normal utm_empty
      /\ Forall (fun f => obj_get utm_empty f = JStr "") utm_fields).
Proof.
  split.
  - apply extractUtmFromUrl_normal.
  - intros base Hb Hp. split.
    + eapply extractUtmFromUrl_rejected; eauto.
    + repeat constructor.
Qed.

(** C10: when the query of the URL holds a parameter whose key starts
    with [utm_], the returned record holds that key with the value of its
    last occurrence, also when the key is none of the five canonical
    fields; such a key is then a key of the record beyond the five. *)
Theorem extractUtmFromUrl_extra_keys
    (urlString base : string) (entries : list (string * string)) (k v : string) :
  urlString <> "" ->
  url_base (JStr urlString) = Normal base ->
  URL_searchParams base = Some entries ->
  startsWith k "utm_" = true ->
  last_value entries k = Some v ->
  exists out,
    extractUtmFromUrl (JStr urlString) = Normal out
    /\ obj_get out k = JStr v
    /\ In k (map fst out)
    /\ (~ In k utm_fields -> ~ incl (map fst out) utm_fields).
Proof.
  intros Hs Hb Hp Hk Hv.
  exists (collect_utm utm_empty entries).
  split; [now apply extractUtmFromUrl_parsed with base|].
  assert (Hin : In k (map fst (collect_utm utm_empty entries))).
  { apply collect_utm_keys. right. split; [exact Hk|].
    unfold last_value in Hv.
    destruct (find (fun kv => fst kv =? k) (rev entries)) as [[k1 v1]|] eqn:F; [|discriminate].
    apply find_some in F. destruct F as [F1 F2]. simpl in F2.
    apply String.eqb_eq in F2. subst k1.
    apply in_rev in F1. apply in_map_iff. now exists (k, v1). }
  split; [|split].
  - rewrite collect_utm_get by exact Hk. now rewrite Hv.
  - exact Hin.
  - intros Hn Hincl. apply Hn. apply Hincl. exact Hin.
Qed.

(* ------------------------------------------------------------------ *)
(** *** [extractUtmFromAttributes] *)

Lemma fill_get_same (n v f : string) (out : Obj) :
  obj_get (fill n v f out) f =
    if includes n f then js_or (obj_get out f) (JStr v) else obj_get out f.
Proof.
  unfold fill. destruct (includes n f); [apply obj_get_set_same|reflexivity].
Qed.

Lemma fill_get_other (n v f f' : string) (out : Obj) :
  f <> f' -> obj_get (fill n v f out) f' = obj_get out f'.
Proof.
  intros H. unfold fill. destruct (includes n f); [now apply obj_get_set_other|reflexivity].
Qed.

Lemma fill_all_get (n v f : string) (out : Obj) :
  In f utm_fields ->
  obj_get (fill_all n v out) f =
    if includes n f then js_or (obj_get out f) (JStr v) else obj_get out f.
Proof.
  unfold utm_fields, fill_all. simpl.
  intros [<-|[<-|[<-|[<-|[<-|[]]]]]];
    repeat first [ rewrite fill_get_same; reflexivity
                 | rewrite fill_get_same
                 | rewrite fill_get_other by discriminate ];
    reflexivity.
Qed.

Lemma first_match_cons (f k v : string) (l : list (string * string)) :
  first_match f ((k, v) :: l) =
    if includes (toLowerCase k) f && negb (v =? "") then v else first_match f l.
Proof.
  unfold first_match. simpl.
  now destruct (includes (toLowerCase k) f && negb (v =? "")).
Qed.

(** One more entry, seen from the record: a field that holds a string
    keeps it when it is not empty, and takes the first match of the
    remaining entries otherwise. *)
Lemma fill_step (f n v : string) (l : list (string * string)) (out : Obj) (x : string) :
  In f utm_fields ->
  obj_get out f = JStr x ->
  obj_get (if (v =? "") then out else fill_all n v out) f
    = JStr (if (x =? "") then (if includes n f && negb (v =? "") then v else "") else x).
Proof.
  intros Hf Hx. destruct (v =? "") eqn:Ev.
  - rewrite Hx. simpl. rewrite andb_false_r.
    destruct (x =? "") eqn:Ex; [apply String.eqb_eq in Ex; now subst|reflexivity].
  - rewrite fill_all_get by exact Hf. rewrite Hx. simpl. rewrite andb_true_r.
    unfold js_or. simpl.
    destruct (x =? "") eqn:Ex; simpl.
    + apply String.eqb_eq in Ex. subst x. now destruct (includes n f).
    + now destruct (includes n f).
Qed.

Lemma attr_step_name_value (rev : Revision) (out : Obj) (p : string * JSValue) :
  attr_step rev out (name_value p) =
    Normal (if (entry_value rev (snd p) =? "") then out
            else fill_all (toLowerCase (fst p)) (entry_value rev (snd p)) out).
Proof.
  destruct p as [n value]. unfold attr_step, name_value. simpl.
  destruct (n =? "") eqn:En; simpl.
  - apply String.eqb_eq in En. subst n. simpl.
    now destruct (entry_value rev value =? "").
  - unfold js_or. simpl. rewrite En. simpl. rewrite En. simpl.
    now destruct (entry_value rev value =? "").
Qed.

Lemma attr_loop_first_match (rev : Revision) (f : string) (pairs : list (string * JSValue)) :
  In f utm_fields ->
  forall (out : Obj) (x : string),
    obj_get out f = JStr x ->
    exists out',
      attr_loop rev out (map name_value pairs) = Normal out'
      /\ obj_get out' f =
           JStr (if (x =? "") then
                   first_match f (map (fun p => (fst p, entry_value rev (snd p))) pairs)
                 else x).
Proof.
  intros Hf. induction pairs as [|p l IH]; intros out x Hx.
  - exists out. split; [reflexivity|]. rewrite Hx. unfold first_match. simpl.
    now destruct (x =? "") eqn:E; [apply String.eqb_eq in E; subst|].
  - simpl. rewrite attr_step_name_value. simpl.
    pose proof (fill_step f (toLowerCase (fst p)) (entry_value rev (snd p))
                  [] out x Hf Hx) as Hstep.
    destruct (IH _ _ Hstep) as [out' [Hrun Hget]].
    exists out'. split; [exact Hrun|]. rewrite Hget. f_equal.
    rewrite first_match_cons. simpl.
    destruct (x =? "") eqn:Ex; [|now rewrite Ex].
    destruct (includes (toLowerCase (fst p)) f && negb (entry_value rev (snd p) =? "")) eqn:Em.
    + apply andb_true_iff in Em. destruct Em as [_ Em].
      apply negb_true_iff in Em. now rewrite Em.
    + reflexivity.
Qed.

Lemma key_loop_first_match (f : string) (attrs : Obj) (keys : list string) :
  In f utm_fields ->
  forall (out : Obj) (x : string),
    obj_get out f = JStr x ->
    obj_get (fold_left (key_step attrs) keys out) f =
      JStr (if (x =? "") then
              first_match f
                (map (fun k => (k, toString (js_or (obj_get attrs k) (JStr "")))) keys)
            else x).
Proof.
  intros Hf. induction keys as [|k l IH]; intros out x Hx.
  - simpl. rewrite Hx. unfold first_match. simpl.
    now destruct (x =? "") eqn:E; [apply String.eqb_eq in E; subst|].
  - simpl.
    pose proof (fill_step f (toLowerCase k) (toString (js_or (obj_get attrs k) (JStr "")))
                  [] out x Hf Hx) as Hstep.
    unfold key_step at 2. cbv zeta.
    rewrite (IH _ _ Hstep). f_equal.
    rewrite first_match_cons.
    destruct (x =? "") eqn:Ex; [|now rewrite Ex].
    destruct (includes (toLowerCase k) f
              && negb (toString (js_or (obj_get attrs k) (JStr "")) =? "")) eqn:Em.
    + apply andb_true_iff in Em. destruct Em as [_ Em].
      apply negb_true_iff in Em. now rewrite Em.
    + reflexivity.
Qed.

Lemma utm_empty_get (f : string) : In f utm_fields -> obj_get utm_empty f = JStr "".
Proof. unfold utm_fields. simpl. intros [<-|[<-|[<-|[<-|[<-|[]]]]]]; reflexivity. Qed.

(** C5: on an ordered collection of [{name, value}] pairs and on a
    key-to-value map alike, each of the five fields of the record that
    [extractUtmFromAttributes] returns is the first match of the
    collection: keys are lower-cased and matched by substring, and the
    first value that is not empty wins, later matches being ignored. *)
Theorem extractUtmFromAttributes_first_match
    (rev : Revision) (pairs : list (string * JSValue)) (f : string) :
  In f utm_fields ->
  (exists out,
      extractUtmFromAttributes rev (JArr (map name_value pairs)) = Normal out
      /\ obj_get out f =
           JStr (first_match f (map (fun p => (fst p, entry_value rev (snd p))) pairs)))
  /\
  (exists out,
      extractUtmFromAttributes rev (JObj pairs) = Normal out
      /\ obj_get out f =
           JStr (first_match f
                   (map (fun k => (k, toString (js_or (obj_get pairs k) (JStr ""))))
                        (map fst pairs)))).
Proof.
  intros Hf. split.
  - unfold extractUtmFromAttributes. simpl.
    destruct (attr_loop_first_match rev f pairs Hf utm_empty "" (utm_empty_get f Hf))
      as [out [Hrun Hget]].
    exists out. split; [exact Hrun|exact Hget].
  - unfold extractUtmFromAttributes. simpl. eexists. split; [reflexivity|].
    now rewrite (key_loop_first_match f pairs (map fst pairs) Hf utm_empty "" (utm_empty_get f Hf)).
Qed.

(* ------------------------------------------------------------------ *)
(** *** Precedence of the three sources *)

Lemma pick_first_nonempty (landing referring note : Obj) (f : string) :
  pick landing referring note f =
    first_nonempty [obj_get landing f; obj_get referring f; obj_get note f].
Proof.
  unfold pick, first_nonempty, js_or. simpl.
  destruct (truthy (obj_get landing f)) eqn:E1; [now rewrite !E1|].
  destruct (truthy (obj_get referring f)) eqn:E2; [now rewrite !E2|].
  destruct (truthy (obj_get note f)) eqn:E3; now rewrite ?E3.
Qed.

(** The precedence of the specification, as [mapOrderToRow] ([Rev1])
    implements it: every attribution field of the row is the first
    non-empty value among the extraction from the landing URL, the
    extraction from the referring URL and the extraction from the note
    attributes, in that order, whatever the field. *)
Theorem mapOrderToRow_precedence (o row : JSValue) :
  mapOrderToRow o = Normal row ->
  exists landing_site referring_site attrs landing referring note,
    get o "landing_site" = Normal landing_site
    /\ get o "referring_site" = Normal referring_site
    /\ alias o ["note_attributes"; "attributes"] = Normal attrs
    /\ extractUtmFromUrl landing_site = Normal landing
    /\ extractUtmFromUrl referring_site = Normal referring
    /\ extractUtmFromAttributes Rev1 attrs = Normal note
    /\ forall f, In f utm_fields ->
         row_get row f =
           first_nonempty [obj_get landing f; obj_get referring f; obj_get note f].
Proof.
  unfold mapOrderToRow. intros H.
  bind_inv H. bind_inv H. bind_inv H. bind_inv H. bind_inv H. bind_inv H.
  bind_inv H. bind_inv H. bind_inv H.
  injection H as <-.
  exists x, x1, x3, x0, x2, x4. repeat (split; [assumption || reflexivity|]).
  intros f Hf. rewrite <- pick_first_nonempty. utm_field_cases Hf; reflexivity.
Qed.

(** The same precedence in [mapOrderNodeToRow], in every revision that
    has it. *)
Theorem mapOrderNodeToRow_precedence (rev : Revision) (node row : JSValue) :
  mapOrderNodeToRow rev node = Normal row ->
  exists landing_site referring_site attrs landing referring note,
    alias_or_empty node
      (match rev with
       | Rev3 => ["landingSite"; "landing_site"]
       | _ => ["landingSite"; "landing_site"; "landingSiteUrl"]
       end) = Normal landing_site
    /\ alias_or_empty node ["referringSite"; "referring_site"] = Normal referring_site
    /\ alias node ["noteAttributes"; "note_attributes"; "attributes"; "attrs"] = Normal attrs
    /\ extractUtmFromUrl landing_site = Normal landing
    /\ extractUtmFromUrl referring_site = Normal referring
    /\ extractUtmFromAttributes rev attrs = Normal note
    /\ forall f, In f utm_fields ->
         row_get row f =
           first_nonempty [obj_get landing f; obj_get referring f; obj_get note f].
Proof.
  unfold mapOrderNodeToRow. intros H.
  bind_inv H. bind_inv H. bind_inv H. bind_inv H. bind_inv H. bind_inv H. bind_inv H.
  exists x, x0, x3, x1, x2, x4. repeat (split; [assumption || reflexivity|]).
  intros f Hf. rewrite <- pick_first_nonempty.
  destruct rev; bind_inv H; bind_inv H; injection H as <-;
    utm_field_cases Hf; reflexivity.
Qed.

(* ------------------------------------------------------------------ *)
(** *** [fetchOrdersCount] *)

(** C2, as the code has it: [fetchOrdersCount] sends one request, to the
    count endpoint, and on a success response whose body is a JSON
    object it returns the reported count when that value is truthy and
    the number 0 otherwise, that is also when the response holds no
    count; a missing count is not a failure. *)
Theorem fetchOrdersCount_reports
    (created_at_min created_at_max : string) (r : Response) (j count : JSValue) :
  env_missing SHOP = false ->
  env_missing TOKEN = false ->
  fetch (count_url (env_or SHOP "") created_at_min created_at_max) = Some r ->
  ok r = true ->
  JSON_parse (body r) = Some j ->
  get j "count" = Normal count ->
  fetchOrdersCount created_at_min created_at_max =
    ([count_url (env_or SHOP "") created_at_min created_at_max],
     Normal (if truthy count then count else JNum 0)).
Proof.
  intros Hs Ht Hf Hok Hj Hc. unfold fetchOrdersCount.
  rewrite Hs, Ht. simpl. rewrite Hf, Hok. simpl. rewrite Hj, Hc. reflexivity.
Qed.

(** Never more than one request, whatever the upstream answers. *)
Lemma fetchOrdersCount_single_request (created_at_min created_at_max : string) :
  (List.length (fst (fetchOrdersCount created_at_min created_at_max)) <= 1)%nat.
Proof.
  unfold fetchOrdersCount.
  destruct (env_missing SHOP || env_missing TOKEN); simpl; [lia|].
  destruct (fetch _) as [r|]; simpl; [|lia].
  destruct (negb (ok r)); simpl; [lia|].
  destruct (JSON_parse (body r)); simpl; lia.
Qed.

(* ------------------------------------------------------------------ *)
(** *** [fetchAllOrdersREST] *)

Lemma push_orders_uncapped (rev : Revision) (orders mapped : list JSValue) :
  push_orders rev None orders mapped =
    (rs <- rows_of rev orders ;; Normal (mapped ++ rs)%list).
Proof.
  revert mapped. induction orders as [|o rest IH]; intros mapped; simpl.
  - now rewrite app_nil_r.
  - destruct (rest_row rev o) as [row|e]; simpl; [|reflexivity].
    rewrite IH. destruct (rows_of rev rest) as [rs|e]; simpl; [|reflexivity].
    now rewrite <- app_assoc.
Qed.

Lemma firstn_exact {A} (l1 l2 : list A) : firstn (List.length l1) (l1 ++ l2) = l1.
Proof.
  rewrite firstn_app, Nat.sub_diag, firstn_all. simpl. apply app_nil_r.
Qed.

Lemma push_orders_capped (rev : Revision) (cap : Z) (orders : list JSValue) :
  forall (rs mapped : list JSValue),
    rows_of rev orders = Normal rs ->
    (Z.of_nat (List.length mapped) < cap)%Z ->
    push_orders rev (Some cap) orders mapped =
      Normal (firstn (Z.to_nat cap) (mapped ++ rs)).
Proof.
  induction orders as [|o rest IH]; intros rs mapped Hrs Hlen; simpl in *.
  - injection Hrs as <-. rewrite app_nil_r. f_equal. symmetry.
    apply firstn_all2. lia.
  - destruct (rest_row rev o) as [row|e]; simpl in *; [|discriminate].
    destruct (rows_of rev rest) as [rs'|e] eqn:E; simpl in *; [|discriminate].
    injection Hrs as <-.
    replace (mapped ++ row :: rs')%list with ((mapped ++ [row]) ++ rs')%list
      by (now rewrite <- app_assoc).
    destruct (cap <=? Z.of_nat (List.length (mapped ++ [row])))%Z eqn:Ecap.
    + f_equal. apply Z.leb_le in Ecap.
      rewrite length_app in *. simpl in *.
      replace (Z.to_nat cap) with (List.length (mapped ++ [row]))
        by (rewrite length_app; simpl; lia).
      symmetry. apply firstn_exact.
    + apply Z.leb_gt in Ecap. now apply IH.
Qed.

Lemma page_rows_inv (rev : Revision) (data : JSValue) (rs : list JSValue) :
  page_rows rev data = Normal rs ->
  forall (cap : Z) (mapped : list JSValue),
    (Z.of_nat (List.length mapped) < cap)%Z ->
    page_orders rev (Some cap) data mapped =
      Normal (firstn (Z.to_nat cap) (mapped ++ rs)).
Proof.
  unfold page_rows, page_orders. intros H cap mapped Hlen.
  assert (Hkeep : firstn (Z.to_nat cap) mapped = mapped) by (apply firstn_all2; lia).
  destruct (truthy data).
  - destruct (get data "orders") as [orders|e]; simpl in *; [|discriminate].
    destruct (truthy orders).
    + destruct (iterate orders) as [l|e]; simpl in *; [|discriminate].
      rewrite push_orders_uncapped in H.
      destruct (rows_of rev l) as [rs'|e] eqn:E; simpl in H; [|discriminate].
      injection H as <-. now apply push_orders_capped.
    + injection H as <-. now rewrite app_nil_r, Hkeep.
  - injection H as <-. now rewrite app_nil_r, Hkeep.
Qed.

Lemma cap_reached_firstn (cap : Z) (l : list JSValue) :
  (1 <= cap)%Z ->
  (cap <=? Z.of_nat (List.length (firstn (Z.to_nat cap) l)))%Z
    = (Z.to_nat cap <=? List.length l)%nat.
Proof.
  intros Hcap. rewrite length_firstn.
  destruct (Z.to_nat cap <=? List.length l)%nat eqn:E.
  - apply Nat.leb_le in E. apply Z.leb_le. lia.
  - apply Nat.leb_gt in E. apply Z.leb_gt. lia.
Qed.

(** The loop over a chain of pages, started with fewer than [cap] rows. *)
Lemma rest_loop_pages (rev : Revision) (cap : Z) :
  (1 <= cap)%Z ->
  forall (pages : list (string * Response)) (rows : list (list JSValue)),
    Forall2 (page_has_rows rev) pages rows ->
    linked pages ->
    forall (u : string) (r : Response) (rest : list (string * Response)),
      pages = (u, r) :: rest ->
      forall (fuel : nat) (mapped : list JSValue) (log : list string),
        (List.length pages <= fuel)%nat ->
        (List.length mapped < Z.to_nat cap)%nat ->
        rest_loop rev (Some cap) fuel u mapped log =
          Some ((log ++ map fst
                          (firstn (prefix_needed (Z.to_nat cap - List.length mapped) rows) pages))%list,
                Normal (firstn (Z.to_nat cap) (mapped ++ List.concat rows))).
Proof.
  intros Hcap pages rows HF. induction HF as [|p rs pages' rows' Hp HF IH];
    intros Hlinked u r rest Heq fuel mapped log Hfuel Hlen; [discriminate|].
  injection Heq as -> ->. simpl in Hlinked.
  destruct Hlinked as (Hfetch & Hok & Hnext & Hrest).
  destruct fuel as [|fuel]; [simpl in Hfuel; lia|].
  destruct Hp as (data & Hdata & Hrows). simpl in Hdata.
  simpl rest_loop. rewrite Hfetch, Hok. simpl. rewrite Hdata.
  rewrite (page_rows_inv rev data rs Hrows cap mapped) by lia.
  rewrite cap_reached_firstn by exact Hcap.
  rewrite length_app. simpl prefix_needed. simpl List.concat.
  destruct (Z.to_nat cap <=? List.length mapped + List.length rs)%nat eqn:E.
  - apply Nat.leb_le in E.
    replace (Z.to_nat cap - List.length mapped <=? List.length rs)%nat with true
      by (symmetry; apply Nat.leb_le; lia).
    simpl. f_equal. f_equal. f_equal.
    rewrite app_assoc. rewrite (firstn_app _ (mapped ++ rs)).
    rewrite length_app.
    replace (Z.to_nat cap - (List.length mapped + List.length rs))%nat with O by lia.
    simpl. now rewrite app_nil_r.
  - apply Nat.leb_gt in E.
    replace (Z.to_nat cap - List.length mapped <=? List.length rs)%nat with false
      by (symmetry; apply Nat.leb_gt; lia).
    assert (Hall : firstn (Z.to_nat cap) (mapped ++ rs) = (mapped ++ rs)%list)
      by (apply firstn_all2; rewrite length_app; lia).
    rewrite Hall.
    rewrite Hnext.
    destruct rest as [|[u' r'] rest']; simpl hd_error; simpl option_map.
    + inversion HF; subst. simpl. rewrite !app_nil_r. now rewrite Hall.
    + simpl in Hfuel. cbv beta iota.
      rewrite (IH Hrest u' r' rest' eq_refl fuel (mapped ++ rs)%list (log ++ [u])%list)
        by (simpl; rewrite ?length_app; lia).
      rewrite length_app.
      replace (Z.to_nat cap - (List.length mapped + List.length rs))%nat
        with (Z.to_nat cap - List.length mapped - List.length rs)%nat by lia.
      f_equal. f_equal.
      * rewrite <- app_assoc. reflexivity.
      * now rewrite <- app_assoc.
Qed.

Lemma prefix_needed_le {A} (cap : nat) (rows : list (list A)) :
  (prefix_needed cap rows <= List.length rows)%nat.
Proof.
  revert cap. induction rows as [|r rest IH]; intros cap; simpl; [lia|].
  destruct (cap <=? List.length r)%nat; [lia|]. specialize (IH (cap - List.length r)%nat). lia.
Qed.

(** Every page that is read is read while fewer than [cap] rows are
    there. *)
Lemma prefix_needed_before {A} (cap : nat) (rows : list (list A)) (j : nat) :
  (1 <= cap)%nat ->
  (j < prefix_needed cap rows)%nat ->
  (List.length (List.concat (firstn j rows)) < cap)%nat.
Proof.
  revert cap j. induction rows as [|r rest IH]; intros cap j Hcap Hj; simpl in Hj; [lia|].
  destruct j as [|j]; [simpl; lia|].
  destruct (cap <=? List.length r)%nat eqn:E; [lia|].
  apply Nat.leb_gt in E. simpl. rewrite length_app.
  assert (List.length (List.concat (firstn j rest)) < cap - List.length r)%nat
    by (apply IH; lia).
  lia.
Qed.

(** When the reading stops before the last page, [cap] rows are there. *)
Lemma prefix_needed_stop {A} (cap : nat) (rows : list (list A)) :
  (prefix_needed cap rows < List.length rows)%nat ->
  (cap <= List.length (List.concat (firstn (prefix_needed cap rows) rows)))%nat.
Proof.
  revert cap. induction rows as [|r rest IH]; intros cap H; simpl in *; [lia|].
  destruct (cap <=? List.length r)%nat eqn:E.
  - apply Nat.leb_le in E. simpl. rewrite app_nil_r. exact E.
  - apply Nat.leb_gt in E. simpl. rewrite length_app.
    assert (cap - List.length r <= List.length (List.concat (firstn (prefix_needed (cap - List.length r) rest) rest)))%nat
      by (apply IH; lia).
    lia.
Qed.

(** C3, for a cap of at least one row: over a chain of upstream pages,
    each naming the next one in its [link] header except the last,
    [fetchAllOrdersREST] returns the rows of the pages in the order of
    delivery, cut at [resultCap] rows; it requests the pages in order and
    stops with the page that completes [resultCap] rows, so that every
    request is sent while fewer than [resultCap] rows are gathered. *)
Theorem fetchAllOrdersREST_pagination
    (rev : Revision) (created_at_min created_at_max : string) (resultCap : Z)
    (first : Response) (more : list (string * Response)) (rows : list (list JSValue)) :
  env_missing SHOP = false ->
  env_missing TOKEN = false ->
  (1 <= resultCap)%Z ->
  let pages := (orders_url (env_or SHOP "") created_at_min created_at_max, first) :: more in
  linked pages ->
  Forall2 (page_has_rows rev) pages rows ->
  let k := prefix_needed (Z.to_nat resultCap) rows in
  (forall fuel, (List.length pages <= fuel)%nat ->
     fetchAllOrdersREST rev fuel created_at_min created_at_max (Some resultCap) =
       Some (map fst (firstn k pages),
             Normal (firstn (Z.to_nat resultCap) (List.concat rows))))
  /\ (forall j, (j < k)%nat ->
        (List.length (List.concat (firstn j rows)) < Z.to_nat resultCap)%nat)
  /\ (k = List.length pages
      \/ (Z.to_nat resultCap <= List.length (List.concat (firstn k rows)))%nat).
Proof.
  intros Hs Ht Hcap pages Hlinked Hrows k. split; [|split].
  - intros fuel Hfuel. unfold fetchAllOrdersREST. rewrite Hs, Ht. simpl orb. cbv iota.
    rewrite (rest_loop_pages rev resultCap Hcap pages rows Hrows Hlinked _ _ _ eq_refl
               fuel [] [] Hfuel) by (simpl; lia).
    simpl List.length. rewrite Nat.sub_0_r. reflexivity.
  - intros j Hj. apply prefix_needed_before; [lia|exact Hj].
  - pose proof (prefix_needed_le (Z.to_nat resultCap) rows) as Hle.
    pose proof (Forall2_length Hrows) as Hlen.
    destruct (Nat.eq_dec k (List.length pages)) as [E|E]; [now left|right].
    apply prefix_needed_stop. unfold k in *. lia.
Qed.

(* ------------------------------------------------------------------ *)
(** *** The bulk download *)



Lemma write_rows_unlimited (rev : Revision) (rows : list JSValue) :
  forall (out : list string) (count : nat),
    write_rows rev (Some 0%Z) rows (out, count) =
      ((out ++ map (row_chunk rev) rows)%list, (count + List.length rows)%nat).
Proof.
  induction rows as [|r rest IH]; intros out count; simpl.
  - now rewrite app_nil_r, Nat.add_0_r.
  - rewrite IH. unfold row_chunk. rewrite <- app_assoc. simpl. f_equal. lia.
Qed.

Lemma preview_reached_pos (n : Z) (count : nat) :
  (1 <= n)%Z ->
  preview_reached (Some n) count = (Z.to_nat n <=? count)%nat.
Proof.
  intros Hn. unfold preview_reached.
  replace (n =? 0)%Z with false by (symmetry; apply Z.eqb_neq; lia). simpl.
  destruct (Z.to_nat n <=? count)%nat eqn:E.
  - apply Nat.leb_le in E. apply Z.leb_le. lia.
  - apply Nat.leb_gt in E. apply Z.leb_gt. lia.
Qed.

Lemma write_rows_preview (rev : Revision) (n : Z) (rows : list JSValue) :
  (1 <= n)%Z ->
  forall (out : list string) (count : nat),
    (count < Z.to_nat n)%nat ->
    write_rows rev (Some n) rows (out, count) =
      ((out ++ map (row_chunk rev) (firstn (Z.to_nat n - count) rows))%list,
       (count + Nat.min (Z.to_nat n - count) (List.length rows))%nat).
Proof.
  intros Hn. induction rows as [|r rest IH]; intros out count Hc.
  - simpl. rewrite firstn_nil, app_nil_r, Nat.min_0_r, Nat.add_0_r. reflexivity.
  - cbn [write_rows fst snd]. rewrite preview_reached_pos by exact Hn.
    destruct (Z.to_nat n <=? S count)%nat eqn:E.
    + apply Nat.leb_le in E.
      replace (Z.to_nat n - count)%nat with 1%nat by lia.
      simpl. f_equal. lia.
    + apply Nat.leb_gt in E. rewrite IH by lia.
      replace (Z.to_nat n - count)%nat with (S (Z.to_nat n - S count)) by lia.
      simpl. rewrite <- app_assoc. simpl. f_equal. lia.
Qed.







(* ------------------------------------------------------------------ *)
(** *** CSV: what is written reads back *)

Lemma append_assoc_char (a : string) (c : ascii) (b : string) :
  (a ++ String c EmptyString) ++ b = a ++ String c b.
Proof. induction a as [|x a IH]; simpl; [reflexivity|now rewrite IH]. Qed.

Lemma append_nil_r (a : string) : a ++ EmptyString = a.
Proof. induction a as [|x a IH]; simpl; [reflexivity|now rewrite IH]. Qed.

(** Inside a quoted field, the doubled text of [v] up to the closing
    double quote reads as [v]. *)
Lemma csv_read_quoted (v : string) :
  forall (field : string) (record : list string) (records : list (list string)) (rest : string),
    csv_read_from InQuoted field record records (double_quotes v ++ String dquote rest)
      = csv_read_from QuoteSeen (field ++ v) record records rest.
Proof.
  induction v as [|c v IH]; intros field record records rest.
  - simpl. now rewrite append_nil_r.
  - simpl double_quotes. destruct (Ascii.eqb c dquote) eqn:E.
    + apply Ascii.eqb_eq in E. subst c. simpl. rewrite IH.
      now rewrite append_assoc_char.
    + simpl. rewrite E. rewrite IH. now rewrite append_assoc_char.
Qed.

Lemma csv_cell_append (x : JSValue) (rest : string) :
  csv_cell x ++ rest = String dquote (double_quotes (cell_text x) ++ String dquote rest).
Proof.
  unfold csv_cell. simpl. f_equal. apply append_assoc_char.
Qed.

(** A written cell, read at the start of a field. *)
Lemma csv_read_cell (x : JSValue) (record : list string) (records : list (list string))
    (rest : string) :
  csv_read_from FieldStart EmptyString record records (csv_cell x ++ rest)
    = csv_read_from QuoteSeen (cell_text x) record records rest.
Proof.
  rewrite csv_cell_append. simpl. apply csv_read_quoted.
Qed.

Lemma concat_cons2 (sep a b : string) (l : list string) :
  String.concat sep (a :: b :: l) = a ++ sep ++ String.concat sep (b :: l).
Proof. reflexivity. Qed.

Lemma append_assoc (a b c : string) : (a ++ b) ++ c = a ++ (b ++ c).
Proof. induction a as [|x a IH]; simpl; [reflexivity|now rewrite IH]. Qed.

Lemma last_cons_default {A} (y : A) (xs : list A) (d d' : A) :
  last (y :: xs) d = last (y :: xs) d'.
Proof.
  revert y. induction xs as [|z xs IH]; intros y; [reflexivity|].
  change (last (z :: xs) d = last (z :: xs) d'). apply IH.
Qed.

Lemma csv_read_comma (field : string) (record : list string)
    (records : list (list string)) (s : string) :
  csv_read_from QuoteSeen field record records ("," ++ s)
    = csv_read_from FieldStart EmptyString (record ++ [field])%list records s.
Proof. reflexivity. Qed.

(** The cells of a record, joined by commas, read back as their texts;
    what follows the last cell is read in the state that follows a
    closing double quote. *)
Lemma csv_read_cells (x : JSValue) (xs : list JSValue) :
  forall (record : list string) (records : list (list string)) (rest : string),
    csv_read_from FieldStart EmptyString record records
        (String.concat "," (map csv_cell (x :: xs)) ++ rest)
      = csv_read_from QuoteSeen (cell_text (last (x :: xs) x))
          (record ++ map cell_text (removelast (x :: xs)))%list records rest.
Proof.
  revert x. induction xs as [|y xs IH]; intros x record records rest.
  - change (String.concat "," (map csv_cell [x])) with (csv_cell x).
    rewrite csv_read_cell. simpl. now rewrite app_nil_r.
  - cbn [map]. rewrite concat_cons2. rewrite !append_assoc.
    rewrite csv_read_cell.
    change (csv_cell y :: map csv_cell xs) with (map csv_cell (y :: xs)).
    rewrite csv_read_comma. rewrite IH.
    change (last (x :: y :: xs) x) with (last (y :: xs) x).
    rewrite (last_cons_default y xs x y).
    change (removelast (x :: y :: xs)) with (x :: removelast (y :: xs)).
    simpl map. now rewrite <- app_assoc.
Qed.

Lemma removelast_last_map {A B} (f : A -> B) (x : A) (xs : list A) :
  (map f (removelast (x :: xs)) ++ [f (last (x :: xs) x)])%list = map f (x :: xs).
Proof.
  rewrite <- map_last. f_equal. symmetry. apply app_removelast_last. discriminate.
Qed.

(** C9: a written cell is the text of the value between two double
    quotes, with every double quote of the text doubled; [null] and
    [undefined] are written as the empty text; and the reader of CSV
    gets the text back from the cell, as it gets the texts of a whole
    line of cells back, whatever characters they hold. *)
Theorem csv_cell_roundtrip (x : JSValue) (xs : list JSValue) :
  csv_cell x = String dquote (double_quotes (cell_text x)) ++ String dquote EmptyString
  /\ cell_text JNull = EmptyString
  /\ cell_text JUndefined = EmptyString
  /\ csv_read (csv_cell x) = Some [[cell_text x]]
  /\ csv_read (String.concat "," (map csv_cell (x :: xs))) = Some [map cell_text (x :: xs)].
Proof.
  split; [reflexivity|]. split; [reflexivity|]. split; [reflexivity|].
  assert (H : forall y ys,
             csv_read (String.concat "," (map csv_cell (y :: ys))) = Some [map cell_text (y :: ys)]).
  { intros y ys. unfold csv_read.
    rewrite <- (append_nil_r (String.concat "," (map csv_cell (y :: ys)))).
    rewrite csv_read_cells. cbn [csv_read_from app].
    now rewrite removelast_last_map. }
  split; [|apply H].
  exact (H x []).
Qed.

(* ------------------------------------------------------------------ *)
(** *** [/api/orders]: the order of the rows *)

Lemma sort_insert_perm {A} (cmp : A -> A -> Number) (x : A) (l : list A) :
  Permutation (x :: l) (sort_insert cmp x l).
Proof.
  induction l as [|y l IH]; simpl; [reflexivity|].
  destruct (_ <=? 0)%Z; [reflexivity|].
  rewrite perm_swap. now apply perm_skip.
Qed.

Lemma js_sort_perm {A} (cmp : A -> A -> Number) (l : list A) :
  Permutation l (js_sort cmp l).
Proof.
  induction l as [|x l IH]; simpl; [reflexivity|].
  rewrite <- sort_insert_perm. now apply perm_skip.
Qed.











Lemma obj_assign_get_other (s t : Obj) (k : string) :
  ~ In k (map fst s) -> obj_get (obj_assign t s) k = obj_get t k.
Proof.
  forget_host. revert t. induction s as [|[k0 v0] s IH]; intros t Hk; [reflexivity|].
  unfold obj_assign in *. simpl in *. rewrite IH by tauto.
  apply obj_get_set_other. intros ->. tauto.
Qed.






(* ------------------------------------------------------------------ *)
(** *** The bulk download: whole files and previews *)


(** The extraction from attributes that can be read completes normally. *)
Lemma extractUtmFromAttributes_normal (rev : Revision) (attrs : JSValue) :
  attrs_ok attrs = true -> exists out, extractUtmFromAttributes rev attrs = Normal out.
Proof.
  unfold extractUtmFromAttributes. intros Hok.
  destruct (negb (truthy attrs)); [now eexists|].
  destruct attrs as [| | | | |l|o]; try (now eexists).
  simpl in Hok. generalize utm_empty. induction l as [|a l IH]; intros out; simpl.
  - now eexists.
  - simpl in Hok. apply andb_true_iff in Hok. destruct Hok as [Ha Hl].
    assert (Hstep : exists out', attr_step rev out a = Normal out').
    { unfold attr_entry_ok in Ha. unfold attr_step.
      destruct (get a "name") as [name|] eqn:En; [|discriminate].
      destruct (get a "key") as [key|] eqn:Ek; [|discriminate]. simpl.
      assert (Hv : exists value, get a "value" = Normal value).
      { destruct a; try discriminate; simpl; now eexists. }
      destruct Hv as [value Hv].
      destruct (truthy name) eqn:Et; simpl.
      - unfold js_or in *. rewrite Et in *. simpl in *. rewrite Et in *.
        destruct name; try discriminate. simpl. rewrite Hv. simpl.
        destruct (_ =? ""); now eexists.
      - unfold js_or in *. rewrite Et in *.
        destruct (if truthy key then key else JStr "") eqn:Ej; try discriminate.
        simpl. rewrite Hv. simpl. destruct (_ =? ""); now eexists. }
    destruct Hstep as [out' ->]. simpl. now apply IH.
Qed.






Lemma csv_read_newline (field : string) (record : list string)
    (records : list (list string)) (s : string) :
  csv_read_from QuoteSeen field record records (String newline s)
    = csv_read_from FieldStart EmptyString [] (records ++ [record ++ [field]])%list s.
Proof. reflexivity. Qed.

(** The rows written with a line feed read back, one record each. *)
Lemma csv_read_rows (rev : Revision) (rows : list JSValue) :
  eol rev = String newline EmptyString ->
  forall records : list (list string),
    csv_read_from FieldStart EmptyString [] records
        (response_text (map (row_chunk rev) rows))
      = Some (records ++ map row_cells rows)%list.
Proof.
  intros Heol. induction rows as [|r rows IH]; intros records.
  - simpl. now rewrite app_nil_r.
  - cbn [map response_text fold_right]. unfold row_chunk at 1. rewrite Heol.
    unfold csv_line. rewrite append_assoc.
    change (map (fun k => csv_cell (row_get r k)) columns)
      with (map csv_cell (row_get r "order_number"
                            :: map (row_get r) ["created_at"; "utm_source"; "utm_medium";
                                                "utm_campaign"; "utm_term"; "utm_content"])).
    rewrite csv_read_cells.
    change (String newline EmptyString ++ fold_right append EmptyString (map (row_chunk rev) rows))
      with (String newline (response_text (map (row_chunk rev) rows))).
    rewrite csv_read_newline.
    rewrite IH. rewrite <- app_assoc. reflexivity.
Qed.

(** What [Rev3] and [Rev4] write is CSV: the reader gets the column
    names and then the cells of every row back from the response. *)
Theorem response_reads_back (rev : Revision) (rows : list JSValue) :
  eol rev = String newline EmptyString ->
  csv_read (response_text (header_chunk rev :: map (row_chunk rev) rows))
    = Some (columns :: map row_cells rows).
Proof.
  intros Heol. unfold csv_read. cbn [response_text fold_right].
  unfold header_chunk. rewrite Heol.
  change (fold_right append EmptyString (map (row_chunk rev) rows))
    with (response_text (map (row_chunk rev) rows)).
  transitivity (csv_read_from FieldStart EmptyString [] [columns]
                  (response_text (map (row_chunk rev) rows))).
  - reflexivity.
  - now rewrite csv_read_rows.
Qed.

(* ------------------------------------------------------------------ *)
(** *** The REST rows and the landing URL *)

Lemma obj_set_keys_same (o : Obj) (k : string) (v : JSValue) :
  In k (map fst o) -> map fst (obj_set o k v) = map fst o.
Proof.
  induction o as [|[k0 v0] o IH]; simpl; [intros []|].
  intros Hin. destruct (k0 =? k) eqn:E; simpl; [reflexivity|].
  f_equal. apply IH. destruct Hin as [->|Hin]; [|exact Hin].
  now rewrite String.eqb_refl in E.
Qed.

Lemma obj_set_keys_new (o : Obj) (k : string) (v : JSValue) :
  ~ In k (map fst o) -> map fst (obj_set o k v) = (map fst o ++ [k])%list.
Proof.
  induction o as [|[k0 v0] o IH]; simpl; [reflexivity|].
  intros Hn. destruct (k0 =? k) eqn:E; simpl.
  - apply String.eqb_eq in E. subst k0. exfalso. apply Hn. now left.
  - f_equal. apply IH. intros H. apply Hn. now right.
Qed.

Lemma obj_set_NoDup (o : Obj) (k : string) (v : JSValue) :
  NoDup (map fst o) -> NoDup (map fst (obj_set o k v)).
Proof.
  intros Hnd. destruct (in_dec string_dec k (map fst o)) as [Hin|Hn].
  - now rewrite obj_set_keys_same.
  - rewrite obj_set_keys_new by exact Hn.
    apply NoDup_app; [exact Hnd|repeat constructor; intros []|].
    intros x Hx [<-|[]]. contradiction.
Qed.

Lemma obj_assign_NoDup (s t : Obj) :
  NoDup (map fst t) -> NoDup (map fst (obj_assign t s)).
Proof.
  revert t. induction s as [|[k0 v0] s IH]; intros t Ht; [exact Ht|].
  unfold obj_assign in *. simpl. apply IH. now apply obj_set_NoDup.
Qed.

Lemma obj_assign_keys (s t : Obj) (k : string) :
  In k (map fst (obj_assign t s)) <-> In k (map fst t) \/ In k (map fst s).
Proof.
  forget_host. revert t. induction s as [|[k0 v0] s IH]; intros t.
  - simpl. tauto.
  - unfold obj_assign in *. simpl. rewrite IH, obj_set_keys. split.
    + intros [[->|H]|H]; auto.
    + intros [H|[<-|H]]; auto.
Qed.

(** A key of [s] takes its value from [s] when [s] is assigned. *)
Lemma obj_assign_get_in (s t : Obj) (k : string) :
  NoDup (map fst s) -> In k (map fst s) ->
  obj_get (obj_assign t s) k = obj_get s k.
Proof.
  revert t. induction s as [|[k0 v0] s IH]; intros t Hnd Hin; [destruct Hin|].
  simpl in Hnd, Hin. inversion Hnd as [|? ? Hk0 Hnd']; subst.
  change (obj_assign t ((k0, v0) :: s)) with (obj_assign (obj_set t k0 v0) s).
  simpl. destruct (k0 =? k) eqn:E.
  - apply String.eqb_eq in E. subst k0.
    rewrite obj_assign_get_other by exact Hk0. apply obj_get_set_same.
  - apply IH; [exact Hnd'|]. destruct Hin as [->|Hin]; [|exact Hin].
    now rewrite String.eqb_refl in E.
Qed.

Lemma fill_fields (n v f : string) (out : Obj) :
  In f utm_fields -> map fst out = utm_fields -> map fst (fill n v f out) = utm_fields.
Proof.
  intros Hf H. unfold fill. destruct (includes n f); [|exact H].
  rewrite obj_set_keys_same; [exact H|now rewrite H].
Qed.

Lemma fill_all_fields (n v : string) (out : Obj) :
  map fst out = utm_fields -> map fst (fill_all n v out) = utm_fields.
Proof.
  intros H. unfold fill_all.
  repeat (apply fill_fields; [unfold utm_fields; simpl; now auto 6|]). exact H.
Qed.

Lemma utm_fields_NoDup : NoDup utm_fields.
Proof.
  forget_host. unfold utm_fields. repeat constructor; simpl; intuition discriminate.
Qed.

(** The record that [extractUtmFromAttributes] returns has the five
    fields, and only them. *)
Lemma extractUtmFromAttributes_fields (rev : Revision) (attrs : JSValue) (out : Obj) :
  extractUtmFromAttributes rev attrs = Normal out -> map fst out = utm_fields.
Proof.
  unfold extractUtmFromAttributes.
  destruct (negb (truthy attrs)); [now intros H; injection H as <-|].
  destruct attrs as [| | | | |l|o]; try (now intros H; injection H as <-).
  - assert (H0 : map fst utm_empty = utm_fields) by reflexivity.
    revert H0. generalize utm_empty. revert out.
    induction l as [|a l IH]; intros out o Ho H; simpl in H.
    + now injection H as <-.
    + bind_inv H. apply (IH out x); [|exact H].
      unfold attr_step in E. repeat bind_inv E.
      destruct (_ =? ""); injection E as <-; [exact Ho|now apply fill_all_fields].
  - intros H. injection H as <-.
    assert (H0 : map fst utm_empty = utm_fields) by reflexivity.
    revert H0. generalize utm_empty.
    induction (map fst o) as [|k l IH]; intros out Ho; simpl; [exact Ho|].
    apply IH. unfold key_step. destruct (_ =? ""); [exact Ho|now apply fill_all_fields].
Qed.

(** In the REST loop of [Rev2], [Rev3] and [Rev4] the five attribution
    fields of a row are those of the extraction from the note attributes
    alone: whatever the landing URL and the referring URL hold, none of
    their values reaches these fields. *)
Theorem rest_row_ignores_landing (rev : Revision) (o row : JSValue) :
  rev <> Rev1 ->
  rest_row rev o = Normal row ->
  exists attrs note,
    alias o ["note_attributes"; "attributes"] = Normal attrs
    /\ extractUtmFromAttributes rev attrs = Normal note
    /\ forall f, In f utm_fields -> row_get row f = obj_get note f.
Proof.
  intros Hrev H.
  assert (Hget : forall base a b f,
             map fst b = utm_fields -> In f utm_fields ->
             obj_get (obj_assign base (obj_assign (obj_assign [] a) b)) f = obj_get b f).
  { intros base a b f Hb Hf.
    assert (Hnd : NoDup (map fst b)) by (rewrite Hb; apply utm_fields_NoDup).
    rewrite obj_assign_get_in.
    - apply obj_assign_get_in; [exact Hnd|now rewrite Hb].
    - apply obj_assign_NoDup, obj_assign_NoDup. constructor.
    - apply obj_assign_keys. right. now rewrite Hb. }
  destruct rev; [contradiction| | |]; simpl in H; repeat bind_inv H; injection H as <-;
    match goal with
    | Ha : alias o _ = Normal ?attrs, Hb : extractUtmFromAttributes _ ?attrs = Normal ?b |- _ =>
        exists attrs, b; split; [exact Ha|]; split; [exact Hb|];
        intros f Hf; apply Hget; [now apply extractUtmFromAttributes_fields in Hb|exact Hf]
    | Ha : bind (get o "note_attributes") _ = Normal ?attrs,
      Hb : extractUtmFromAttributes _ ?attrs = Normal ?b |- _ =>
        exists attrs, b; split; [exact Ha|]; split; [exact Hb|];
        intros f Hf; apply Hget; [now apply extractUtmFromAttributes_fields in Hb|exact Hf]
    end.
Qed.

(** [extractUtmFromAttributes] raises on an attribute array that holds
    [null], and on an entry whose name is not a string. *)
Lemma extractUtmFromAttributes_raises (rev : Revision) :
  extractUtmFromAttributes rev (JArr [JNull]) = Throw TypeError
  /\ extractUtmFromAttributes rev (JArr [JObj [("name", JNum 5); ("value", JStr "x")]])
     = Throw TypeError.
Proof. split; reflexivity. Qed.

(* ------------------------------------------------------------------ *)
(** *** The line ends of [Rev2] *)

Lemma mentions_append (c : ascii) (a b : string) :
  mentions c (a ++ b) = mentions c a || mentions c b.
Proof.
  induction a as [|x a IH]; simpl; [reflexivity|]. now rewrite IH, orb_assoc.
Qed.

Lemma mentions_double_quotes (v : string) :
  mentions newline (double_quotes v) = mentions newline v.
Proof.
  induction v as [|c v IH]; simpl; [reflexivity|].
  destruct (Ascii.eqb c dquote) eqn:E; simpl; rewrite IH; [|reflexivity].
  apply Ascii.eqb_eq in E. now subst c.
Qed.

Lemma mentions_csv_cell (x : JSValue) :
  mentions newline (csv_cell x) = mentions newline (cell_text x).
Proof.
  unfold csv_cell. simpl. rewrite mentions_append, mentions_double_quotes. simpl.
  now rewrite orb_false_r.
Qed.

Lemma mentions_concat (c : ascii) (sep : string) (l : list string) :
  mentions c sep = false ->
  Forall (fun t => mentions c t = false) l ->
  mentions c (String.concat sep l) = false.
Proof.
  intros Hsep. induction 1 as [|t l Ht Hl IH]; [reflexivity|].
  destruct l as [|t' l]; [exact Ht|].
  change (String.concat sep (t :: t' :: l)) with (t ++ sep ++ String.concat sep (t' :: l)).
  now rewrite !mentions_append, Ht, Hsep, IH.
Qed.

(** The response of [Rev2] is one line: when no cell of the rows holds a
    line feed, the header and the rows are written without any. *)
Theorem response_without_line_feed (rows : list JSValue) :
  Forall (fun r => Forall (fun t => mentions newline t = false) (row_cells r)) rows ->
  mentions newline (response_text (header_chunk Rev2 :: map (row_chunk Rev2) rows)) = false.
Proof.
  intros H. cbn [response_text fold_right]. rewrite mentions_append.
  replace (mentions newline (header_chunk Rev2)) with false by reflexivity. simpl orb.
  induction H as [|r rows Hr _ IH]; [reflexivity|].
  cbn [map fold_right]. rewrite mentions_append, IH, orb_false_r.
  unfold row_chunk. rewrite mentions_append.
  replace (mentions newline (eol Rev2)) with false by reflexivity. rewrite orb_false_r.
  unfold csv_line. apply mentions_concat; [reflexivity|].
  unfold row_cells in Hr. rewrite Forall_map in *.
  eapply Forall_impl; [|exact Hr]. intros k Hk. now rewrite mentions_csv_cell.
Qed.

(* ------------------------------------------------------------------ *)
(** *** [requireApiKey] *)

Lemma env_or_nonempty (e : option string) (fallback : string) :
  fallback <> "" -> env_or e fallback <> "".
Proof.
  intros Hf. unfold env_or. destruct e as [s|]; [|exact Hf].
  destruct (s =? "") eqn:E; [exact Hf|]. now apply String.eqb_neq in E.
Qed.

(** The key is never empty: the test [!API_KEY] of the middleware never
    holds. *)
Lemma API_KEY_nonempty : (API_KEY =? "") = false.
Proof. apply String.eqb_neq, env_or_nonempty. discriminate. Qed.

Lemma differs_false (v : JSValue) (s : string) : differs v s = false <-> v = JStr s.
Proof.
  destruct v; simpl; try (split; [discriminate|discriminate]).
  rewrite negb_false_iff, String.eqb_eq. split; [now intros ->|now intros [= ->]].
Qed.

Lemma js_or_empty_string (v : JSValue) (k : string) :
  k <> "" -> js_or v (JStr "") = JStr k <-> v = JStr k.
Proof.
  intros Hk. unfold js_or. destruct (truthy v) eqn:E; [reflexivity|].
  split.
  - intros [= H]. now subst k.
  - intros ->. simpl in E. apply negb_false_iff, String.eqb_eq in E. contradiction.
Qed.

(** Where the key is checked, a request passes exactly when the header
    [x-api-key] holds the key, or when that header is absent or empty
    and the query parameter [api_key] is the key, as one string.  A
    header that holds another text refuses the request whatever the
    query says, and a request without any key never passes.  [Rev3]
    checks the key only when [ENFORCE] is set. *)
Theorem requireApiKey_accepts (rev : Revision) (req : Request) :
  requireApiKey rev req = true <->
    (rev = Rev3 /\ ENFORCE = false)
    \/ req_x_api_key req = Some API_KEY
    \/ ((req_x_api_key req = None \/ req_x_api_key req = Some "")
        /\ obj_get (req_query req) "api_key" = JStr API_KEY).
Proof.
  pose proof API_KEY_nonempty as Hne.
  assert (Hk : API_KEY <> "") by (now apply String.eqb_neq).
  assert (Hallowed :
            negb ((API_KEY =? "") || differs (presented_key req) API_KEY) = true <->
            req_x_api_key req = Some API_KEY
            \/ ((req_x_api_key req = None \/ req_x_api_key req = Some "")
                /\ obj_get (req_query req) "api_key" = JStr API_KEY)).
  { rewrite Hne. simpl orb. rewrite negb_true_iff, differs_false.
    unfold presented_key, env_value.
    destruct (req_x_api_key req) as [h|].
    - unfold js_or at 2. simpl truthy.
      destruct (h =? "") eqn:Eh; simpl negb; cbv iota.
      + apply String.eqb_eq in Eh. subst h. rewrite js_or_empty_string by exact Hk.
        split.
        * intros H. right. split; [now right|exact H].
        * intros [[= H]|[_ H]]; [now rewrite <- H in Hk|exact H].
      + apply String.eqb_neq in Eh. unfold js_or. simpl truthy.
        replace (h =? "") with false by (symmetry; now apply String.eqb_neq).
        simpl negb. cbv iota.
        split.
        * intros [= ->]. now left.
        * intros [[= ->]|[[H|[= H]] _]]; [reflexivity|discriminate|contradiction].
    - unfold js_or at 2. simpl truthy. cbv iota. rewrite js_or_empty_string by exact Hk.
      split.
      + intros H. right. split; [now left|exact H].
      + intros [H|[_ H]]; [discriminate|exact H]. }
  unfold requireApiKey.
  destruct rev;
    try (rewrite Hallowed; split; [now right|intros [[H _]|H]; [discriminate|exact H]]).
  destruct ENFORCE; simpl negb; cbv iota.
  - rewrite Hallowed. split; [now right|intros [[_ H]|H]; [discriminate|exact H]].
  - split; [intros _; left; split; reflexivity|reflexivity].
Qed.

(** Without a configured key the public default opens the API: when
    [API_KEY] is unset or empty in the environment, every request whose
    header is [dev_key] passes, in every revision. *)
Theorem requireApiKey_default_key (rev : Revision) (req : Request) :
  env_missing API_KEY_env = true ->
  req_x_api_key req = Some "dev_key" ->
  requireApiKey rev req = true.
Proof.
  intros Henv Hh.
  assert (Hk : API_KEY = "dev_key").
  { unfold API_KEY, env_or. unfold env_missing in Henv.
    destruct API_KEY_env as [s|]; [now rewrite Henv|reflexivity]. }
  unfold requireApiKey, presented_key. rewrite Hh, Hk. simpl.
  destruct rev; try reflexivity. now destruct ENFORCE.
Qed.

(* ------------------------------------------------------------------ *)
(** *** The retrieval loops, whatever the upstream answers *)

Lemma chained_app (log : list string) (u v : string) :
  chained (log ++ [u]) ->
  (exists r, fetch u = Some r /\ next_url (link r) = Some v) ->
  chained ((log ++ [u]) ++ [v]).
Proof.
  intros Hc Hn. induction log as [|a log IH]; simpl in *.
  - split; [exact Hn|exact I].
  - destruct (log ++ [u])%list as [|b rest] eqn:E.
    + destruct log; discriminate.
    + simpl. destruct Hc as [Hab Hc]. split; [exact Hab|]. apply IH. exact Hc.
Qed.

Lemma rest_loop_success (rev : Revision) (cap : Number) (fuel : nat) :
  forall (url : string) (mapped : list JSValue) (log log' : list string) (rows : list JSValue),
    rest_loop rev cap fuel url mapped log = Some (log', Normal rows) ->
    Forall served_ok log -> chained (log ++ [url]) ->
    Forall served_ok log' /\ chained log' /\ exists more, log' = (log ++ url :: more)%list.
Proof.
  induction fuel as [|fuel IH]; intros url mapped log log' rows H Hlog Hch; [discriminate|].
  simpl in H.
  destruct (fetch url) as [resp|] eqn:Ef; [|discriminate].
  destruct (negb (ok resp)) eqn:Eok; [discriminate|].
  apply negb_false_iff in Eok.
  destruct (JSON_parse (body resp)) as [data|] eqn:Ej; [|discriminate].
  assert (Hu : served_ok url) by (exists resp, data; auto).
  assert (Hlog' : Forall served_ok (log ++ [url]))
    by (apply Forall_app; split; [exact Hlog|constructor; [exact Hu|constructor]]).
  destruct (page_orders rev cap data mapped) as [mapped'|e]; [|discriminate].
  destruct (cap_reached mapped' cap).
  - injection H as <- <-. split; [exact Hlog'|]. split; [exact Hch|]. now exists [].
  - destruct (next_url (link resp)) as [u|] eqn:En.
    + apply IH in H; [|exact Hlog'|apply chained_app; [exact Hch|exists resp; auto]].
      destruct H as (H1 & H2 & more & H3). split; [exact H1|]. split; [exact H2|].
      exists (u :: more). rewrite H3. now rewrite <- app_assoc.
    + injection H as <- <-. split; [exact Hlog'|]. split; [exact Hch|]. now exists [].
Qed.

(** There is no partial result.  When [fetchAllOrdersREST] returns rows,
    every request that it sent was answered with a success status and a
    JSON body; it asked for the orders URL of the date range first and
    then only followed the [link] headers. *)
Theorem fetchAllOrdersREST_all_or_nothing
    (rev : Revision) (fuel : nat) (created_at_min created_at_max : string)
    (maxResults : Number) (log : list string) (rows : list JSValue) :
  fetchAllOrdersREST rev fuel created_at_min created_at_max maxResults
    = Some (log, Normal rows) ->
  Forall served_ok log /\ chained log
  /\ exists more, log = orders_url (env_or SHOP "") created_at_min created_at_max :: more.
Proof.
  unfold fetchAllOrdersREST. intros H.
  destruct (env_missing SHOP || env_missing TOKEN); [discriminate|].
  apply rest_loop_success in H; [|constructor|exact I].
  destruct H as (H1 & H2 & more & H3). split; [exact H1|]. split; [exact H2|].
  now exists more.
Qed.

Lemma push_orders_bound (rev : Revision) (m : Z) (orders : list JSValue) :
  forall (mapped mapped' : list JSValue),
    push_orders rev (Some m) orders mapped = Normal mapped' ->
    (Z.of_nat (List.length mapped') <= Z.max m (Z.of_nat (List.length mapped) + 1))%Z.
Proof.
  induction orders as [|o rest IH]; intros mapped mapped' H; simpl in H.
  - injection H as <-. lia.
  - destruct (rest_row rev o) as [row|e]; simpl in H; [|discriminate].
    destruct (m <=? Z.of_nat (List.length (mapped ++ [row])))%Z eqn:E.
    + injection H as <-. rewrite length_app. simpl. lia.
    + apply Z.leb_gt in E. apply IH in H. rewrite length_app in *. simpl in *. lia.
Qed.

Lemma page_orders_bound (rev : Revision) (m : Z) (data : JSValue)
    (mapped mapped' : list JSValue) :
  page_orders rev (Some m) data mapped = Normal mapped' ->
  (Z.of_nat (List.length mapped') <= Z.max m (Z.of_nat (List.length mapped) + 1))%Z.
Proof.
  unfold page_orders. intros H.
  destruct (truthy data); [|injection H as <-; lia].
  destruct (get data "orders") as [orders|e]; simpl in H; [|discriminate].
  destruct (truthy orders); [|injection H as <-; lia].
  destruct (iterate orders) as [l|e]; simpl in H; [|discriminate].
  now apply push_orders_bound in H.
Qed.

Lemma rest_loop_bound (rev : Revision) (m : Z) (fuel : nat) :
  forall (url : string) (mapped : list JSValue) (log log' : list string) (rows : list JSValue),
    rest_loop rev (Some m) fuel url mapped log = Some (log', Normal rows) ->
    (Z.of_nat (List.length rows) <= Z.max m (Z.of_nat (List.length mapped) + 1))%Z.
Proof.
  induction fuel as [|fuel IH]; intros url mapped log log' rows H; [discriminate|].
  simpl in H.
  destruct (fetch url) as [resp|]; [|discriminate].
  destruct (negb (ok resp)); [discriminate|].
  destruct (JSON_parse (body resp)) as [data|]; [|discriminate].
  destruct (page_orders rev (Some m) data mapped) as [mapped'|e] eqn:Ep; [|discriminate].
  apply page_orders_bound in Ep.
  destruct (m <=? Z.of_nat (List.length mapped'))%Z eqn:E.
  - injection H as _ <-. exact Ep.
  - apply Z.leb_gt in E. destruct (next_url (link resp)) as [u|].
    + apply IH in H. lia.
    + injection H as _ <-. exact Ep.
Qed.

(** The cap holds against every upstream: the rows returned are never
    more than [maxResults], and never more than one when [maxResults] is
    zero or negative. *)
Theorem fetchAllOrdersREST_within_cap
    (rev : Revision) (fuel : nat) (created_at_min created_at_max : string)
    (maxResults : Z) (log : list string) (rows : list JSValue) :
  fetchAllOrdersREST rev fuel created_at_min created_at_max (Some maxResults)
    = Some (log, Normal rows) ->
  (Z.of_nat (List.length rows) <= Z.max 1 maxResults)%Z.
Proof.
  unfold fetchAllOrdersREST. intros H.
  destruct (env_missing SHOP || env_missing TOKEN); [discriminate|].
  apply rest_loop_bound in H. simpl in H. lia.
Qed.

Lemma page_orders_uncapped (rev : Revision) (data : JSValue) (rs mapped : list JSValue) :
  page_rows rev data = Normal rs ->
  page_orders rev None data mapped = Normal (mapped ++ rs)%list.
Proof.
  unfold page_rows, page_orders. intros H.
  destruct (truthy data); [|injection H as <-; now rewrite app_nil_r].
  destruct (get data "orders") as [orders|e]; simpl in *; [|discriminate].
  destruct (truthy orders); [|injection H as <-; now rewrite app_nil_r].
  destruct (iterate orders) as [l|e]; simpl in *; [|discriminate].
  rewrite push_orders_uncapped in *.
  destruct (rows_of rev l) as [rs'|e]; simpl in *; [|discriminate].
  now injection H as <-.
Qed.

(** The loop over a chain of pages when the cap is not a number. *)
Lemma rest_loop_pages_uncapped (rev : Revision) :
  forall (pages : list (string * Response)) (rows : list (list JSValue)),
    Forall2 (page_has_rows rev) pages rows ->
    linked pages ->
    forall (u : string) (r : Response) (rest : list (string * Response)),
      pages = (u, r) :: rest ->
      forall (fuel : nat) (mapped : list JSValue) (log : list string),
        (List.length pages <= fuel)%nat ->
        rest_loop rev None fuel u mapped log =
          Some ((log ++ map fst pages)%list, Normal (mapped ++ List.concat rows)%list).
Proof.
  intros pages rows HF. induction HF as [|p rs pages' rows' Hp HF IH];
    intros Hlinked u r rest Heq fuel mapped log Hfuel; [discriminate|].
  injection Heq as -> ->. simpl in Hlinked.
  destruct Hlinked as (Hfetch & Hok & Hnext & Hrest).
  destruct fuel as [|fuel]; [simpl in Hfuel; lia|].
  destruct Hp as (data & Hdata & Hrows). simpl in Hdata.
  simpl rest_loop. rewrite Hfetch, Hok. simpl negb. cbv iota. rewrite Hdata.
  rewrite (page_orders_uncapped rev data rs mapped Hrows).
  simpl cap_reached. cbv iota. rewrite Hnext.
  destruct rest as [|[u' r'] rest']; simpl hd_error; simpl option_map; cbv iota.
  - inversion HF; subst. simpl. now rewrite app_nil_r.
  - simpl in Hfuel.
    rewrite (IH Hrest u' r' rest' eq_refl fuel (mapped ++ rs)%list (log ++ [u])%list)
      by (simpl; lia).
    simpl. now rewrite <- !app_assoc.
Qed.

(** The orders of a page, as [fetchAllOrders] gathers them, are those
    that the page's rows come from. *)
Lemma push_page_rows (data : JSValue) (rs : list JSValue) :
  page_rows Rev1 data = Normal rs ->
  exists l, (forall orders, push_page data orders = Normal (orders ++ l)%list)
            /\ map_orders l = Normal rs.
Proof.
  unfold page_rows, page_orders, push_page. intros H.
  assert (Hmap : forall l, map_orders l = rows_of Rev1 l).
  { induction l as [|o l IHl]; simpl; [reflexivity|]. now rewrite IHl. }
  destruct (truthy data).
  - destruct (get data "orders") as [orders|e]; simpl in *; [|discriminate].
    destruct (truthy orders).
    + destruct (iterate orders) as [l|e]; simpl in *; [|discriminate].
      rewrite push_orders_uncapped in H.
      destruct (rows_of Rev1 l) as [rs'|e] eqn:E; simpl in H; [|discriminate].
      injection H as <-. exists l. split; [reflexivity|]. now rewrite Hmap.
    + injection H as <-. exists []. split; [intros; now rewrite app_nil_r|reflexivity].
  - injection H as <-. exists []. split; [intros; now rewrite app_nil_r|reflexivity].
Qed.

Lemma map_orders_app (a b ra rb : list JSValue) :
  map_orders a = Normal ra -> map_orders b = Normal rb ->
  map_orders (a ++ b) = Normal (ra ++ rb)%list.
Proof.
  revert ra. induction a as [|o a IH]; intros ra Ha Hb; simpl in *.
  - now injection Ha as <-.
  - destruct (mapOrderToRow o) as [row|e]; simpl in *; [|discriminate].
    destruct (map_orders a) as [ra'|e]; simpl in *; [|discriminate].
    injection Ha as <-. now rewrite (IH ra' eq_refl Hb).
Qed.

(** The loop of [fetchAllOrders] over a chain of pages. *)
Lemma orders_loop_pages :
  forall (pages : list (string * Response)) (rows : list (list JSValue)),
    Forall2 (page_has_rows Rev1) pages rows ->
    linked pages ->
    forall (u : string) (r : Response) (rest : list (string * Response)),
      pages = (u, r) :: rest ->
      forall (fuel : nat) (orders : list JSValue) (log : list string),
        (List.length pages <= fuel)%nat ->
        exists l,
          orders_loop fuel u orders log = Some ((log ++ map fst pages)%list, Normal (orders ++ l)%list)
          /\ map_orders l = Normal (List.concat rows).
Proof.
  intros pages rows HF. induction HF as [|p rs pages' rows' Hp HF IH];
    intros Hlinked u r rest Heq fuel orders log Hfuel; [discriminate|].
  injection Heq as -> ->. simpl in Hlinked.
  destruct Hlinked as (Hfetch & Hok & Hnext & Hrest).
  destruct fuel as [|fuel]; [simpl in Hfuel; lia|].
  destruct Hp as (data & Hdata & Hrows). simpl in Hdata.
  destruct (push_page_rows data rs Hrows) as (l & Hpush & Hl).
  simpl orders_loop. rewrite Hfetch, Hok. simpl negb. cbv iota. rewrite Hdata, Hpush, Hnext.
  destruct rest as [|[u' r'] rest']; simpl hd_error; simpl option_map; cbv iota.
  - inversion HF; subst. exists l. simpl. now rewrite app_nil_r.
  - simpl in Hfuel.
    destruct (IH Hrest u' r' rest' eq_refl fuel (orders ++ l)%list (log ++ [u])%list)
      as (l' & Hloop & Hl'); [simpl; lia|].
    exists (l ++ l')%list. split.
    + rewrite Hloop. simpl. now rewrite <- !app_assoc.
    + simpl. now apply map_orders_app.
Qed.

(** Nothing caps the rows when the cap is not a number.  In [Rev1],
    which has no cap, and in the later revisions when the text given as
    [max] (or else [MAX_RESULTS], or else 2000) does not start with a
    number, the handler of [/api/orders] works on the rows of all the
    pages of the chain, and requests every page. *)
Theorem fetched_rows_uncapped
    (rev : Revision) (fuel : nat) (q : Obj) (created_at_min created_at_max : string)
    (first : Response) (more : list (string * Response)) (rows : list (list JSValue)) :
  env_missing SHOP = false ->
  env_missing TOKEN = false ->
  rev = Rev1
  \/ parseInt (js_or (js_or (obj_get q "max") (env_value MAX_RESULTS)) (JStr "2000")) = None ->
  let pages := (orders_url (env_or SHOP "") created_at_min created_at_max, first) :: more in
  linked pages ->
  Forall2 (page_has_rows rev) pages rows ->
  (List.length pages <= fuel)%nat ->
  fetched_rows rev fuel q created_at_min created_at_max
    = Some (map fst pages, Normal (List.concat rows)).
Proof.
  intros Hs Ht Hcap pages Hlinked Hrows Hfuel.
  assert (Hlater : rev <> Rev1 ->
            parseInt (js_or (js_or (obj_get q "max") (env_value MAX_RESULTS)) (JStr "2000")) = None ->
            fetchAllOrdersREST rev fuel created_at_min created_at_max
              (parseInt (js_or (js_or (obj_get q "max") (env_value MAX_RESULTS)) (JStr "2000")))
            = Some (map fst pages, Normal (List.concat rows))).
  { intros _ ->. unfold fetchAllOrdersREST. rewrite Hs, Ht. simpl orb. cbv iota.
    now rewrite (rest_loop_pages_uncapped rev pages rows Hrows Hlinked _ _ _ eq_refl fuel [] []
                   Hfuel). }
  destruct rev; try (destruct Hcap as [Hcap|Hcap]; [discriminate|];
                     unfold fetched_rows; apply Hlater; [discriminate|exact Hcap]).
  unfold fetched_rows, fetchAllOrders. rewrite Hs, Ht. simpl orb. cbv iota.
  destruct (orders_loop_pages pages rows Hrows Hlinked _ _ _ eq_refl fuel [] [] Hfuel)
    as (l & Hloop & Hl).
  rewrite Hloop. simpl. now rewrite Hl.
Qed.

Lemma rows_of_nil (rev : Revision) (l : list JSValue) :
  rows_of rev l = Normal [] -> l = [].
Proof.
  destruct l as [|o l]; [reflexivity|]. simpl.
  destruct (rest_row rev o); simpl; [|discriminate].
  destruct (rows_of rev l); simpl; discriminate.
Qed.

Lemma page_orders_empty (rev : Revision) (cap : Number) (data : JSValue) (mapped : list JSValue) :
  page_rows rev data = Normal [] ->
  page_orders rev cap data mapped = Normal mapped.
Proof.
  unfold page_rows, page_orders. intros H.
  destruct (truthy data); [|reflexivity].
  destruct (get data "orders") as [orders|e]; simpl in *; [|discriminate].
  destruct (truthy orders); [|reflexivity].
  destruct (iterate orders) as [l|e]; simpl in *; [|discriminate].
  rewrite push_orders_uncapped in H.
  destruct (rows_of rev l) as [rs|e] eqn:E; simpl in H; [|discriminate].
  injection H as ->. apply rows_of_nil in E. now subst l.
Qed.

(** The loop trusts the [link] header.  When the first page holds no
    order and names itself as the next page, [fetchAllOrdersREST] never
    returns, under any cap of at least one row and under a cap that is
    not a number: no amount of fuel is enough. *)
Theorem fetchAllOrdersREST_cyclic_link
    (rev : Revision) (created_at_min created_at_max : string) (maxResults : Number)
    (r : Response) (data : JSValue) :
  env_missing SHOP = false ->
  env_missing TOKEN = false ->
  let url := orders_url (env_or SHOP "") created_at_min created_at_max in
  fetch url = Some r ->
  ok r = true ->
  JSON_parse (body r) = Some data ->
  page_rows rev data = Normal [] ->
  next_url (link r) = Some url ->
  match maxResults with
  | Some m => (1 <= m)%Z
  | None => True
  end ->
  forall fuel, fetchAllOrdersREST rev fuel created_at_min created_at_max maxResults = None.
Proof.
  intros Hs Ht url Hf Hok Hj Hrows Hnext Hcap fuel.
  unfold fetchAllOrdersREST. rewrite Hs, Ht. simpl orb. cbv iota. fold url.
  assert (Hopen : cap_reached [] maxResults = false).
  { destruct maxResults as [m|]; [|reflexivity]. simpl. apply Z.leb_gt. lia. }
  generalize (@nil string) as log.
  induction fuel as [|fuel IH]; intros log; [reflexivity|].
  simpl. rewrite Hf, Hok. simpl negb. cbv iota. rewrite Hj.
  rewrite (page_orders_empty rev maxResults data [] Hrows), Hopen, Hnext. apply IH.
Qed.

Lemma push_orders_grows (rev : Revision) (cap : Number) (orders : list JSValue) :
  forall (mapped mapped' : list JSValue),
    push_orders rev cap orders mapped = Normal mapped' ->
    orders <> [] ->
    (List.length mapped < List.length mapped')%nat.
Proof.
  induction orders as [|o rest IH]; intros mapped mapped' H Hne; [contradiction|].
  simpl in H. destruct (rest_row rev o) as [row|e]; simpl in H; [|discriminate].
  destruct (cap_reached (mapped ++ [row]) cap).
  - injection H as <-. rewrite length_app. simpl. lia.
  - destruct rest as [|o' rest'].
    + simpl in H. injection H as <-. rewrite length_app. simpl. lia.
    + apply IH in H; [|discriminate]. rewrite length_app in H. simpl in H. lia.
Qed.

Lemma rest_loop_ends (rev : Revision) (m : Z) :
  (forall u r data, fetch u = Some r -> JSON_parse (body r) = Some data ->
     exists o os, truthy data = true /\ get data "orders" = Normal (JArr (o :: os))) ->
  forall (fuel : nat) (url : string) (mapped : list JSValue) (log : list string),
    (Z.to_nat m <= fuel + List.length mapped)%nat ->
    (1 <= fuel)%nat ->
    exists log' c,
      rest_loop rev (Some m) fuel url mapped log = Some ((log ++ log')%list, c)
      /\ (List.length log' <= fuel)%nat.
Proof.
  intros Hpages. induction fuel as [|fuel IH]; intros url mapped log Hm Hf; [lia|].
  simpl.
  destruct (fetch url) as [resp|] eqn:Ef; [|exists [url]; eexists; split; [reflexivity|simpl; lia]].
  destruct (negb (ok resp)); [exists [url]; eexists; split; [reflexivity|simpl; lia]|].
  destruct (JSON_parse (body resp)) as [data|] eqn:Ej;
    [|exists [url]; eexists; split; [reflexivity|simpl; lia]].
  destruct (Hpages url resp data Ef Ej) as (o & os & Hd & Ho).
  destruct (page_orders rev (Some m) data mapped) as [mapped'|e] eqn:Ep;
    [|exists [url]; eexists; split; [reflexivity|simpl; lia]].
  assert (Hgrow : (List.length mapped < List.length mapped')%nat).
  { unfold page_orders in Ep. rewrite Hd, Ho in Ep. simpl in Ep.
    change (push_orders rev (Some m) (o :: os) mapped = Normal mapped') in Ep.
    apply push_orders_grows in Ep; [exact Ep|discriminate]. }
  destruct (m <=? Z.of_nat (List.length mapped'))%Z eqn:E;
    [exists [url]; eexists; split; [reflexivity|simpl; lia]|].
  apply Z.leb_gt in E.
  destruct (next_url (link resp)) as [u|];
    [|exists [url]; eexists; split; [reflexivity|simpl; lia]].
  destruct fuel as [|fuel']; [lia|].
  destruct (IH u mapped' (log ++ [url])%list) as (log' & c & Hl & Hlen); [lia|lia|].
  exists (url :: log'), c. split.
  - rewrite Hl. now rewrite <- app_assoc.
  - simpl. lia.
Qed.

(** Under a cap the loop ends by itself when no page is empty.  When
    every page that the upstream serves holds at least one order,
    [fetchAllOrdersREST] under a cap of [maxResults] rows returns after
    at most [maxResults] requests, whatever the [link] headers name. *)
Theorem fetchAllOrdersREST_requests_bounded
    (rev : Revision) (created_at_min created_at_max : string) (maxResults : Z) :
  (1 <= maxResults)%Z ->
  (forall u r data, fetch u = Some r -> JSON_parse (body r) = Some data ->
     exists o os, truthy data = true /\ get data "orders" = Normal (JArr (o :: os))) ->
  exists log c,
    fetchAllOrdersREST rev (Z.to_nat maxResults) created_at_min created_at_max (Some maxResults)
      = Some (log, c)
    /\ (List.length log <= Z.to_nat maxResults)%nat.
Proof.
  intros Hm Hpages. unfold fetchAllOrdersREST.
  destruct (env_missing SHOP || env_missing TOKEN).
  - eexists; eexists. split; [reflexivity|simpl; lia].
  - destruct (rest_loop_ends rev maxResults Hpages (Z.to_nat maxResults)
                (orders_url (env_or SHOP "") created_at_min created_at_max) [] [])
      as (log & c & H & Hlen); [simpl; lia|lia|].
    exists log, c. split; [exact H|exact Hlen].
Qed.

(* ------------------------------------------------------------------ *)
(** *** Paging *)

Lemma firstn_skipn_add {A} (a b : nat) (l : list A) :
  (firstn a l ++ firstn b (skipn a l))%list = firstn (a + b) l.
Proof.
  revert l. induction a as [|a IH]; intros l; [reflexivity|].
  destruct l as [|x l]; simpl.
  - now rewrite firstn_nil.
  - now rewrite IH.
Qed.

(** The page [p] for the page size [ps], both within their bounds. *)
Lemma api_orders_slice (rev : Revision) (all : list JSValue) (p ps : Z) :
  (1 <= p)%Z -> (1 <= ps <= 1000)%Z ->
  api_orders rev all (Some p) (Some ps) =
    firstn (Z.to_nat ps) (skipn ((Z.to_nat p - 1) * Z.to_nat ps) (js_sort (compare_rows rev) all)).
Proof.
  intros Hp Hps. unfold api_orders, num_max, num_min, option_map, slice.
  rewrite (Z.min_r 1000 ps) by lia. rewrite (Z.max_r 1 ps) by lia. rewrite (Z.max_r 1 p) by lia.
  f_equal; [|f_equal]; nia.
Qed.

(** The pages tile the sorted rows.  For a page size [pageSize], which
    counts as 1 below 1 and as 1000 above 1000, the pages 1 to [k] one
    after the other are the first [k] times that many rows of the sorted
    list, which holds the fetched rows, each once: no row is lost or
    repeated between two pages. *)
Theorem api_orders_pages_tile (rev : Revision) (all : list JSValue) (pageSize : Z) (k : nat) :
  let ps := Z.to_nat (Z.max 1 (Z.min 1000 pageSize)) in
  List.concat (map (fun p => api_orders rev all (Some (Z.of_nat p)) (Some pageSize)) (seq 1 k))
    = firstn (k * ps) (js_sort (compare_rows rev) all)
  /\ Permutation (js_sort (compare_rows rev) all) all.
Proof.
  intros ps. split; [|apply Permutation_sym, js_sort_perm].
  assert (Hpage : forall p, (1 <= p)%nat ->
             api_orders rev all (Some (Z.of_nat p)) (Some pageSize) =
               firstn ps (skipn ((p - 1) * ps) (js_sort (compare_rows rev) all))).
  { intros p Hp.
    transitivity (api_orders rev all (Some (Z.of_nat p))
                    (Some (Z.max 1 (Z.min 1000 pageSize)))).
    - unfold api_orders, num_max, num_min, option_map.
      rewrite (Z.min_r 1000 (Z.max 1 (Z.min 1000 pageSize))) by lia.
      rewrite (Z.max_r 1 (Z.max 1 (Z.min 1000 pageSize))) by lia. reflexivity.
    - rewrite api_orders_slice by lia. unfold ps. now rewrite Nat2Z.id. }
  induction k as [|k IH]; [reflexivity|].
  rewrite seq_S, map_app, concat_app, IH. cbn [map List.concat].
  rewrite app_nil_r, Hpage by lia.
  replace (1 + k - 1)%nat with k by lia.
  rewrite firstn_skipn_add. f_equal. lia.
Qed.

(** The bounds of a page.  A page never holds more than 1000 rows; a
    page number below 1 gives the first page, a page size below 1 gives
    one row and above 1000 gives 1000 rows; when the page number or the
    page size is not a number the page is empty. *)
Theorem api_orders_page_bounds (rev : Revision) (all : list JSValue) (page pageSize : Number) :
  (List.length (api_orders rev all page pageSize) <= 1000)%nat
  /\ (page = None \/ pageSize = None -> api_orders rev all page pageSize = [])
  /\ (forall p ps, page = Some p -> pageSize = Some ps ->
        api_orders rev all page pageSize =
          firstn (Z.to_nat (Z.max 1 (Z.min 1000 ps)))
            (skipn ((Z.to_nat (Z.max 1 p) - 1) * Z.to_nat (Z.max 1 (Z.min 1000 ps)))
               (js_sort (compare_rows rev) all))).
Proof.
  assert (H3 : forall p ps,
             api_orders rev all (Some p) (Some ps) =
               firstn (Z.to_nat (Z.max 1 (Z.min 1000 ps)))
                 (skipn ((Z.to_nat (Z.max 1 p) - 1) * Z.to_nat (Z.max 1 (Z.min 1000 ps)))
                    (js_sort (compare_rows rev) all))).
  { intros p ps.
    transitivity (api_orders rev all (Some (Z.max 1 p)) (Some (Z.max 1 (Z.min 1000 ps)))).
    - unfold api_orders, num_max, num_min, option_map.
      rewrite (Z.min_r 1000 (Z.max 1 (Z.min 1000 ps))) by lia.
      rewrite (Z.max_r 1 (Z.max 1 (Z.min 1000 ps))) by lia.
      rewrite (Z.max_r 1 (Z.max 1 p)) by lia. reflexivity.
    - apply api_orders_slice; lia. }
  assert (H2 : page = None \/ pageSize = None -> api_orders rev all page pageSize = []).
  { intros [->| ->]; unfold api_orders, num_max, num_min, option_map, slice;
      [|destruct page]; reflexivity. }
  split; [|split].
  - destruct page as [p|]; [destruct pageSize as [ps|]|].
    + rewrite H3. rewrite length_firstn. lia.
    + rewrite H2 by now right. simpl. lia.
    + rewrite H2 by now left. simpl. lia.
  - exact H2.
  - intros p ps -> ->. apply H3.
Qed.

(* ------------------------------------------------------------------ *)
(** *** The handlers of [/api/orders], [/api/export.csv] and
        [/api/bulk/start] *)

Lemma date_range_invalid (start end_ : JSValue) :
  new_Date (JStr (toString start ++ "T00:00:00Z")) = None
  \/ new_Date (JStr (toString end_ ++ "T23:59:59Z")) = None ->
  date_range start end_ = Throw (Error "Invalid time value").
Proof.
  unfold date_range, iso_date. intros [H|H].
  - now rewrite H.
  - rewrite H. now destruct (new_Date (JStr (toString start ++ "T00:00:00Z"))).
Qed.

(** The date range is checked before anything is asked of the upstream.
    A request without [start] or without [end] is answered with the
    status 400, and a request whose [start] or [end] does not make a
    valid date with the status 500 and the message of the [RangeError];
    in both cases no request is sent.  This holds for [/api/orders] in
    every revision, for [/api/export.csv] in [Rev3] and [Rev4] (which
    does not read the dates when [useBulk] is 1), and for
    [/api/bulk/start], which reads the dates from the body first. *)
Theorem date_range_checked_first (rev : Revision) (fuel : nat) (req : Request) :
  let q := req_query req in
  let missing := Json 400 (error_payload "start and end required (YYYY-MM-DD)") in
  let invalid := Failure (Error "Invalid time value") in
  (truthy (obj_get q "start") = false \/ truthy (obj_get q "end") = false ->
     api_orders_handler rev fuel req = Some ([], missing)
     /\ (rev = Rev3 \/ rev = Rev4 -> export_csv rev fuel req = Some ([], missing)))
  /\ (truthy (obj_get q "start") = true -> truthy (obj_get q "end") = true ->
      new_Date (JStr (toString (obj_get q "start") ++ "T00:00:00Z")) = None
      \/ new_Date (JStr (toString (obj_get q "end") ++ "T23:59:59Z")) = None ->
      api_orders_handler rev fuel req = Some ([], invalid)
      /\ (rev = Rev3 \/ rev = Rev4 -> differs (query_or q "useBulk" "0") "1" = true ->
          export_csv rev fuel req = Some ([], invalid)))
  /\ (rev <> Rev1 ->
      truthy (posted_or_query req "start") = false
      \/ truthy (posted_or_query req "end") = false ->
      bulk_start rev req = ([], missing))
  /\ (rev <> Rev1 ->
      truthy (posted_or_query req "start") = true ->
      truthy (posted_or_query req "end") = true ->
      new_Date (JStr (toString (posted_or_query req "start") ++ "T00:00:00Z")) = None
      \/ new_Date (JStr (toString (posted_or_query req "end") ++ "T23:59:59Z")) = None ->
      bulk_start rev req = ([], invalid)).
Proof.
  intros q missing invalid. split; [|split; [|split]].
  - intros H.
    assert (Hm : negb (truthy (obj_get q "start")) || negb (truthy (obj_get q "end")) = true)
      by (destruct H as [-> | ->]; [reflexivity|apply orb_true_r]).
    unfold api_orders_handler, export_csv. fold q. rewrite Hm. split; [reflexivity|].
    intros _. reflexivity.
  - intros Hs He Hbad. apply date_range_invalid in Hbad.
    unfold api_orders_handler, export_csv. fold q. rewrite Hs, He, Hbad. simpl. split.
    + reflexivity.
    + intros _ ->. reflexivity.
  - intros _ H.
    assert (Hm : negb (truthy (posted_or_query req "start"))
                 || negb (truthy (posted_or_query req "end")) = true)
      by (destruct H as [-> | ->]; [reflexivity|apply orb_true_r]).
    unfold bulk_start. now rewrite Hm.
  - intros _ Hs He Hbad. apply date_range_invalid in Hbad.
    unfold bulk_start. now rewrite Hs, He, Hbad.
Qed.

Lemma fetchOrdersCount_log (created_at_min created_at_max : string) :
  (List.length (fst (fetchOrdersCount created_at_min created_at_max)) <= 1)%nat.
Proof.
  unfold fetchOrdersCount.
  destruct (env_missing SHOP || env_missing TOKEN); simpl; [lia|].
  destruct (fetch _) as [r|]; simpl; [|lia].
  destruct (negb (ok r)); simpl; [lia|].
  destruct (JSON_parse (body r)); simpl; lia.
Qed.

(** The reply of [/api/orders] once the rows are fetched.  The total is
    the number of rows fetched, under the cap, and not the size of the
    page; the orders are the page of the sorted rows.  In [Rev3] and
    [Rev4] a failure of the count request does not fail the reply: the
    field [shopify_total] is [null] then, and the count otherwise; the
    count costs at most one more request, sent after the pages. *)
Theorem api_orders_handler_reply
    (rev : Revision) (fuel : nat) (req : Request) (created_at_min created_at_max : string)
    (log : list string) (all : list JSValue) :
  let q := req_query req in
  truthy (obj_get q "start") = true ->
  truthy (obj_get q "end") = true ->
  date_range (obj_get q "start") (obj_get q "end") = Normal (created_at_min, created_at_max) ->
  fetched_rows rev fuel q created_at_min created_at_max = Some (log, Normal all) ->
  let page := parseInt (query_or q "page" "1") in
  let pageSize := parseInt (query_or q "pageSize" "100") in
  exists (log' : list string) (payload : Obj),
    api_orders_handler rev fuel req = Some ((log ++ log')%list, Json 200 (JObj payload))
    /\ obj_get payload "orders" = JArr (api_orders rev all page pageSize)
    /\ obj_get payload "page" = num (num_max 1 page)
    /\ obj_get payload "pageSize" = num (num_max 1 (num_min 1000 pageSize))
    /\ match rev with
       | Rev1 | Rev2 =>
           log' = [] /\ obj_get payload "total" = JNum (Z.of_nat (List.length all))
       | _ =>
           log' = fst (fetchOrdersCount created_at_min created_at_max)
           /\ (List.length log' <= 1)%nat
           /\ obj_get payload "total_fetched" = JNum (Z.of_nat (List.length all))
           /\ obj_get payload "shopify_total" =
                match snd (fetchOrdersCount created_at_min created_at_max) with
                | Normal n => n
                | Throw _ => JNull
                end
       end.
Proof.
  intros q Hs He Hd Hf page pageSize.
  unfold api_orders_handler. fold q. rewrite Hs, He, Hd. simpl negb. simpl orb. cbv iota.
  rewrite Hf. fold page. fold pageSize.
  pose proof (fetchOrdersCount_log created_at_min created_at_max) as Hlen.
  destruct rev.
  - eexists; eexists. split; [rewrite app_nil_r; reflexivity|]. repeat split.
  - eexists; eexists. split; [rewrite app_nil_r; reflexivity|]. repeat split.
  - unfold shopify_total.
    destruct (fetchOrdersCount created_at_min created_at_max) as [log' c].
    eexists; eexists. split; [reflexivity|]. repeat split. exact Hlen.
  - unfold shopify_total.
    destruct (fetchOrdersCount created_at_min created_at_max) as [log' c].
    eexists; eexists. split; [reflexivity|]. repeat split. exact Hlen.
Qed.

(* ------------------------------------------------------------------ *)
(** *** [/api/export.csv] *)

Lemma write_rows_shown (rev : Revision) (preview : Number) (rows : list JSValue)
    (out : list string) :
  fst (write_rows rev preview rows (out, O))
    = (out ++ map (row_chunk rev) (rows_shown preview rows))%list.
Proof.
  unfold rows_shown. destruct preview as [p|].
  - destruct (p =? 0)%Z eqn:E0.
    + apply Z.eqb_eq in E0. subst p. now rewrite write_rows_unlimited.
    + apply Z.eqb_neq in E0. destruct (Z_lt_le_dec p 1) as [Hneg|Hpos].
      * rewrite Z.max_l by lia. destruct rows as [|r rest]; [simpl; now rewrite app_nil_r|].
        cbn [write_rows fst snd]. unfold preview_reached.
        replace (p =? 0)%Z with false by (symmetry; apply Z.eqb_neq; lia).
        replace (p <=? Z.of_nat 1)%Z with true by (symmetry; apply Z.leb_le; lia).
        reflexivity.
      * rewrite Z.max_r by lia. rewrite write_rows_preview by lia.
        now rewrite Nat.sub_0_r.
  - generalize O as count. revert out.
    induction rows as [|r rest IH]; intros out count; [simpl; now rewrite app_nil_r|].
    cbn [write_rows fst snd preview_reached]. rewrite IH. unfold row_chunk.
    cbn [map]. now rewrite <- app_assoc.
Qed.

(** The REST export is CSV, in the order of delivery.  When
    [/api/export.csv] streams an export, the rows are those that
    [fetchAllOrdersREST] returned for the date range under the cap
    [MAX_RESULTS], or 5000, unsorted, and a CSV reader gets the column
    names and then the cells of the rows that the preview shows back
    from the response: all the rows for a preview of 0 or one that is
    not a number, the first [preview] rows for a positive one, the first
    row alone for a negative one. *)
Theorem export_csv_reads_back
    (rev : Revision) (fuel : nat) (req : Request) (log : list string)
    (chunks : list string) (ended : completion unit) :
  rev = Rev3 \/ rev = Rev4 ->
  export_csv rev fuel req = Some (log, Csv chunks ended) ->
  let q := req_query req in
  exists (created_at_min created_at_max : string) (rows : list JSValue),
    date_range (obj_get q "start") (obj_get q "end") = Normal (created_at_min, created_at_max)
    /\ fetchAllOrdersREST rev fuel created_at_min created_at_max
         (parseInt (js_or (env_value MAX_RESULTS) (JStr "5000"))) = Some (log, Normal rows)
    /\ ended = Normal tt
    /\ csv_read (response_text chunks)
       = Some (columns :: map row_cells (rows_shown (parseInt (query_or q "preview" "0")) rows)).
Proof.
  intros Hrev H q. unfold export_csv in H. fold q in H.
  destruct (negb (truthy (obj_get q "start")) || negb (truthy (obj_get q "end")));
    [discriminate|].
  destruct (negb (differs (query_or q "useBulk" "0") "1")).
  - destruct (currentBulkOperation rev) as [log0 c]. destruct c as [op|e]; [|discriminate].
    destruct (negb (truthy op)); [discriminate|].
    destruct (differs (prop op "status") "COMPLETED"); discriminate.
  - destruct (date_range (obj_get q "start") (obj_get q "end")) as [[lo hi]|e]; [|discriminate].
    destruct (fetchAllOrdersREST rev fuel lo hi _) as [[log1 [rows|e]]|] eqn:Ef;
      try discriminate.
    injection H as <- <- <-. exists lo, hi, rows.
    split; [reflexivity|]. split; [exact Ef|]. split; [reflexivity|].
    assert (Heol : eol rev = String newline EmptyString)
      by (destruct Hrev as [-> | ->]; reflexivity).
    rewrite write_rows_shown. unfold csv_read. cbn [app response_text fold_right].
    change (fold_right append EmptyString
              (map (row_chunk rev) (rows_shown (parseInt (query_or q "preview" "0")) rows)))
      with (response_text
              (map (row_chunk rev) (rows_shown (parseInt (query_or q "preview" "0")) rows))).
    transitivity (csv_read_from FieldStart EmptyString [] [columns]
                    (response_text
                       (map (row_chunk rev)
                          (rows_shown (parseInt (query_or q "preview" "0")) rows)))).
    + reflexivity.
    + now rewrite csv_read_rows.
Qed.

(* ------------------------------------------------------------------ *)
(** *** [/api/bulk/download], the whole handler *)

Lemma download_loop_negative (rev : Revision) (p : Z) (text : string) (parsed : JSValue)
    (rows : list JSValue) (post : list string) :
  (p < 0)%Z ->
  (text =? "") || blank text = false ->
  JSON_parse text = Some parsed ->
  line_rows rev parsed = Normal rows ->
  forall (pre : list string) (out : list string) (taken : nat),
    Forall (fun l => (l =? "") || blank l = true \/ JSON_parse l = None) pre ->
    download_loop rev (Some p) (pre ++ text :: post) (out, O) taken =
      {| written := (out ++ map (row_chunk rev) (firstn 1 rows))%list;
         consumed := S (taken + List.length pre);
         outcome := Normal tt |}.
Proof.
  intros Hp Hblank Hparse Hrows. induction pre as [|l pre IH]; intros out taken Hpre.
  - cbn [app download_loop]. rewrite Hblank, Hparse, Hrows.
    assert (Hreached : forall w : Written, preview_reached (Some p) (snd w) = true).
    { intros w. unfold preview_reached.
      replace (p =? 0)%Z with false by (symmetry; apply Z.eqb_neq; lia).
      simpl. apply Z.leb_le. lia. }
    rewrite Hreached. rewrite write_rows_shown. unfold rows_shown.
    replace (p =? 0)%Z with false by (symmetry; apply Z.eqb_neq; lia).
    rewrite Z.max_l by lia. simpl List.length. now rewrite Nat.add_0_r.
  - inversion Hpre as [|? ? Hl Hpre']; subst. cbn [app download_loop].
    assert (Hskip : download_loop rev (Some p) (l :: pre ++ text :: post) (out, O) taken
                    = download_loop rev (Some p) (pre ++ text :: post) (out, O) (S taken)).
    { cbn [download_loop]. destruct Hl as [Hl|Hl]; [now rewrite Hl|].
      rewrite Hl. now destruct ((l =? "") || blank l). }
    cbn [download_loop] in Hskip. rewrite Hskip, IH by exact Hpre'.
    simpl List.length. f_equal. lia.
Qed.

(** A negative preview shows one row at most.  The download then ends
    with the first line that is JSON, whatever follows it: it writes the
    header and the first row of that line, if the line has one, and the
    lines before it, blank or not JSON, are skipped. *)
Theorem bulk_download_negative_preview
    (rev : Revision) (p : Z) (pre : list string) (text : string) (parsed : JSValue)
    (rows : list JSValue) (post : list string) :
  (p < 0)%Z ->
  Forall (fun l => (l =? "") || blank l = true \/ JSON_parse l = None) pre ->
  (text =? "") || blank text = false ->
  JSON_parse text = Some parsed ->
  line_rows rev parsed = Normal rows ->
  bulk_download rev (Some p) (pre ++ text :: post) =
    {| written := header_chunk rev :: map (row_chunk rev) (firstn 1 rows);
       consumed := S (List.length pre);
       outcome := Normal tt |}.
Proof.
  intros Hp Hpre Hblank Hparse Hrows. unfold bulk_download.
  now rewrite (download_loop_negative rev p text parsed rows post Hp Hblank Hparse Hrows
                 pre _ O Hpre).
Qed.

Lemma write_rows_prefix (rev : Revision) (preview : Number) (rows : list JSValue) :
  forall w : Written, exists more, fst (write_rows rev preview rows w) = (fst w ++ more)%list.
Proof.
  induction rows as [|r rest IH]; intros w; [exists []; simpl; now rewrite app_nil_r|].
  cbn [write_rows]. fold (row_chunk rev r).
  destruct (preview_reached preview (snd ((fst w ++ [row_chunk rev r])%list, S (snd w)))).
  - now exists [row_chunk rev r].
  - destruct (IH ((fst w ++ [row_chunk rev r])%list, S (snd w))) as (more & Hm).
    exists (row_chunk rev r :: more). rewrite Hm. simpl. now rewrite <- app_assoc.
Qed.

Lemma download_loop_prefix (rev : Revision) (preview : Number) (lines : list string) :
  forall (w : Written) (taken : nat),
    exists more, written (download_loop rev preview lines w taken) = (fst w ++ more)%list.
Proof.
  induction lines as [|line rest IH]; intros w taken;
    [exists []; simpl; now rewrite app_nil_r|].
  cbn [download_loop].
  destruct ((line =? "") || blank line); [apply IH|].
  destruct (JSON_parse line) as [parsed|]; [|apply IH].
  destruct (line_rows rev parsed) as [rows|e]; [|exists []; simpl; now rewrite app_nil_r].
  destruct (write_rows_prefix rev preview rows w) as (m1 & H1).
  destruct (preview_reached preview (snd (write_rows rev preview rows w))).
  - exists m1. exact H1.
  - destruct (IH (write_rows rev preview rows w) (S taken)) as (m2 & H2).
    exists (m1 ++ m2)%list. rewrite H2, H1. now rewrite app_assoc.
Qed.

(** The gate of the download.  A CSV response is only ever begun when
    the current bulk operation is reported as [COMPLETED] with a URL and
    that URL was fetched with a success status: the response then starts
    with the header and goes on as the lines of the file decide, and the
    handler sent the status query and the download, nothing else.
    Otherwise the file is not requested: without an operation, or
    without a status, the reply is 404; with another status it is 400
    and names the status; without a URL it is 500. *)
Theorem bulk_download_handler_gate (rev : Revision) (req : Request) :
  let given := obj_get (req_query req) "preview" in
  let preview := if truthy given then parseInt given else Some 0%Z in
  let asked := fst (currentBulkOperation rev) in
  (forall log chunks ended,
      bulk_download_handler rev req = (log, Csv chunks ended) ->
      exists op fetchRes more,
        snd (currentBulkOperation rev) = Normal op
        /\ prop op "status" = JStr "COMPLETED"
        /\ truthy (prop op "url") = true
        /\ log = (asked ++ [toString (prop op "url")])%list
        /\ fetch (toString (prop op "url")) = Some fetchRes
        /\ ok fetchRes = true
        /\ chunks = written (bulk_download rev preview (gunzip_lines (body fetchRes)))
        /\ ended = outcome (bulk_download rev preview (gunzip_lines (body fetchRes)))
        /\ chunks = header_chunk rev :: more)
  /\ (forall op,
      snd (currentBulkOperation rev) = Normal op ->
      (truthy op = false \/ truthy (prop op "status") = false ->
       bulk_download_handler rev req
       = (asked, Json 404 (error_payload "No bulk operation found. Start one first.")))
      /\ (truthy op = true -> truthy (prop op "status") = true ->
          prop op "status" <> JStr "COMPLETED" ->
          bulk_download_handler rev req
          = (asked, Json 400 (error_payload ("Bulk operation not ready. Status: "
                                               ++ toString (prop op "status")))))
      /\ (truthy op = true -> prop op "status" = JStr "COMPLETED" ->
          truthy (prop op "url") = false ->
          bulk_download_handler rev req
          = (asked, Json 500 (error_payload "Bulk operation completed but no URL returned."))))
  /\ (forall e,
      snd (currentBulkOperation rev) = Throw e ->
      bulk_download_handler rev req = (asked, Failure e)).
Proof.
  intros given preview asked. unfold asked. unfold bulk_download_handler.
  fold given. fold preview.
  destruct (currentBulkOperation rev) as [log0 c]. cbn [fst snd].
  split; [|split].
  - intros log chunks ended H. destruct c as [op|e]; [|discriminate].
    destruct (negb (truthy op) || negb (truthy (prop op "status"))); [discriminate|].
    destruct (differs (prop op "status") "COMPLETED") eqn:Ed; [discriminate|].
    apply differs_false in Ed.
    destruct (truthy (prop op "url")) eqn:Eu; simpl negb in H; cbv iota in H; [|discriminate].
    destruct (fetch (toString (prop op "url"))) as [fetchRes|] eqn:Ef; [|discriminate].
    destruct (ok fetchRes) eqn:Eok; simpl negb in H; cbv iota in H; [|discriminate].
    injection H as <- <- <-.
    destruct (download_loop_prefix rev preview (gunzip_lines (body fetchRes))
                ([String.concat "," columns ++ eol rev], O) O) as (more & Hmore).
    exists op, fetchRes, more. repeat (split; [reflexivity || assumption|]).
    exact Hmore.
  - intros op [= ->]. split; [|split].
    + intros [H|H]; rewrite H; [reflexivity|]. now rewrite orb_true_r.
    + intros Ho Hs Hne. rewrite Ho, Hs. simpl.
      destruct (differs (prop op "status") "COMPLETED") eqn:Ed; [reflexivity|].
      apply differs_false in Ed. contradiction.
    + intros Ho Hs Hu. rewrite Ho, Hs, Hu. reflexivity.
  - intros e [= ->]. reflexivity.
Qed.

(** With [useBulk=1] the export asks for the state of the bulk operation
    and nothing else: the REST orders are not fetched and the dates are
    not parsed, whatever the fuel.  The reply redirects to
    [/api/bulk/download], with the preview percent-encoded, only when an
    operation is reported as [COMPLETED]; it is 400 otherwise. *)
Theorem export_csv_use_bulk (rev : Revision) (fuel : nat) (req : Request) :
  let q := req_query req in
  rev = Rev3 \/ rev = Rev4 ->
  truthy (obj_get q "start") = true ->
  truthy (obj_get q "end") = true ->
  obj_get q "useBulk" = JStr "1" ->
  exists reply,
    export_csv rev fuel req = Some (fst (currentBulkOperation rev), reply)
    /\ match snd (currentBulkOperation rev) with
       | Throw e => reply = Failure e
       | Normal op =>
           if truthy op && negb (differs (prop op "status") "COMPLETED")
           then reply = Redirect 303
                          ("/api/bulk/download?preview="
                             ++ encodeURIComponent
                                  (toString (js_or (query_or q "preview" "0") (JStr "0"))))
           else exists message, reply = Json 400 (error_payload message)
       end.
Proof.
  intros q _ Hs He Hb. unfold export_csv. fold q. rewrite Hs, He.
  unfold query_or at 1. rewrite Hb. simpl.
  destruct (currentBulkOperation rev) as [log c]. cbn [fst snd].
  destruct c as [op|e]; [|eexists; split; reflexivity].
  destruct (truthy op); simpl; [|eexists; split; [reflexivity|eexists; reflexivity]].
  destruct (differs (prop op "status") "COMPLETED"); simpl.
  - eexists; split; [reflexivity|eexists; reflexivity].
  - eexists; split; reflexivity.
Qed.

(* ------------------------------------------------------------------ *)
(** *** The [link] header *)

Lemma prefix_append (a b : string) : String.prefix a (a ++ b) = true.
Proof.
  induction a as [|c a IH]; simpl; [now destruct b|].
  destruct (ascii_dec c c) as [_|Hn]; [exact IH|contradiction].
Qed.

Lemma includes_prefix (a b : string) : includes (a ++ b) a = true.
Proof.
  assert (H : forall s, includes s a = String.prefix a s || includes s a)
    by (intros s; destruct s; cbn [includes];
        match goal with |- ?x || _ = _ => destruct x end; reflexivity).
  rewrite H, prefix_append. reflexivity.
Qed.

Lemma includes_append (a b sub : string) :
  includes b sub = true -> includes (a ++ b) sub = true.
Proof.
  intros H. induction a as [|c a IH]; [exact H|].
  simpl. rewrite IH. apply orb_true_r.
Qed.

Lemma span_not_gt_append (u rest : string) :
  mentions ">" u = false ->
  span_not_gt (u ++ String ">" rest) = (u, String ">" rest).
Proof.
  induction u as [|c u IH]; intros H; [reflexivity|].
  simpl in H. apply orb_false_iff in H. destruct H as [Hc Hu].
  simpl. rewrite Hc, (IH Hu). reflexivity.
Qed.

Lemma match_here_next (u tail : string) :
  u <> "" -> mentions ">" u = false ->
  match_here (String "<" (u ++ String ">" ("; " ++ rel_next ++ tail))) = Some u.
Proof.
  intros Hne Hu. unfold match_here. simpl Ascii.eqb. cbv iota.
  rewrite (span_not_gt_append u _ Hu).
  replace (u =? "") with false by (symmetry; now apply String.eqb_neq).
  simpl negb. simpl andb.
  change (String ">" ("; " ++ rel_next ++ tail)) with ((">; " ++ rel_next) ++ tail).
  unfold startsWith. simpl. now destruct tail.
Qed.

(** No match starts inside [p] when what follows the [>] that ends it is
    the relation [previous]. *)
Lemma link_match_previous (tail : string) :
  forall p : string,
    mentions ">" p = false ->
    link_match (p ++ ">; rel=" ++ String dquote ("previous" ++ String dquote tail))
      = link_match tail.
Proof.
  assert (Hlit : link_match (">; rel=" ++ String dquote ("previous" ++ String dquote tail))
                 = link_match tail) by reflexivity.
  induction p as [|c p IH]; intros Hp; [exact Hlit|].
  simpl in Hp. apply orb_false_iff in Hp. destruct Hp as [Hc Hp].
  change ((String c p) ++ ">; rel=" ++ String dquote ("previous" ++ String dquote tail))
    with (String c (p ++ ">; rel=" ++ String dquote ("previous" ++ String dquote tail))).
  cbn [link_match]. rewrite (IH Hp).
  replace (match_here (String c (p ++ ">; rel=" ++ String dquote ("previous" ++ String dquote tail))))
    with (@None string); [reflexivity|].
  unfold match_here. destruct (Ascii.eqb c "<"); [|reflexivity].
  change (p ++ ">; rel=" ++ String dquote ("previous" ++ String dquote tail))
    with (p ++ String ">" ("; rel=" ++ String dquote ("previous" ++ String dquote tail))).
  rewrite (span_not_gt_append p _ Hp). now destruct (negb (p =? "")).
Qed.

(** How the next page is read off the [link] header.  A header that
    names the next page gives its URL, also when the previous page is
    named before it; a header that names the previous page alone, or no
    header, gives nothing, which ends the loop. *)
Theorem next_url_reads_next (p u : string) :
  u <> "" ->
  mentions ">" u = false ->
  mentions ">" p = false ->
  next_url (Some (link_to u "next")) = Some u
  /\ next_url (Some (link_to p "previous" ++ ", " ++ link_to u "next")) = Some u
  /\ next_url (Some (link_to p "previous")) = None
  /\ next_url None = None.
Proof.
  intros Hne Hu Hp.
  assert (Hnext : forall tail, link_match (link_to u "next" ++ tail) = Some u).
  { intros tail. unfold link_to.
    change (("<" ++ u ++ ">; rel=" ++ String dquote ("next" ++ String dquote EmptyString)) ++ tail)
      with (String "<" ((u ++ String ">" ("; " ++ rel_next)) ++ tail)).
    rewrite append_assoc.
    change (String ">" ("; " ++ rel_next) ++ tail) with (String ">" ("; " ++ rel_next ++ tail)).
    cbn [link_match]. now rewrite (match_here_next u tail Hne Hu). }
  assert (Hinc : forall a tail, includes (a ++ link_to u "next" ++ tail) rel_next = true).
  { intros a tail. apply includes_append. unfold link_to.
    change ("<" ++ u ++ ">; rel=" ++ String dquote ("next" ++ String dquote EmptyString))
      with (String "<" (u ++ ">; " ++ rel_next)).
    change (String "<" (u ++ ">; " ++ rel_next) ++ tail)
      with (String "<" ((u ++ ">; " ++ rel_next) ++ tail)).
    rewrite append_assoc.
    change ((">; " ++ rel_next) ++ tail) with (">; " ++ rel_next ++ tail).
    apply (includes_append (String "<" u)), (includes_append ">; "), includes_prefix. }
  split; [|split; [|split]].
  - unfold next_url. specialize (Hinc EmptyString EmptyString). specialize (Hnext EmptyString).
    change (EmptyString ++ link_to u "next" ++ EmptyString)
      with (link_to u "next" ++ EmptyString) in Hinc.
    rewrite append_nil_r in Hinc, Hnext. rewrite Hinc.
    replace (link_to u "next" =? "") with false by reflexivity. exact Hnext.
  - unfold next_url.
    replace (link_to p "previous" ++ ", " ++ link_to u "next" =? "") with false by reflexivity.
    specialize (Hinc (link_to p "previous" ++ ", ") EmptyString).
    rewrite append_nil_r, append_assoc in Hinc. rewrite Hinc. simpl negb. simpl andb.
    unfold link_to at 1.
    change (("<" ++ p ++ ">; rel=" ++ String dquote ("previous" ++ String dquote EmptyString))
              ++ ", " ++ link_to u "next")
      with (String "<" (p ++ ">; rel=" ++ String dquote ("previous" ++ String dquote EmptyString))
              ++ ", " ++ link_to u "next").
    change (String "<" (p ++ ">; rel=" ++ String dquote ("previous" ++ String dquote EmptyString))
              ++ ", " ++ link_to u "next")
      with (String "<" ((p ++ ">; rel=" ++ String dquote ("previous" ++ String dquote EmptyString))
                          ++ ", " ++ link_to u "next")).
    rewrite append_assoc.
    change ((">; rel=" ++ String dquote ("previous" ++ String dquote EmptyString))
              ++ ", " ++ link_to u "next")
      with (">; rel=" ++ String dquote ("previous" ++ String dquote (", " ++ link_to u "next"))).
    cbn [link_match].
    rewrite (link_match_previous (", " ++ link_to u "next") p Hp).
    replace (match_here (String "<" (p ++ ">; rel=" ++ String dquote
                                           ("previous" ++ String dquote (", " ++ link_to u "next")))))
      with (@None string).
    + change (link_match (", " ++ link_to u "next")) with (link_match (link_to u "next")).
      specialize (Hnext EmptyString). now rewrite append_nil_r in Hnext.
    + unfold match_here. simpl Ascii.eqb. cbv iota.
      change (p ++ ">; rel=" ++ String dquote ("previous" ++ String dquote (", " ++ link_to u "next")))
        with (p ++ String ">" ("; rel=" ++ String dquote
                                  ("previous" ++ String dquote (", " ++ link_to u "next")))).
      rewrite (span_not_gt_append p _ Hp). now destruct (negb (p =? "")).
  - unfold next_url.
    destruct (negb (link_to p "previous" =? "") && includes (link_to p "previous") rel_next);
      [|reflexivity].
    unfold link_to.
    change ("<" ++ p ++ ">; rel=" ++ String dquote ("previous" ++ String dquote EmptyString))
      with (String "<" (p ++ ">; rel=" ++ String dquote ("previous" ++ String dquote EmptyString))).
    cbn [link_match]. rewrite (link_match_previous EmptyString p Hp).
    replace (match_here (String "<" (p ++ ">; rel=" ++ String dquote
                                           ("previous" ++ String dquote EmptyString))))
      with (@None string); [reflexivity|].
    unfold match_here. simpl Ascii.eqb. cbv iota.
    change (p ++ ">; rel=" ++ String dquote ("previous" ++ String dquote EmptyString))
      with (p ++ String ">" ("; rel=" ++ String dquote ("previous" ++ String dquote EmptyString))).
    rewrite (span_not_gt_append p _ Hp). now destruct (negb (p =? "")).
  - reflexivity.
Qed.

(* ------------------------------------------------------------------ *)
(** *** Attributes that cannot be read *)

Lemma attr_step_raises (rev : Revision) (out : Obj) (a : JSValue) :
  attr_entry_ok a = false -> attr_step rev out a = Throw TypeError.
Proof.
  unfold attr_entry_ok, attr_step. intros H.
  destruct (get a "name") as [name|e] eqn:En.
  - destruct (get a "key") as [key|e] eqn:Ek.
    + cbn [bind]. unfold js_or in *. destruct (truthy name) eqn:Et.
      * cbn [bind]. rewrite ?Et in *. destruct name; try reflexivity. discriminate.
      * cbn [bind]. rewrite ?Et in *. destruct (if truthy key then key else JStr "") eqn:Ej;
          try reflexivity. discriminate.
    + destruct a; discriminate.
  - destruct a; try discriminate; simpl in En; injection En as <-; reflexivity.
Qed.

Lemma attr_step_normal (rev : Revision) (out : Obj) (a : JSValue) :
  attr_entry_ok a = true -> exists out', attr_step rev out a = Normal out'.
Proof.
  intros Ha. unfold attr_entry_ok in Ha. unfold attr_step.
  destruct (get a "name") as [name|] eqn:En; [|discriminate].
  destruct (get a "key") as [key|] eqn:Ek; [|discriminate]. simpl.
  assert (Hv : exists value, get a "value" = Normal value).
  { destruct a; try discriminate; simpl; now eexists. }
  destruct Hv as [value Hv].
  destruct (truthy name) eqn:Et; simpl.
  - unfold js_or in *. rewrite Et in *. simpl in *. rewrite Et in *.
    destruct name; try discriminate. simpl. rewrite Hv. simpl.
    destruct (_ =? ""); now eexists.
  - unfold js_or in *. rewrite Et in *.
    destruct (if truthy key then key else JStr "") eqn:Ej; try discriminate.
    simpl. rewrite Hv. simpl. destruct (_ =? ""); now eexists.
Qed.

Lemma attr_loop_raises (rev : Revision) (l : list JSValue) :
  forallb attr_entry_ok l = false ->
  forall out, attr_loop rev out l = Throw TypeError.
Proof.
  induction l as [|a l IH]; intros H out; [discriminate|].
  simpl in H. simpl. apply andb_false_iff in H.
  destruct (attr_entry_ok a) eqn:Ea.
  - destruct H as [H|H]; [discriminate|].
    destruct (attr_step_normal rev out a Ea) as [out' ->]. cbn [bind]. now apply IH.
  - now rewrite attr_step_raises.
Qed.

(** When [extractUtmFromAttributes] raises.  It returns on every value
    but an array with an entry that it cannot read, an entry that is
    [null] or [undefined] or whose name, or else key, is not a string;
    on such an array it raises a [TypeError], wherever the entry
    stands. *)
Theorem extractUtmFromAttributes_readable (rev : Revision) (attrs : JSValue) :
  (attrs_ok attrs = true -> exists out, extractUtmFromAttributes rev attrs = Normal out)
  /\ (attrs_ok attrs = false -> extractUtmFromAttributes rev attrs = Throw TypeError).
Proof.
  split; [apply extractUtmFromAttributes_normal|].
  destruct attrs as [| | | | |l|o]; try discriminate.
  simpl. intros H. now apply attr_loop_raises.
Qed.

Lemma alias_object (fields : Obj) (keys : list string) :
  exists v, alias (JObj fields) keys = Normal v.
Proof.
  induction keys as [|k ks IH]; [now eexists|].
  destruct ks as [|k' ks]; [simpl; now eexists|].
  change (alias (JObj fields) (k :: k' :: ks))
    with (v <- get (JObj fields) k ;;
          if truthy v then Normal v else alias (JObj fields) (k' :: ks)).
  simpl get. cbn [bind]. destruct (truthy (obj_get fields k)); [now eexists|exact IH].
Qed.

Lemma alias_or_empty_object (fields : Obj) (keys : list string) :
  exists v, alias_or_empty (JObj fields) keys = Normal v.
Proof.
  unfold alias_or_empty. destruct (alias_object fields keys) as [v ->]. cbn [bind].
  now eexists.
Qed.

(** The row of an order whose attributes cannot be read is not built. *)
Lemma rest_row_raises (rev : Revision) (fields : Obj) (attrs : JSValue) :
  alias (JObj fields) ["note_attributes"; "attributes"] = Normal attrs ->
  attrs_ok attrs = false ->
  rest_row rev (JObj fields) = Throw TypeError.
Proof.
  intros Ha Hbad.
  assert (Hx : extractUtmFromAttributes rev attrs = Throw TypeError)
    by (now apply extractUtmFromAttributes_readable).
  assert (Hx1 : extractUtmFromAttributes Rev1 attrs = Throw TypeError)
    by (now apply extractUtmFromAttributes_readable).
  destruct rev; unfold rest_row, mapOrderToRow.
  - simpl get. cbn [bind].
    destruct (extractUtmFromUrl_normal (obj_get fields "landing_site")) as [l ->]. cbn [bind].
    destruct (extractUtmFromUrl_normal (obj_get fields "referring_site")) as [r ->]. cbn [bind].
    rewrite Ha. cbn [bind]. now rewrite Hx1.
  - simpl get. cbn [bind].
    destruct (alias_or_empty_object fields ["order_number"; "name"]) as [x ->]. cbn [bind].
    destruct (extractUtmFromUrl_normal (obj_get fields "landing_site")) as [l ->]. cbn [bind].
    rewrite Ha. cbn [bind]. now rewrite Hx.
  - destruct (alias_or_empty_object fields ["name"; "order_number"]) as [x ->]. cbn [bind].
    destruct (alias_or_empty_object fields ["created_at"]) as [y ->]. cbn [bind].
    simpl get. cbn [bind].
    destruct (extractUtmFromUrl_normal (obj_get fields "landing_site")) as [l ->]. cbn [bind].
    rewrite Ha. cbn [bind]. now rewrite Hx.
  - simpl get. cbn [bind].
    destruct (alias_or_empty_object fields ["order_number"; "name"]) as [x ->]. cbn [bind].
    destruct (extractUtmFromUrl_normal (obj_get fields "landing_site")) as [l ->]. cbn [bind].
    rewrite Ha. cbn [bind]. now rewrite Hx.
Qed.

Lemma push_orders_raises (rev : Revision) (cap : Number) (bad : JSValue) (e : Exn)
    (rest : list JSValue) :
  rest_row rev bad = Throw e ->
  forall (good rs mapped : list JSValue),
    rows_of rev good = Normal rs ->
    match cap with
    | Some m => (Z.of_nat (List.length mapped + List.length good) < m)%Z
    | None => True
    end ->
    push_orders rev cap (good ++ bad :: rest) mapped = Throw e.
Proof.
  intros Hbad. induction good as [|o good IH]; intros rs mapped Hrs Hcap.
  - simpl. now rewrite Hbad.
  - simpl in Hrs. simpl.
    destruct (rest_row rev o) as [row|]; simpl in *; [|discriminate].
    destruct (rows_of rev good) as [rs'|]; simpl in *; [|discriminate].
    replace (cap_reached (mapped ++ [row]) cap) with false.
    + apply (IH rs' _ eq_refl). destruct cap as [m|]; [|exact I].
      rewrite length_app. simpl. lia.
    + destruct cap as [m|]; [|reflexivity]. simpl. symmetry. apply Z.leb_gt.
      rewrite length_app. simpl. lia.
Qed.

(** One order that cannot be read fails the whole retrieval.  When a
    page holds, before the cap is reached, an order whose note
    attributes hold an entry that cannot be read, [fetchAllOrdersREST]
    raises a [TypeError] on that page: the rows of the orders before it
    are dropped and the pages after it are not requested. *)
Theorem fetchAllOrdersREST_unreadable_order
    (rev : Revision) (fuel : nat) (created_at_min created_at_max : string)
    (maxResults : Number) (r : Response) (data : JSValue)
    (good : list JSValue) (fields : Obj) (rest rs : list JSValue) (attrs : JSValue) :
  rev <> Rev1 ->
  env_missing SHOP = false ->
  env_missing TOKEN = false ->
  let url := orders_url (env_or SHOP "") created_at_min created_at_max in
  fetch url = Some r ->
  ok r = true ->
  JSON_parse (body r) = Some data ->
  truthy data = true ->
  get data "orders" = Normal (JArr (good ++ JObj fields :: rest)) ->
  rows_of rev good = Normal rs ->
  alias (JObj fields) ["note_attributes"; "attributes"] = Normal attrs ->
  attrs_ok attrs = false ->
  match maxResults with
  | Some m => (Z.of_nat (List.length good) < m)%Z
  | None => True
  end ->
  fetchAllOrdersREST rev (S fuel) created_at_min created_at_max maxResults
    = Some ([url], Throw TypeError).
Proof.
  intros _ Hs Ht url Hf Hok Hj Hd Ho Hrs Ha Hbad Hcap.
  unfold fetchAllOrdersREST. rewrite Hs, Ht. simpl orb. cbv iota. fold url.
  simpl rest_loop. rewrite Hf, Hok. simpl negb. cbv iota. rewrite Hj.
  unfold page_orders. rewrite Hd, Ho. cbn [bind truthy iterate].
  rewrite (push_orders_raises rev maxResults (JObj fields) TypeError rest
             (rest_row_raises rev fields attrs Ha Hbad) good rs [] Hrs).
  - reflexivity.
  - destruct maxResults; [exact Hcap|exact I].
Qed.

(* ------------------------------------------------------------------ *)
(** *** The order of rows with the same timestamp *)

Lemma filter_sort_insert (rev : Revision) (t : Z) (x : JSValue) (l : list JSValue) :
  filter (fun r => (instant (sort_key rev r) =? t)%Z) (sort_insert (compare_rows rev) x l)
    = filter (fun r => (instant (sort_key rev r) =? t)%Z) (x :: l).
Proof.
  induction l as [|y l IH]; [reflexivity|].
  cbn [sort_insert].
  destruct (match compare_rows rev x y with Some d => d | None => 0 end <=? 0)%Z eqn:E;
    [reflexivity|].
  apply Z.leb_gt in E. cbn [filter] in *. rewrite IH.
  destruct (instant (sort_key rev x) =? t)%Z eqn:Ex; [|reflexivity].
  destruct (instant (sort_key rev y) =? t)%Z eqn:Ey; [|reflexivity].
  exfalso. apply Z.eqb_eq in Ex, Ey. unfold compare_rows, instant in *.
  destruct (new_Date (sort_key rev y)); destruct (new_Date (sort_key rev x)); lia.
Qed.

(** The sort is stable on the timestamps: the rows of one instant come
    out of [/api/orders] in the order in which the upstream delivered
    them. *)
Theorem js_sort_keeps_delivery_order (rev : Revision) (all : list JSValue) (t : Z) :
  filter (fun r => (instant (sort_key rev r) =? t)%Z) (js_sort (compare_rows rev) all)
    = filter (fun r => (instant (sort_key rev r) =? t)%Z) all.
Proof.
  induction all as [|x all IH]; [reflexivity|].
  unfold js_sort in *. cbn [fold_right]. rewrite filter_sort_insert.
  cbn [filter]. now rewrite IH.
Qed.

(* ------------------------------------------------------------------ *)
(** *** The shape of a row *)

Lemma all_strings_get (o : Obj) (k : string) :
  all_strings o -> (exists s, obj_get o k = JStr s) \/ obj_get o k = JUndefined.
Proof.
  induction 1 as [|[k' v] o [s Hs] _ IH]; simpl; [now right|].
  destruct (k' =? k); [left; now exists s|exact IH].
Qed.

Lemma obj_set_strings (o : Obj) (k s : string) :
  all_strings o -> all_strings (obj_set o k (JStr s)).
Proof.
  induction 1 as [|[k' v] o Hv Ho IH]; simpl.
  - constructor; [now exists s|constructor].
  - destruct (k' =? k); constructor; auto. now exists s.
Qed.

Lemma utm_empty_strings : all_strings utm_empty.
Proof. repeat constructor; now exists "". Qed.

Lemma extractUtmFromUrl_strings (v : JSValue) (out : Obj) :
  extractUtmFromUrl v = Normal out -> all_strings out.
Proof.
  unfold extractUtmFromUrl.
  destruct (negb (truthy v)); [intros [= <-]; apply utm_empty_strings|].
  unfold extractUtmFromUrl_try.
  destruct (url_base v) as [base|]; simpl; [|intros [= <-]; apply utm_empty_strings].
  destruct (URL_searchParams base) as [entries|]; simpl;
    intros [= <-]; [|apply utm_empty_strings].
  unfold collect_utm. generalize utm_empty utm_empty_strings.
  induction entries as [|[k s] entries IH]; intros o Ho; [exact Ho|].
  simpl. apply IH. destruct (startsWith k "utm_"); [now apply obj_set_strings|exact Ho].
Qed.

Lemma fill_strings (n v f : string) (out : Obj) :
  all_strings out -> all_strings (fill n v f out).
Proof.
  intros Ho. unfold fill. destruct (includes n f); [|exact Ho].
  destruct (all_strings_get out f Ho) as [[s ->]| ->]; unfold js_or; simpl.
  - destruct (negb (s =? "")); now apply obj_set_strings.
  - now apply obj_set_strings.
Qed.

Lemma fill_all_strings (n v : string) (out : Obj) :
  all_strings out -> all_strings (fill_all n v out).
Proof. intros Ho. unfold fill_all. now repeat apply fill_strings. Qed.

Lemma extractUtmFromAttributes_strings (rev : Revision) (attrs : JSValue) (out : Obj) :
  extractUtmFromAttributes rev attrs = Normal out -> all_strings out.
Proof.
  unfold extractUtmFromAttributes.
  destruct (negb (truthy attrs)); [intros [= <-]; apply utm_empty_strings|].
  destruct attrs as [| | | | |l|o]; try (intros [= <-]; apply utm_empty_strings).
  - generalize utm_empty utm_empty_strings. induction l as [|a l IH]; intros o Ho H.
    + simpl in H. now injection H as <-.
    + simpl in H. destruct (attr_step rev o a) as [o'|] eqn:Es; [|discriminate].
      cbn [bind] in H. apply (IH o'); [|exact H].
      unfold attr_step in Es. repeat bind_inv Es.
      destruct (_ =? "") in Es; injection Es as <-; [exact Ho|now apply fill_all_strings].
  - intros [= <-]. generalize utm_empty utm_empty_strings.
    generalize (map fst o) as keys. induction keys as [|k keys IH]; intros out Ho; [exact Ho|].
    simpl. apply IH. unfold key_step. destruct (_ =? ""); [exact Ho|now apply fill_all_strings].
Qed.

Lemma pick_string (landing referring note : Obj) (f : string) :
  all_strings landing -> all_strings referring -> all_strings note ->
  exists s, pick landing referring note f = JStr s.
Proof.
  intros Hl Hr Hn. unfold pick, js_or.
  destruct (all_strings_get landing f Hl) as [[a ->]| ->];
    destruct (all_strings_get referring f Hr) as [[b ->]| ->];
    destruct (all_strings_get note f Hn) as [[c ->]| ->]; simpl;
    repeat match goal with
           | |- context [negb (?x =? "")] => destruct (negb (x =? "")); simpl
           end; eauto.
Qed.

Lemma alias_or_empty_defined (node : JSValue) (keys : list string) (v : JSValue) :
  alias_or_empty node keys = Normal v -> v <> JNull /\ v <> JUndefined.
Proof.
  unfold alias_or_empty. intros H. bind_inv H. injection H as <-.
  unfold js_or. destruct (truthy x) eqn:Et; [|split; discriminate].
  destruct x; try discriminate; split; discriminate.
Qed.

Lemma mapped_row_fields (rev : Revision) (node row : JSValue) :
  (match rev with
   | Rev1 => mapOrderToRow node
   | _ => mapOrderNodeToRow rev node
   end) = Normal row ->
  exists o,
    row = JObj o
    /\ map fst o = row_keys rev
    /\ (forall f, In f utm_fields -> exists s, obj_get o f = JStr s)
    /\ (rev <> Rev1 ->
        forall k, In k columns -> obj_get o k <> JNull /\ obj_get o k <> JUndefined).
Proof.
  intros H.
  destruct rev; [unfold mapOrderToRow in H|unfold mapOrderNodeToRow in H..];
    repeat bind_inv H;
    match goal with
    | Hl : extractUtmFromUrl _ = Normal ?l, Hr : extractUtmFromUrl _ = Normal ?r,
      Hn : extractUtmFromAttributes _ _ = Normal ?n |- _ =>
        apply extractUtmFromUrl_strings in Hl; apply extractUtmFromUrl_strings in Hr;
        apply extractUtmFromAttributes_strings in Hn;
        destruct (pick_string l r n "utm_source" Hl Hr Hn) as [s1 P1];
        destruct (pick_string l r n "utm_medium" Hl Hr Hn) as [s2 P2];
        destruct (pick_string l r n "utm_campaign" Hl Hr Hn) as [s3 P3];
        destruct (pick_string l r n "utm_term" Hl Hr Hn) as [s4 P4];
        destruct (pick_string l r n "utm_content" Hl Hr Hn) as [s5 P5];
        rewrite P1, P2, P3, P4, P5 in H
    end;
    injection H as <-;
    repeat match goal with
           | Ha : alias_or_empty _ _ = Normal _ |- _ => apply alias_or_empty_defined in Ha
           end;
    (eexists; split; [reflexivity|]; split; [reflexivity|]; split;
     [intros f Hf; utm_field_cases Hf; simpl; eauto|]).
  - intros Hne. now contradiction Hne.
  - intros _ k Hk. unfold columns in Hk. simpl in Hk.
    destruct Hk as [<-|[<-|[<-|[<-|[<-|[<-|[<-|[]]]]]]]]; simpl;
      try (split; discriminate); assumption.
  - intros _ k Hk. unfold columns in Hk. simpl in Hk.
    destruct Hk as [<-|[<-|[<-|[<-|[<-|[<-|[<-|[]]]]]]]]; simpl;
      try (split; discriminate); assumption.
  - intros _ k Hk. unfold columns in Hk. simpl in Hk.
    destruct Hk as [<-|[<-|[<-|[<-|[<-|[<-|[<-|[]]]]]]]]; simpl;
      try (split; discriminate); assumption.
Qed.

(** The shape of the rows of [mapOrderToRow] and [mapOrderNodeToRow].
    A row is an object with the same keys, in the same order, whatever
    the order holds: no key of the landing URL reaches it but the five
    attribution fields.  These five are strings, and in a row of
    [mapOrderNodeToRow] no column of the CSV is [null] or
    [undefined]. *)
Theorem mapped_row_shape (rev : Revision) (node row : JSValue) :
  (match rev with
   | Rev1 => mapOrderToRow node
   | _ => mapOrderNodeToRow rev node
   end) = Normal row ->
  exists o,
    row = JObj o
    /\ map fst o = row_keys rev
    /\ (forall f, In f utm_fields -> exists s, obj_get o f = JStr s)
    /\ (rev <> Rev1 ->
        forall k, In k columns -> obj_get o k <> JNull /\ obj_get o k <> JUndefined).
Proof. apply mapped_row_fields. Qed.

Lemma collect_utm_NoDup (entries : list (string * string)) (out : Obj) :
  NoDup (map fst out) -> NoDup (map fst (collect_utm out entries)).
Proof.
  unfold collect_utm. revert out. induction entries as [|[k v] entries IH]; intros out Hnd;
    [exact Hnd|].
  simpl. apply IH. destruct (startsWith k "utm_"); [now apply obj_set_NoDup|exact Hnd].
Qed.

Lemma last_value_in (entries : list (string * string)) (k v : string) :
  last_value entries k = Some v -> In k (map fst entries).
Proof.
  unfold last_value. intros H.
  destruct (find (fun kv => fst kv =? k) (rev entries)) as [[k' v']|] eqn:E; [|discriminate].
  apply find_some in E. destruct E as [Hin Hk]. simpl in Hk. apply String.eqb_eq in Hk.
  subst k'. apply in_rev in Hin. apply (in_map fst) in Hin. exact Hin.
Qed.

Lemma obj_get_absent (o : Obj) (k : string) :
  ~ In k (map fst o) -> obj_get o k = JUndefined.
Proof.
  induction o as [|[k' v] o IH]; intros H; [reflexivity|].
  simpl in *. destruct (k' =? k) eqn:E.
  - apply String.eqb_eq in E. exfalso. auto.
  - apply IH. auto.
Qed.

(** The rows are not of one shape.  A parameter of the landing URL whose
    name starts with [utm_] and is not one of the five fields, such as
    [utm_id], is a key of the row that the loop of [fetchAllOrdersREST]
    builds in [Rev2], [Rev3] and [Rev4], with its last value; the rows
    of [mapOrderToRow] and [mapOrderNodeToRow] never have such a key. *)
Theorem rest_row_keeps_extra_keys
    (rev : Revision) (o row : JSValue) (s base : string)
    (entries : list (string * string)) (k v : string) :
  rev <> Rev1 ->
  rest_row rev o = Normal row ->
  get o "landing_site" = Normal (JStr s) ->
  s <> "" ->
  url_base (JStr s) = Normal base ->
  URL_searchParams base = Some entries ->
  startsWith k "utm_" = true ->
  ~ In k utm_fields ->
  last_value entries k = Some v ->
  row_get row k = JStr v
  /\ (forall row', mapOrderToRow o = Normal row' -> row_get row' k = JUndefined)
  /\ (forall row', mapOrderNodeToRow rev o = Normal row' -> row_get row' k = JUndefined).
Proof.
  intros Hrev H Hls Hs Hbase Hparams Hk Hnk Hv.
  assert (Hmapped : forall r row',
             (match r with Rev1 => mapOrderToRow o | _ => mapOrderNodeToRow r o end)
             = Normal row' -> row_get row' k = JUndefined).
  { intros r row' Hr. apply mapped_row_fields in Hr.
    destruct Hr as (fields & -> & Hkeys & _). simpl. apply obj_get_absent.
    rewrite Hkeys. intros Hin.
    destruct r; simpl in Hin;
      repeat (destruct Hin as [<-|Hin];
              [try discriminate Hk; exfalso; apply Hnk; simpl; auto 10|]);
      contradiction. }
  split; [|split; [apply (Hmapped Rev1)|]].
  - pose proof (extractUtmFromUrl_parsed s base entries Hs Hbase Hparams) as Hland.
    assert (Hget : forall fixed note,
               map fst note = utm_fields ->
               obj_get (obj_assign fixed
                          (obj_assign (obj_assign [] (collect_utm utm_empty entries)) note)) k
               = JStr v).
    { intros fixed note Hnote.
      assert (Hin : In k (map fst (collect_utm utm_empty entries))).
      { apply collect_utm_keys. right. split; [exact Hk|]. eapply last_value_in. exact Hv. }
      assert (Hnd : NoDup (map fst (collect_utm utm_empty entries)))
        by (apply collect_utm_NoDup, utm_fields_NoDup).
      rewrite obj_assign_get_in.
      - rewrite obj_assign_get_other by (now rewrite Hnote).
        rewrite obj_assign_get_in by assumption.
        rewrite collect_utm_get by exact Hk. now rewrite Hv.
      - apply obj_assign_NoDup, obj_assign_NoDup. constructor.
      - apply obj_assign_keys. left. apply obj_assign_keys. now right. }
    destruct rev; [contradiction| | |]; unfold rest_row in H; repeat bind_split H;
      injection H as <-; injection Hls as ->;
      match goal with
      | E : extractUtmFromUrl (JStr s) = Normal ?l |- _ =>
          rewrite Hland in E; injection E as <-
      end;
      match goal with
      | E : extractUtmFromAttributes _ _ = Normal ?n |- _ =>
          apply extractUtmFromAttributes_fields in E; simpl row_get; now apply Hget
      end.
  - destruct rev; [contradiction|apply (Hmapped Rev2)|apply (Hmapped Rev3)|apply (Hmapped Rev4)].
Qed.

(* ------------------------------------------------------------------ *)
(** *** The dates sent upstream *)

Lemma iso_text_append (a b : string) : iso_text (a ++ b) = iso_text a && iso_text b.
Proof.
  induction a as [|c a IH]; [reflexivity|]. simpl. now rewrite IH, andb_assoc.
Qed.

Lemma string_of_uint_iso (d : Decimal.uint) :
  iso_text (DecimalString.NilEmpty.string_of_uint d) = true.
Proof. induction d; simpl; auto. Qed.

Lemma string_of_Z_iso (n : Z) : iso_text (string_of_Z n) = true.
Proof.
  unfold string_of_Z. destruct n as [|p|p]; [reflexivity| |]; simpl;
    destruct (Pos.to_uint p) eqn:E; simpl; try reflexivity;
    rewrite ?string_of_uint_iso; reflexivity.
Qed.

Lemma pad_iso (n : Z) : iso_text (pad n) = true.
Proof.
  unfold pad. destruct (String.length (string_of_Z n) <? 2)%nat.
  - simpl. apply string_of_Z_iso.
  - apply string_of_Z_iso.
Qed.

Lemma padStart_iso (w : nat) (s : string) : iso_text s = true -> iso_text (padStart w s) = true.
Proof.
  intros Hs. unfold padStart. rewrite iso_text_append, Hs, andb_true_r.
  induction (w - String.length s)%nat as [|n IH]; [reflexivity|exact IH].
Qed.

Lemma toISOString_iso (t : Z) : iso_text (toISOString t) = true.
Proof.
  unfold toISOString. destruct (civil_from_days (t / 86400000)) as [[y m] d].
  repeat rewrite iso_text_append.
  rewrite !pad_iso, !padStart_iso by apply string_of_Z_iso. simpl.
  destruct ((0 <=? y)%Z && (y <=? 9999)%Z).
  - now rewrite padStart_iso by apply string_of_Z_iso.
  - rewrite iso_text_append, padStart_iso by apply string_of_Z_iso.
    now destruct (y <? 0)%Z.
Qed.

(** What the request says about the dates never reaches the upstream as
    it is.  Whatever [start] and [end] hold, the two timestamps that the
    handlers put in the REST URLs and in the bulk query are made of
    digits and of the marks [-+:.TZ] alone; they hold no double quote,
    so that the text of the request cannot end the string in which the
    bulk query quotes them. *)
Theorem date_range_alphabet (start end_ : JSValue) (created_at_min created_at_max : string) :
  date_range start end_ = Normal (created_at_min, created_at_max) ->
  iso_text created_at_min = true /\ iso_text created_at_max = true
  /\ mentions dquote created_at_min = false /\ mentions dquote created_at_max = false.
Proof.
  assert (Hq : forall s, iso_text s = true -> mentions dquote s = false).
  { induction s as [|c s IH]; [reflexivity|]. simpl. intros H.
    apply andb_true_iff in H. destruct H as [Hc Hs]. rewrite (IH Hs), orb_false_r.
    destruct (Ascii.eqb c dquote) eqn:E; [|reflexivity].
    apply Ascii.eqb_eq in E. subst c. discriminate. }
  unfold date_range, iso_date. intros H.
  destruct (new_Date (JStr (toString start ++ "T00:00:00Z"))) as [t1|]; [|discriminate].
  destruct (new_Date (JStr (toString end_ ++ "T23:59:59Z"))) as [t2|]; [|discriminate].
  simpl in H. injection H as <- <-.
  pose proof (toISOString_iso t1). pose proof (toISOString_iso t2). auto.
Qed.

End Host.

(* ================================================================== *)
(** ** The model on the reference host *)

Local Abbreviation demo_parse := (ref_JSON_parse demo_known).
Local Abbreviation demo_fetch := (ref_fetch demo_responses).

(** C4 on the malformed URL of the specification. *)
Lemma extractUtmFromUrl_total_witness :
  url_base None (JStr "not a url ::") = Normal "https://example.comnot a url ::"
  /\ ref_searchParams "https://example.comnot a url ::" = None
  /\ extractUtmFromUrl None ref_searchParams (JStr "not a url ::") = Normal utm_empty.
Proof.
  split; [reflexivity|]. split; [reflexivity|].
  apply (proj2 (extractUtmFromUrl_total None ref_searchParams "not a url ::")
           "https://example.comnot a url ::"); reflexivity.
Defined.

(** C10 on a landing path with [utm_id] given twice. *)
Lemma extractUtmFromUrl_extra_keys_witness :
  exists out,
    extractUtmFromUrl None ref_searchParams (JStr "/?utm_id=x&utm_source=a&utm_id=y") = Normal out
    /\ obj_get out "utm_id" = JStr "y"
    /\ In "utm_id" (map fst out)
    /\ (~ In "utm_id" utm_fields -> ~ incl (map fst out) utm_fields).
Proof.
  apply (extractUtmFromUrl_extra_keys None ref_searchParams
           "/?utm_id=x&utm_source=a&utm_id=y"
           "https://example.com/?utm_id=x&utm_source=a&utm_id=y"
           [("utm_id", "x"); ("utm_source", "a"); ("utm_id", "y")] "utm_id" "y");
    [discriminate | reflexivity | reflexivity | reflexivity | reflexivity].
Defined.

(** C5 on the example of the specification. *)
Lemma extractUtmFromAttributes_first_match_witness :
  In "utm_source" utm_fields
  /\ exists out,
       extractUtmFromAttributes Rev4
         (JArr [note_attr "UTM_Source" "a"; note_attr "utm_source_x" "b"]) = Normal out
       /\ obj_get out "utm_source" = JStr "a".
Proof.
  assert (Hf : In "utm_source" utm_fields) by (simpl; auto).
  split; [exact Hf|].
  exact (proj1 (extractUtmFromAttributes_first_match Rev4
                  [("UTM_Source", JStr "a"); ("utm_source_x", JStr "b")] "utm_source" Hf)).
Defined.

(** C1 on [demo_order_1], whose landing URL, referring URL and note
    attributes all give [utm_source], and whose landing URL alone gives
    [utm_medium].  [mapOrderToRow] ([Rev1]) returns the landing values.
    The row of [fetchAllOrdersREST] ([Rev2], and [Rev3], [Rev4] alike)
    holds the note value for [utm_source] and nothing for [utm_medium]:
    the extraction from the note attributes, which always has the five
    fields, is assigned over the extraction from the landing URL, and
    the referring URL is not read. *)
Lemma rest_row_overrides_landing :
  (exists row,
      mapOrderToRow None ref_searchParams demo_order_1 = Normal row
      /\ row_get row "utm_source" = JStr "land"
      /\ row_get row "utm_medium" = JStr "cpc"
      /\ row_get row "utm_term" = JStr "shoes")
  /\ (forall rev, rev <> Rev1 ->
      exists row,
        rest_row None ref_searchParams ref_Date_parse rev demo_order_1 = Normal row
        /\ row_get row "utm_source" = JStr "note"
        /\ row_get row "utm_medium" = JStr ""
        /\ row_get row "utm_term" = JStr "").
Proof.
  split.
  - eexists. split; [vm_compute; reflexivity|]. repeat split.
  - intros rev Hrev. destruct rev; [contradiction| | |];
      (eexists; split; [vm_compute; reflexivity|]; repeat split).
Qed.

(** The precedence of [mapOrderToRow] on [demo_order_1]. *)
Lemma mapOrderToRow_precedence_witness :
  exists row landing_site referring_site attrs landing referring note,
    mapOrderToRow None ref_searchParams demo_order_1 = Normal row
    /\ get demo_order_1 "landing_site" = Normal landing_site
    /\ get demo_order_1 "referring_site" = Normal referring_site
    /\ alias demo_order_1 ["note_attributes"; "attributes"] = Normal attrs
    /\ extractUtmFromUrl None ref_searchParams landing_site = Normal landing
    /\ extractUtmFromUrl None ref_searchParams referring_site = Normal referring
    /\ extractUtmFromAttributes Rev1 attrs = Normal note
    /\ forall f, In f utm_fields ->
         row_get row f =
           first_nonempty [obj_get landing f; obj_get referring f; obj_get note f].
Proof.
  eexists.
  assert (H : mapOrderToRow None ref_searchParams demo_order_1 = Normal
                (demo_row (JNum 1) "#1001" "2024-03-01T10:00:00Z" "land" "cpc" "" "shoes" ""))
    by (vm_compute; reflexivity).
  destruct (mapOrderToRow_precedence None ref_searchParams demo_order_1 _ H)
    as (ls & rs & at_ & l & r & n & H1 & H2 & H3 & H4 & H5 & H6 & H7).
  exists ls, rs, at_, l, r, n. repeat (split; [eassumption|]). exact H7.
Defined.

(** The precedence of [mapOrderNodeToRow] on [demo_node_1]. *)
Lemma mapOrderNodeToRow_precedence_witness :
  exists row landing_site referring_site attrs landing referring note,
    mapOrderNodeToRow None ref_searchParams ref_Date_parse Rev2 demo_node_1 = Normal row
    /\ alias_or_empty demo_node_1 ["landingSite"; "landing_site"; "landingSiteUrl"]
         = Normal landing_site
    /\ alias_or_empty demo_node_1 ["referringSite"; "referring_site"] = Normal referring_site
    /\ alias demo_node_1 ["noteAttributes"; "note_attributes"; "attributes"; "attrs"]
         = Normal attrs
    /\ extractUtmFromUrl None ref_searchParams landing_site = Normal landing
    /\ extractUtmFromUrl None ref_searchParams referring_site = Normal referring
    /\ extractUtmFromAttributes Rev2 attrs = Normal note
    /\ forall f, In f utm_fields ->
         row_get row f =
           first_nonempty [obj_get landing f; obj_get referring f; obj_get note f].
Proof.
  eexists.
  assert (H : mapOrderNodeToRow None ref_searchParams ref_Date_parse Rev2 demo_node_1 = Normal
                (demo_row (JStr "gid://shopify/Order/1") "#1001" "2024-03-01T10:00:00Z"
                   "land" "cpc" "" "shoes" "banner"))
    by (vm_compute; reflexivity).
  destruct (mapOrderNodeToRow_precedence None ref_searchParams ref_Date_parse Rev2 demo_node_1 _ H)
    as (ls & rs & at_ & l & r & n & H1 & H2 & H3 & H4 & H5 & H6 & H7).
  exists ls, rs, at_, l, r, n. repeat (split; [eassumption|]). exact H7.
Defined.

(** The five fields of the REST row of [demo_order_1] in [Rev2] are the
    fields of its note extraction. *)
Lemma rest_row_ignores_landing_witness :
  exists row attrs note,
    rest_row None ref_searchParams ref_Date_parse Rev2 demo_order_1 = Normal row
    /\ alias demo_order_1 ["note_attributes"; "attributes"] = Normal attrs
    /\ extractUtmFromAttributes Rev2 attrs = Normal note
    /\ forall f, In f utm_fields -> row_get row f = obj_get note f.
Proof.
  eexists.
  assert (H : rest_row None ref_searchParams ref_Date_parse Rev2 demo_order_1 = Normal
                (demo_row (JNum 1) "#1001" "2024-03-01T10:00:00Z" "note" "" "" "" ""))
    by (vm_compute; reflexivity).
  destruct (rest_row_ignores_landing None ref_searchParams ref_Date_parse Rev2 demo_order_1 _
              ltac:(discriminate) H) as (attrs & note & H1 & H2 & H3).
  exists attrs, note. split; [exact H|]. split; [exact H1|]. split; [exact H2|exact H3].
Defined.

(** C2 as stated fails: the upstream answers the count request with a
    JSON object that holds no count, and the operation returns 0. *)
Lemma fetchOrdersCount_missing_count_is_zero :
  ref_JSON_parse demo_known (json_text (JObj [])) = Some (JObj [])
  /\ get (JObj []) "count" = Normal JUndefined
  /\ fetchOrdersCount demo_shop demo_token (ref_fetch demo_no_count) demo_parse
       demo_min demo_max
     = ([demo_count_url], Normal (JNum 0)).
Proof. repeat split; vm_compute; reflexivity. Qed.

(** C2 as amended, on a response that reports three orders. *)
Lemma fetchOrdersCount_reports_witness :
  fetchOrdersCount demo_shop demo_token (ref_fetch demo_count_3) demo_parse demo_min demo_max
    = ([demo_count_url], Normal (JNum 3)).
Proof.
  exact (fetchOrdersCount_reports demo_shop demo_token (ref_fetch demo_count_3) demo_parse
           demo_min demo_max
           {| ok := true; status := 200; body := json_text (JObj [("count", JNum 3)]);
              link := None |}
           (JObj [("count", JNum 3)]) (JNum 3)
           eq_refl eq_refl eq_refl eq_refl eq_refl eq_refl).
Defined.

(** C3 as stated fails for a cap of 0: the first page is requested and
    its first row is returned, where the claim asks for no row and for
    no request once the cap is reached. *)
Lemma fetchAllOrdersREST_cap_zero :
  exists log rows,
    fetchAllOrdersREST demo_shop demo_token ref_searchParams ref_Date_parse demo_fetch
        demo_parse Rev2 5 demo_min demo_max (Some 0%Z)
      = Some (log, Normal rows)
    /\ log = [demo_url_1]
    /\ rows = [demo_row (JNum 1) "#1001" "2024-03-01T10:00:00Z" "note" "" "" "" ""]
    /\ rows <> firstn (Z.to_nat 0) (List.concat demo_rest_rows).
Proof.
  eexists. eexists. split; [vm_compute; reflexivity|].
  split; [reflexivity|]. split; [reflexivity|]. discriminate.
Qed.

Lemma demo_pages_linked :
  linked demo_fetch
    ((orders_url (env_or demo_shop "") demo_min demo_max,
      {| ok := true; status := 200; body := json_text demo_page_1; link := Some demo_link |})
       :: tl demo_responses).
Proof. simpl. repeat split; vm_compute; reflexivity. Qed.

Lemma demo_pages_rows :
  Forall2 (page_has_rows demo_shop ref_searchParams ref_Date_parse demo_parse Rev2)
    ((orders_url (env_or demo_shop "") demo_min demo_max,
      {| ok := true; status := 200; body := json_text demo_page_1; link := Some demo_link |})
       :: tl demo_responses)
    demo_rest_rows.
Proof.
  constructor; [exists demo_page_1; split; vm_compute; reflexivity|].
  constructor; [exists demo_page_2; split; vm_compute; reflexivity|].
  constructor.
Qed.

(** C3 as amended, on the two demo pages with a cap of two rows: the
    first page completes the cap and the second page is not requested. *)
Lemma fetchAllOrdersREST_pagination_witness :
  fetchAllOrdersREST demo_shop demo_token ref_searchParams ref_Date_parse demo_fetch demo_parse
      Rev2 5 demo_min demo_max (Some 2%Z)
    = Some ([demo_url_1],
            Normal [demo_row (JNum 1) "#1001" "2024-03-01T10:00:00Z" "note" "" "" "" "";
                    demo_row (JNum 2) "#1002" "2024-03-03T08:30:00Z" "" "" "" "" ""]).
Proof.
  destruct (fetchAllOrdersREST_pagination demo_shop demo_token ref_searchParams ref_Date_parse
              demo_fetch demo_parse Rev2 demo_min demo_max 2
              {| ok := true; status := 200; body := json_text demo_page_1;
                 link := Some demo_link |}
              (tl demo_responses) demo_rest_rows
              eq_refl eq_refl ltac:(lia) demo_pages_linked demo_pages_rows) as [H _].
  exact (H 5%nat ltac:(simpl; lia)).
Defined.




(** C7 on the demo export with a preview of three rows.  [Rev2] takes
    three lines from the file and writes four chunks, the header and
    three rows, but it ends each of them with a backslash and the letter
    n: the response holds no line feed and is not CSV.  [Rev3] writes the
    same rows on lines, and the response reads back as the header and
    three records. *)
Lemma bulk_download_preview_line_breaks :
  let rev2 := bulk_download None ref_searchParams ref_Date_parse demo_parse Rev2 (Some 3%Z)
                (map fst demo_export) in
  let rev3 := bulk_download None ref_searchParams ref_Date_parse demo_parse Rev3 (Some 3%Z)
                (map fst demo_export) in
  outcome rev2 = Normal tt
  /\ consumed rev2 = 3%nat
  /\ List.length (written rev2) = 4%nat
  /\ includes (response_text (written rev2)) (String newline EmptyString) = false
  /\ csv_read (response_text (written rev2)) = None
  /\ csv_read (response_text (written rev3))
     = Some [columns;
             ["#1001"; "2024-03-01 15:30:00"; "land"; "cpc"; ""; "shoes"; "banner"];
             ["#1002"; "2024-03-03 14:00:00"; ""; ""; "spring"; ""; ""];
             ["#1003"; "2024-03-03 05:15:10"; "a"; ""; ""; ""; ""]].
Proof. cbv zeta. repeat split; vm_compute; reflexivity. Qed.


(** The response of [Rev3] for the rows of the demo export reads back. *)
Lemma response_reads_back_witness :
  csv_read (response_text (header_chunk Rev3
                             :: map (row_chunk Rev3) (List.concat demo_bulk_rows)))
    = Some (columns :: map row_cells (List.concat demo_bulk_rows)).
Proof.
  exact (response_reads_back Rev3 (List.concat demo_bulk_rows) eq_refl).
Defined.


(** C9 on a value that holds a double quote and a comma. *)
Lemma csv_cell_roundtrip_witness :
  let v := "say " ++ String dquote ("hi" ++ String dquote ", you") in
  csv_cell (JStr v)
    = String dquote
        ("say " ++ String dquote (String dquote
           ("hi" ++ String dquote (String dquote (", you" ++ String dquote EmptyString)))))
  /\ csv_read (csv_cell (JStr v)) = Some [[v]].
Proof.
  cbv zeta. split; [reflexivity|].
  exact (proj1 (proj2 (proj2 (proj2
           (csv_cell_roundtrip
              (JStr ("say " ++ String dquote ("hi" ++ String dquote ", you"))) []))))).
Defined.

(** The response of [Rev2] for the three demo rows holds no line feed. *)
Lemma response_without_line_feed_witness :
  mentions newline
    (response_text (header_chunk Rev2 :: map (row_chunk Rev2) (List.concat demo_rest_rows)))
  = false.
Proof.
  apply (response_without_line_feed (List.concat demo_rest_rows)).
  repeat constructor.
Defined.
